(** * BakeAOVertex: per-vertex ambient occlusion baking

    A shallow embedding of [src/BakeAOVertex/BakeAOVertex.js] and the
    properties of its specification.

    Numbers.  A JavaScript [Number] is idealised as a real number: the
    arithmetic of the script is read over [R], comparisons are the
    order of [R].  Only finite values are covered: where a JavaScript
    operation would produce [NaN] or an infinity (a division by zero,
    [Math.pow] of zero to a negative exponent) the model is outside
    its domain, and the theorems that pass through such an operation
    carry the hypothesis that keeps it inside.  The two decimal
    literals that decide a comparison are the doubles they denote:
    [epsilon] is the double nearest to one millionth and [upThreshold]
    the double nearest to nine tenths.

    The theorems over [R] are of two kinds: what the control flow of
    the script does whatever the arithmetic (which guard answers, what
    is written where, how many draws are made), and equalities between
    numbers that hold in exact arithmetic.  Where the answer of the
    intersection test turns on a comparison that rounding can decide
    the other way, the test is embedded a second time, in [Double], on
    IEEE 754 binary64 numbers, and the answer is settled there.

    Host.  The script runs inside Cheetah3D.  The value classes
    [Vec3D] and [Vec4D] are embedded concretely; the matrix class, the
    polygon core and the object tree are embedded as the interface the
    script uses. *)

From Stdlib Require Import Reals Lra Lia List Bool Arith String.
From Stdlib Require Floats.PrimFloat Uint63.
From stdpp Require Import base gmap.

Open Scope R_scope.

(** ** Comparisons of numbers *)

Definition Rltb (a b : R) : bool := if Rlt_dec a b then true else false.
Definition Rgtb (a b : R) : bool := Rltb b a.
Definition Reqb (a b : R) : bool := if Req_dec_T a b then true else false.

(** ** Host value classes *)

(** Modelled from the spec: the host class [Vec3D], an (x, y, z) triple
    with add, subtract, scalar multiply, dot, cross and norm. *)
Module Vec3D.
Record t : Type := new { x : R; y : R; z : R }.

Definition add (a b : t) : t := new (x a + x b) (y a + y b) (z a + z b).
Definition sub (a b : t) : t := new (x a - x b) (y a - y b) (z a - z b).
Definition multiply (a : t) (k : R) : t := new (x a * k) (y a * k) (z a * k).
Definition dot (a b : t) : R := x a * x b + y a * y b + z a * z b.
Definition cross (a b : t) : t :=
  new (y a * z b - z a * y b) (z a * x b - x a * z b) (x a * y b - y a * x b).
Definition norm (a : t) : R := sqrt (dot a a).
End Vec3D.
Notation Vec3D := Vec3D.t.

(** Modelled from the spec: the host class [Vec4D], the 4-component
    value of a per-corner attribute. *)
Module Vec4D.
Record t : Type := new { x : R; y : R; z : R; w : R }.
End Vec4D.
Notation Vec4D := Vec4D.t.

(** ** rayTriangleIntersect (lines 249-283) *)

(** Line 250: the literal [0.000001] is the double nearest to one
    millionth, [4722366482869645 / 2^72], a little below it. *)
Definition epsilon : R := 4722366482869645 / 4722366482869645213696.

Definition rayTriangleIntersect (rayStart rayDir : Vec3D) (rayLength : R)
    (v0 v1 v2 : Vec3D) : bool :=
  let edge1 := Vec3D.sub v1 v0 in
  let edge2 := Vec3D.sub v2 v0 in
  let h := Vec3D.cross rayDir edge2 in
  let a := Vec3D.dot edge1 h in
  if Rgtb a (- epsilon) && Rltb a epsilon then false
  else
    let f := 1 / a in
    let s := Vec3D.sub rayStart v0 in
    let u := f * Vec3D.dot s h in
    if Rltb u 0 || Rgtb u 1 then false
    else
      let q := Vec3D.cross s edge1 in
      let v := f * Vec3D.dot rayDir q in
      if Rltb v 0 || Rgtb (u + v) 1 then false
      else
        let t := f * Vec3D.dot edge2 q in
        if Rgtb t epsilon && Rltb t rayLength then true
        else false.


(** ** Host interface *)

(** Modelled from the spec: the host class [Mat4D], a local-to-world
    transform that supports transforming a point and taking the
    inverse.  The script never looks inside a matrix, so it is kept as
    an interface. *)
Class Host : Type := {
  Mat4D : Type;
  Mat4D_multiply : Mat4D -> Vec3D -> Vec3D;
  Mat4D_inverse : Mat4D -> Mat4D
}.

(** Modelled from the spec: the polygon core of a mesh (the geometry
    access adapter): vertex count, vertex position by index, polygon
    count, corner count of a polygon, vertex index of a polygon corner,
    face normal of a polygon, and the per-corner attribute written by
    [setUVCoord], keyed by (polygon, corner).  The accessors are total:
    what the host answers outside the counts is left open, and the
    script asks inside them only. *)
Module Core.
Record t : Type := make {
  vertexCount : nat;
  vertex : nat -> Vec3D;
  polygonCount : nat;
  polygonSize : nat -> nat;
  vertexIndex : nat -> nat -> nat;
  normal : nat -> Vec3D;
  uvCoord : gmap (nat * nat) Vec4D
}.

(** The core with another attribute store and the same geometry. *)
Definition withUV (core : t) (uv : gmap (nat * nat) Vec4D) : t :=
  make (vertexCount core) (vertex core) (polygonCount core)
       (polygonSize core) (vertexIndex core) (normal core) uv.

Definition setUVCoord (core : t) (p c : nat) (value : Vec4D) : t :=
  withUV core (<[(p, c) := value]> (uvCoord core)).
End Core.
Notation Core := Core.t.

Inductive Family : Type := NGONFAMILY | OTHERFAMILY.

Definition Family_eqb (a b : Family) : bool :=
  match a, b with
  | NGONFAMILY, NGONFAMILY | OTHERFAMILY, OTHERFAMILY => true
  | _, _ => false
  end.

(** Modelled from the spec: a node of the host's object tree.  [core]
    and [modCore] are [None] where the host returns null. *)
Module Obj.
Section WithHost.
Context {host : Host}.

Inductive t : Type := make {
  family : Family;
  core : option Core;
  modCore : option Core;
  obj2WorldMatrix : Mat4D;
  name : string;
  children : list t
}.

(** The node after the script has written into its core and into
    the cores of its descendants. *)
Definition withCoreChildren (obj : t) (core' : option Core)
    (children' : list t) : t :=
  make (family obj) core' (modCore obj) (obj2WorldMatrix obj) (name obj)
       children'.
End WithHost.
End Obj.
Notation Obj := Obj.t.

(** ** The state the script threads: random source and host calls *)

(** [Math.random]: the draws are a stream, [position] counts the calls
    made so far. *)
Record Rng : Type := { draws : nat -> R; position : nat }.

Inductive Piece : Type :=
| Lit (s : string)
| Int (n : nat)
| Num (r : R).

Inductive Event : Type :=
| MessageBox (title message : string)
| Print (line : list Piece)
| RecordGeometryForUndo (object : string)
| Update (object : string)
| RedrawAll.

Record World : Type := { rng : Rng; trace : list Event }.

Definition M (A : Type) : Type := World -> A * World.

#[export] Instance M_ret : MRet M := fun A a w => (a, w).
#[export] Instance M_bind : MBind M :=
  fun A B k m w => let (a, w') := m w in k a w'.

Definition Math_random : M R := fun w =>
  (draws (rng w) (position (rng w)),
   {| rng := {| draws := draws (rng w); position := S (position (rng w)) |};
      trace := trace w |}).

Definition emit (e : Event) : M unit := fun w =>
  (tt, {| rng := rng w; trace := trace w ++ [e] |}).

Definition print (line : list Piece) : M unit := emit (Print line).

(** [Math.pow] on a base that is not negative, where the result is
    finite: [pow(x, 0) = 1], [pow(x, y) = exp (y ln x)] for [0 < x],
    [pow(0, y) = 0] for [0 < y]. *)
Definition Math_pow (base exponent : R) : R :=
  if Reqb exponent 0 then 1
  else if Rltb 0 base then Rpower base exponent
  else 0.

(** ** generateHemisphereSamples (lines 114-133) *)

Fixpoint hemisphereLoop (remaining : nat) (samples : list Vec3D)
    : M (list Vec3D) :=
  match remaining with
  | O => mret samples
  | S remaining' =>
      u ← Math_random;
      v ← Math_random;
      let theta := 2 * PI * u in
      let phi := acos (sqrt v) in
      let x := sin phi * cos theta in
      let y := cos phi in
      let z := sin phi * sin theta in
      hemisphereLoop remaining' (samples ++ [Vec3D.new x y z])
  end.

Definition generateHemisphereSamples (count : nat) : M (list Vec3D) :=
  hemisphereLoop count [].

Section Script.
Context {host : Host}.

(** An entry of [allMeshes] (lines 51-55). *)
Record Mesh : Type := {
  mesh_object : Obj;
  mesh_core : Core;
  mesh_matrix : Mat4D
}.

(** ** calculateVertexNormal (lines 135-166) *)

Definition usesVertex (core : Core) (p vertexIndex : nat) : bool :=
  existsb (fun c => Nat.eqb (Core.vertexIndex core p c) vertexIndex)
          (seq 0 (Core.polygonSize core p)).

Definition accumulateNormals (core : Core) (vertexIndex : nat)
    : Vec3D * nat :=
  fold_left
    (fun '(normal, faceCount) p =>
       if usesVertex core p vertexIndex
       then (Vec3D.add normal (Core.normal core p), S faceCount)
       else (normal, faceCount))
    (seq 0 (Core.polygonCount core))
    (Vec3D.new 0 0 0, O).

Definition calculateVertexNormal (core : Core) (vertexIndex : nat)
    (matrix : Mat4D) : Vec3D :=
  let '(normal, faceCount) := accumulateNormals core vertexIndex in
  if Nat.ltb 0 faceCount then
    let normal := Vec3D.multiply normal (1 / INR faceCount) in
    let normal :=
      Vec3D.sub (Mat4D_multiply matrix normal)
                (Mat4D_multiply matrix (Vec3D.new 0 0 0)) in
    let length := Vec3D.norm normal in
    if Rgtb length 0 then Vec3D.multiply normal (1 / length)
    else normal
  else Vec3D.new 0 1 0.

(** ** rayIntersectsAnyMesh (lines 209-247) *)

Definition polygonHit (core : Core) (localStart localDir : Vec3D)
    (localLength : R) (p : nat) : bool :=
  let polySize := Core.polygonSize core p in
  existsb
    (fun t =>
       let v0 := Core.vertex core (Core.vertexIndex core p 0) in
       let v1 := Core.vertex core (Core.vertexIndex core p (t + 1)) in
       let v2 := Core.vertex core (Core.vertexIndex core p (t + 2)) in
       rayTriangleIntersect localStart localDir localLength v0 v1 v2)
    (seq 0 (polySize - 2)).

Definition meshHit (rayStart rayEnd : Vec3D) (mesh : Mesh) : bool :=
  let core := mesh_core mesh in
  let invMatrix := Mat4D_inverse (mesh_matrix mesh) in
  let localStart := Mat4D_multiply invMatrix rayStart in
  let localEnd := Mat4D_multiply invMatrix rayEnd in
  let localDir := Vec3D.sub localEnd localStart in
  let localLength := Vec3D.norm localDir in
  if Reqb localLength 0 then false
  else
    let localDir := Vec3D.multiply localDir (1 / localLength) in
    existsb (polygonHit core localStart localDir localLength)
            (seq 0 (Core.polygonCount core)).

Definition rayIntersectsAnyMesh (rayStart rayEnd : Vec3D)
    (meshes : list Mesh) : bool :=
  let rayDir := Vec3D.sub rayEnd rayStart in
  let rayLength := Vec3D.norm rayDir in
  if Reqb rayLength 0 then false
  else
    let rayDir := Vec3D.multiply rayDir (1 / rayLength) in
    existsb (meshHit rayStart rayEnd) meshes.

(** ** calculateOcclusion (lines 168-207) *)

(** Line 174: the literal [0.9] is the double nearest to nine tenths,
    [8106479329266893 / 2^53], a little above it. *)
Definition upThreshold : R := 8106479329266893 / 9007199254740992.

(** Lines 172-183: the tangent and the bitangent around [normal]. *)
Definition tangentBasis (normal : Vec3D) : Vec3D * Vec3D :=
  let up := Vec3D.new 0 1 0 in
  let up :=
    if Rgtb (Rabs (Vec3D.dot normal up)) upThreshold then Vec3D.new 1 0 0
    else up in
  let tangent := Vec3D.cross normal up in
  let length := Vec3D.norm tangent in
  let tangent :=
    if Rgtb length 0 then Vec3D.multiply tangent (1 / length)
    else tangent in
  let bitangent := Vec3D.cross normal tangent in
  (tangent, bitangent).

(** Lines 186-197: the segment cast for one sample direction. *)
Definition sampleRay (worldPos normal tangent bitangent : Vec3D)
    (maxDistance bias : R) (sampleDir : Vec3D) : Vec3D * Vec3D :=
  let worldDir :=
    Vec3D.new
      (Vec3D.x tangent * Vec3D.x sampleDir + Vec3D.x normal * Vec3D.y sampleDir
       + Vec3D.x bitangent * Vec3D.z sampleDir)
      (Vec3D.y tangent * Vec3D.x sampleDir + Vec3D.y normal * Vec3D.y sampleDir
       + Vec3D.y bitangent * Vec3D.z sampleDir)
      (Vec3D.z tangent * Vec3D.x sampleDir + Vec3D.z normal * Vec3D.y sampleDir
       + Vec3D.z bitangent * Vec3D.z sampleDir) in
  let rayStart := Vec3D.add worldPos (Vec3D.multiply normal bias) in
  let rayEnd := Vec3D.add rayStart (Vec3D.multiply worldDir maxDistance) in
  (rayStart, rayEnd).

Definition calculateOcclusion (worldPos normal : Vec3D)
    (sampleDirections : list Vec3D) (allMeshes : list Mesh)
    (maxDistance bias : R) : R :=
  let totalSamples := length sampleDirections in
  let '(tangent, bitangent) := tangentBasis normal in
  let occluded :=
    fold_left
      (fun occluded sampleDir =>
         let '(rayStart, rayEnd) :=
           sampleRay worldPos normal tangent bitangent maxDistance bias
             sampleDir in
         if rayIntersectsAnyMesh rayStart rayEnd allMeshes
         then S occluded else occluded)
      sampleDirections O in
  1 - INR occluded / INR totalSamples.

(** ** setVertexColor (lines 285-297) *)

Definition setVertexColor (core : Core) (vertexIndex : nat) (color : Vec4D)
    : Core :=
  fold_left
    (fun core p =>
       fold_left
         (fun core c =>
            if Nat.eqb (Core.vertexIndex core p c) vertexIndex
            then Core.setUVCoord core p c
                   (Vec4D.new (Vec4D.x color) 0 0 0)
            else core)
         (seq 0 (Core.polygonSize core p)) core)
    (seq 0 (Core.polygonCount core)) core.

(** ** bakeMeshAO (lines 85-112) *)

(** Lines 103-106: the power step, then the optional inversion. *)
Definition applyIntensity (occlusion intensity : R) (invert : bool) : R :=
  let occlusion := Math_pow occlusion intensity in
  if invert then 1 - occlusion else occlusion.

(** Lines 93-106: the occlusion scalar of vertex [v]. *)
Definition vertexOcclusion (meshMatrix : Mat4D) (core : Core)
    (allMeshes : list Mesh) (sampleDirections : list Vec3D)
    (maxDistance bias intensity : R) (invert : bool) (v : nat) : R :=
  let vertex := Core.vertex core v in
  let worldVertex := Mat4D_multiply meshMatrix vertex in
  let normal := calculateVertexNormal core v meshMatrix in
  let occlusion :=
    calculateOcclusion worldVertex normal sampleDirections allMeshes
      maxDistance bias in
  applyIntensity occlusion intensity invert.

(** The body of the loop over the vertices (lines 93-110). *)
Definition bakeVertex (meshMatrix : Mat4D) (allMeshes : list Mesh)
    (sampleDirections : list Vec3D) (maxDistance bias intensity : R)
    (invert : bool) (core : Core) (v : nat) : Core :=
  let occlusion :=
    vertexOcclusion meshMatrix core allMeshes sampleDirections maxDistance
      bias intensity invert v in
  let aoColor := Vec4D.new occlusion occlusion occlusion 1 in
  setVertexColor core v aoColor.

Definition bakeMeshAO (meshObj : Obj) (core : Core) (allMeshes : list Mesh)
    (sampleRays : nat) (maxDistance bias intensity : R) (invert : bool)
    : M Core :=
  let meshMatrix := Obj.obj2WorldMatrix meshObj in
  let vertexCount := Core.vertexCount core in
  sampleDirections ← generateHemisphereSamples sampleRays;
  mret (fold_left
          (bakeVertex meshMatrix allMeshes sampleDirections maxDistance bias
             intensity invert)
          (seq 0 vertexCount) core).

(** ** collectAllMeshes (lines 47-63) *)

Fixpoint collectAllMeshes (obj : Obj) (meshArray : list Mesh) : list Mesh :=
  let meshArray :=
    if Family_eqb (Obj.family obj) NGONFAMILY then
      match Obj.modCore obj with
      | Some core =>
          if Nat.ltb 0 (Core.vertexCount core)
          then meshArray ++
               [{| mesh_object := obj; mesh_core := core;
                   mesh_matrix := Obj.obj2WorldMatrix obj |}]
          else meshArray
      | None => meshArray
      end
    else meshArray in
  fold_left (fun meshArray c => collectAllMeshes c meshArray)
    (Obj.children obj) meshArray.

(** ** processMeshesRecursively (lines 65-83) *)

(** The loop over the children (lines 78-80), for a given body. *)
Definition forChildren (body : Obj -> nat -> M (Obj * nat))
    : list Obj -> nat -> M (list Obj * nat) :=
  fix loop (cs : list Obj) (count : nat) : M (list Obj * nat) :=
    match cs with
    | [] => mret ([], count)
    | c :: cs' =>
        '(c', count) ← body c count;
        '(cs'', count) ← loop cs' count;
        mret (c' :: cs'', count)
    end.

(** Lines 66-75: the node itself. *)
Definition processSelf (obj : Obj) (allMeshes : list Mesh)
    (sampleRays : nat) (maxDistance bias intensity : R) (invert : bool)
    (count : nat) : M (option Core * nat) :=
  if Family_eqb (Obj.family obj) NGONFAMILY then
    match Obj.core obj with
    | Some core =>
        if Nat.ltb 0 (Core.vertexCount core) then
          _ ← emit (RecordGeometryForUndo (Obj.name obj));
          core' ← bakeMeshAO obj core allMeshes sampleRays maxDistance
                    bias intensity invert;
          _ ← emit (Update (Obj.name obj));
          _ ← print [Lit "Processed mesh: "; Lit (Obj.name obj)];
          mret (Some core', S count)
        else mret (Some core, count)
    | None => mret (None, count)
    end
  else mret (Obj.core obj, count).

Fixpoint processMeshesRecursively (obj : Obj) (allMeshes : list Mesh)
    (sampleRays : nat) (maxDistance bias intensity : R) (invert : bool)
    (count : nat) : M (Obj * nat) :=
  '(core', count) ← processSelf obj allMeshes sampleRays maxDistance bias
                      intensity invert count;
  '(children', count) ←
    forChildren
      (fun c count =>
         processMeshesRecursively c allMeshes sampleRays maxDistance bias
           intensity invert count)
      (Obj.children obj) count;
  mret (Obj.withCoreChildren obj core' children', count).

(** ** bakeAmbientOcclusion (lines 16-45) *)

(** Modelled from the spec: the host document, the object tree and
    the selection.  The selected object is a node of the tree, named
    here by the child indices that lead to it from the root. *)
Record Doc : Type := { root : Obj; selection : option (list nat) }.

Fixpoint subtree (obj : Obj) (path : list nat) : option Obj :=
  match path with
  | [] => Some obj
  | i :: path' =>
      match nth_error (Obj.children obj) i with
      | Some c => subtree c path'
      | None => None
      end
  end.

Fixpoint replaceSubtree (obj : Obj) (path : list nat) (new : Obj) : Obj :=
  match path with
  | [] => new
  | i :: path' =>
      match nth_error (Obj.children obj) i with
      | Some c =>
          Obj.withCoreChildren obj (Obj.core obj)
            (<[i := replaceSubtree c path' new]> (Obj.children obj))
      | None => obj
      end
  end.

Definition selectedObject (doc : Doc) : option Obj :=
  match selection doc with
  | Some path => subtree (root doc) path
  | None => None
  end.

(** The document after the objects under the selection were written. *)
Definition withSelected (doc : Doc) (selectedObj : Obj) : Doc :=
  match selection doc with
  | Some path =>
      {| root := replaceSubtree (root doc) path selectedObj;
         selection := selection doc |}
  | None => doc
  end.

(** The tool: its document and the parameters of [buildUI]. *)
Record Tool : Type := {
  document : Doc;
  sampleRaysParam : nat;
  maxDistanceParam : R;
  biasParam : R;
  intensityParam : R;
  invertParam : bool
}.

Definition bakeAmbientOcclusion (tool : Tool) : M Doc :=
  let doc := document tool in
  match selectedObject doc with
  | None =>
      _ ← emit (MessageBox "Error" "Please select an object first.");
      mret doc
  | Some selectedObj =>
      let sampleRays := sampleRaysParam tool in
      let maxDistance := maxDistanceParam tool in
      let bias := biasParam tool in
      let intensity := intensityParam tool in
      let invert := invertParam tool in
      _ ← print [Lit "Starting Ambient Occlusion baking..."];
      _ ← print [Lit "Sample Rays: "; Int sampleRays];
      _ ← print [Lit "Max Distance: "; Num maxDistance];
      let allMeshes := collectAllMeshes (root doc) [] in
      let processedCount := O in
      '(selectedObj', processedCount) ←
        processMeshesRecursively selectedObj allMeshes sampleRays
          maxDistance bias intensity invert processedCount;
      _ ← emit RedrawAll;
      _ ← print [Lit "Ambient Occlusion baking complete. Processed ";
                 Int processedCount; Lit " meshes."];
      mret (withSelected doc selectedObj')
  end.
End Script.

(** ** The quantities of the intersection test, in the spec's words

    [e1 = v1 - v0], [e2 = v2 - v0], [h = dir x e2], [a = e1 . h],
    [f = 1 / a], [s = start - v0], [u = f (s . h)], [q = s x e1],
    [v = f (dir . q)], [t = f (e2 . q)]. *)

Definition mt_a (rayDir v0 v1 v2 : Vec3D) : R :=
  Vec3D.dot (Vec3D.sub v1 v0) (Vec3D.cross rayDir (Vec3D.sub v2 v0)).

Definition mt_u (rayStart rayDir v0 v1 v2 : Vec3D) : R :=
  1 / mt_a rayDir v0 v1 v2
  * Vec3D.dot (Vec3D.sub rayStart v0) (Vec3D.cross rayDir (Vec3D.sub v2 v0)).

Definition mt_v (rayStart rayDir v0 v1 v2 : Vec3D) : R :=
  1 / mt_a rayDir v0 v1 v2
  * Vec3D.dot rayDir (Vec3D.cross (Vec3D.sub rayStart v0) (Vec3D.sub v1 v0)).

Definition mt_t (rayStart rayDir v0 v1 v2 : Vec3D) : R :=
  1 / mt_a rayDir v0 v1 v2
  * Vec3D.dot (Vec3D.sub v2 v0)
      (Vec3D.cross (Vec3D.sub rayStart v0) (Vec3D.sub v1 v0)).

(** ** The hemisphere direction, in the spec's words

    Azimuth [theta = 2 pi u], elevation [phi = acos (sqrt v)], and
    [x = sin phi cos theta], [y = cos phi], [z = sin phi sin theta]. *)

Definition hemisphereDirection (u v : R) : Vec3D :=
  Vec3D.new (sin (acos (sqrt v)) * cos (2 * PI * u))
            (cos (acos (sqrt v)))
            (sin (acos (sqrt v)) * sin (2 * PI * u)).

(** The world after [n] more calls of [Math.random]. *)
Definition advance (n : nat) (w : World) : World :=
  {| rng := {| draws := draws (rng w); position := n + position (rng w) |};
     trace := trace w |}.

(** The [i]-th pair of draws made from the world [w] on. *)
Definition drawnDirection (w : World) (i : nat) : Vec3D :=
  hemisphereDirection (draws (rng w) (position (rng w) + 2 * i))
                      (draws (rng w) (position (rng w) + 2 * i + 1)).

(** ** The normal estimate, in the spec's words

    The polygons incident to a vertex, the sum of their face normals,
    and the average of that sum taken to world space as a vector. *)

Definition incidentPolygons (core : Core) (vertexIndex : nat) : list nat :=
  List.filter (fun p => usesVertex core p vertexIndex)
         (seq 0 (Core.polygonCount core)).

Definition accumulatedNormal (core : Core) (vertexIndex : nat) : Vec3D :=
  fold_left Vec3D.add
    (map (Core.normal core) (incidentPolygons core vertexIndex))
    (Vec3D.new 0 0 0).

Definition averagedWorldNormal {host : Host} (core : Core)
    (vertexIndex : nat) (matrix : Mat4D) : Vec3D :=
  let averaged :=
    Vec3D.multiply (accumulatedNormal core vertexIndex)
      (1 / INR (length (incidentPolygons core vertexIndex))) in
  Vec3D.sub (Mat4D_multiply matrix averaged)
            (Mat4D_multiply matrix (Vec3D.new 0 0 0)).

(** ** The occluded count, in the spec's words

    The number of sample directions whose ray meets some mesh. *)

Definition occludedCount {host : Host} (worldPos normal : Vec3D)
    (sampleDirections : list Vec3D) (allMeshes : list Mesh)
    (maxDistance bias : R) : nat :=
  length
    (List.filter
       (fun sampleDir =>
          rayIntersectsAnyMesh
            (fst (sampleRay worldPos normal (fst (tangentBasis normal))
                    (snd (tangentBasis normal)) maxDistance bias sampleDir))
            (snd (sampleRay worldPos normal (fst (tangentBasis normal))
                    (snd (tangentBasis normal)) maxDistance bias sampleDir))
            allMeshes)
       sampleDirections).

(** ** The attribute store after the writes of one vertex

    The writes of [setVertexColor] for the vertex [v], on the store
    alone: over the corners [cs] of one polygon, and over the polygons
    [ps]. *)

Definition writeCorners (core : Core) (v : nat) (value : Vec4D) (p : nat)
    (cs : list nat) (uv : gmap (nat * nat) Vec4D) : gmap (nat * nat) Vec4D :=
  fold_left
    (fun uv c =>
       if Nat.eqb (Core.vertexIndex core p c) v then <[(p, c) := value]> uv
       else uv)
    cs uv.

Definition writePolygons (core : Core) (v : nat) (value : Vec4D)
    (ps : list nat) (uv : gmap (nat * nat) Vec4D) : gmap (nat * nat) Vec4D :=
  fold_left
    (fun uv p => writeCorners core v value p (seq 0 (Core.polygonSize core p)) uv)
    ps uv.

(** ** Degenerate geometry, in the spec's words *)


(** The length of the segment after it is taken to the local space of
    an occluder. *)
Definition localLength {host : Host} (rayStart rayEnd : Vec3D) (mesh : Mesh)
    : R :=
  Vec3D.norm
    (Vec3D.sub
       (Mat4D_multiply (Mat4D_inverse (mesh_matrix mesh)) rayEnd)
       (Mat4D_multiply (Mat4D_inverse (mesh_matrix mesh)) rayStart)).

(** ** The attribute store after the loop over the vertices *)

Definition writeVertices {host : Host} (meshMatrix : Mat4D) (core : Core)
    (allMeshes : list Mesh) (sampleDirections : list Vec3D)
    (maxDistance bias intensity : R) (invert : bool) (vs : list nat)
    (uv : gmap (nat * nat) Vec4D) : gmap (nat * nat) Vec4D :=
  fold_left
    (fun uv v =>
       writePolygons core v
         (Vec4D.new
            (vertexOcclusion meshMatrix core allMeshes sampleDirections
               maxDistance bias intensity invert v) 0 0 0)
         (seq 0 (Core.polygonCount core)) uv)
    vs uv.

(** ** The meshes a bake processes

    The number of nodes under [obj] that [processMeshesRecursively]
    bakes: polygon objects whose core has at least one vertex. *)
Definition bakedSelf {host : Host} (obj : Obj) : nat :=
  if Family_eqb (Obj.family obj) NGONFAMILY then
    match Obj.core obj with
    | Some core => if Nat.ltb 0 (Core.vertexCount core) then 1 else 0
    | None => 0
    end
  else 0.

Fixpoint bakedMeshes {host : Host} (obj : Obj) : nat :=
  (bakedSelf obj + list_sum (map bakedMeshes (Obj.children obj)))%nat.

(** The number of nodes the walk from [obj] bakes before it comes to
    the node at [path]: the nodes on the way down to it, and all the
    nodes under the earlier children of each of them. *)
Fixpoint bakedBefore {host : Host} (obj : Obj) (path : list nat) : nat :=
  match path with
  | [] => 0%nat
  | i :: path' =>
      (bakedSelf obj
       + list_sum (map bakedMeshes (firstn i (Obj.children obj)))
       + match nth_error (Obj.children obj) i with
         | Some c => bakedBefore c path'
         | None => 0
         end)%nat
  end.

(** ** Points of a ray and of a triangle

    The point of the ray at parameter [t], and the point of the
    triangle with barycentric coordinates [u] along the first edge and
    [v] along the second. *)

Definition pointOnRay (rayStart rayDir : Vec3D) (t : R) : Vec3D :=
  Vec3D.add rayStart (Vec3D.multiply rayDir t).

Definition pointInTriangle (v0 v1 v2 : Vec3D) (u v : R) : Vec3D :=
  Vec3D.add v0
    (Vec3D.add (Vec3D.multiply (Vec3D.sub v1 v0) u)
               (Vec3D.multiply (Vec3D.sub v2 v0) v)).

(** ** The segment in the local space of an occluder

    The start of the segment, its direction scaled to unit length, and
    the triangle [(0, t+1, t+2)] of the fan of a polygon. *)

Definition localStart {host : Host} (rayStart : Vec3D) (mesh : Mesh) : Vec3D :=
  Mat4D_multiply (Mat4D_inverse (mesh_matrix mesh)) rayStart.

Definition localDirection {host : Host} (rayStart rayEnd : Vec3D)
    (mesh : Mesh) : Vec3D :=
  Vec3D.multiply
    (Vec3D.sub (Mat4D_multiply (Mat4D_inverse (mesh_matrix mesh)) rayEnd)
               (Mat4D_multiply (Mat4D_inverse (mesh_matrix mesh)) rayStart))
    (1 / localLength rayStart rayEnd mesh).

Definition fanVertex (core : Core) (p k : nat) : Vec3D :=
  Core.vertex core (Core.vertexIndex core p k).

(** ** The host calls of a walk, the geometry of a tree, the occluder
    of a node *)

(** The host calls [processMeshesRecursively] makes for the node
    itself, and for the whole tree under it, in the order of the
    walk. *)
Definition bakeTraceSelf {host : Host} (obj : Obj) : list Event :=
  if Family_eqb (Obj.family obj) NGONFAMILY then
    match Obj.core obj with
    | Some core =>
        if Nat.ltb 0 (Core.vertexCount core)
        then [RecordGeometryForUndo (Obj.name obj); Update (Obj.name obj);
              Print [Lit "Processed mesh: "; Lit (Obj.name obj)]]
        else []
    | None => []
    end
  else [].

Fixpoint bakeTrace {host : Host} (obj : Obj) : list Event :=
  bakeTraceSelf obj ++ concat (map bakeTrace (Obj.children obj)).

(** The tree with the attribute store of every core emptied: what is
    left is the geometry and the structure. *)
Fixpoint eraseAttributes {host : Host} (obj : Obj) : Obj :=
  Obj.make (Obj.family obj)
    (option_map (fun core => Core.withUV core ∅) (Obj.core obj))
    (Obj.modCore obj) (Obj.obj2WorldMatrix obj) (Obj.name obj)
    (map eraseAttributes (Obj.children obj)).

(** The entry [collectAllMeshes] pushes for the node itself, if any. *)
Definition occluderOf {host : Host} (obj : Obj) : list Mesh :=
  if Family_eqb (Obj.family obj) NGONFAMILY then
    match Obj.modCore obj with
    | Some core =>
        if Nat.ltb 0 (Core.vertexCount core)
        then [{| mesh_object := obj; mesh_core := core;
                 mesh_matrix := Obj.obj2WorldMatrix obj |}]
        else []
    | None => []
    end
  else [].

(** An entry of the occluder list is well formed when it was made from
    a polygon object whose modified core has vertices: it carries that
    object, that core and the matrix of the object. *)
Definition occluderEntry {host : Host} (mesh : Mesh) : Prop :=
  Obj.family (mesh_object mesh) = NGONFAMILY
  /\ Obj.modCore (mesh_object mesh) = Some (mesh_core mesh)
  /\ (0 < Core.vertexCount (mesh_core mesh))%nat
  /\ mesh_matrix mesh = Obj.obj2WorldMatrix (mesh_object mesh).

(** ** The intersection test in double precision

    Lines 249-283 once more, on IEEE 754 binary64 numbers with the
    comparisons of that standard: what the script computes when the
    host's vectors hold doubles and their operations are the plain
    formulas.  The answers of this version and of the version over the
    reals can differ where rounding decides a comparison. *)
Module Double.
Import PrimFloat.
#[local] Open Scope float_scope.

(** Modelled from the spec: the host's vectors and their difference,
    dot product and cross product, as the plain formulas, each
    operation rounded to the nearest double. *)
Record Vec3D : Type := new { x : float; y : float; z : float }.

Definition sub (a b : Vec3D) : Vec3D :=
  new (x a - x b) (y a - y b) (z a - z b).
Definition dot (a b : Vec3D) : float := x a * x b + y a * y b + z a * z b.
Definition cross (a b : Vec3D) : Vec3D :=
  new (y a * z b - z a * y b) (z a * x b - x a * z b) (x a * y b - y a * x b).

(** The literal [0.000001] of line 250. *)
Definition epsilon : float := 0x1.0c6f7a0b5ed8dp-20.


Definition rayTriangleIntersect (rayStart rayDir : Vec3D) (rayLength : float)
    (v0 v1 v2 : Vec3D) : bool :=
  let edge1 := sub v1 v0 in
  let edge2 := sub v2 v0 in
  let h := cross rayDir edge2 in
  let a := dot edge1 h in
  if (- epsilon <? a) && (a <? epsilon) then false
  else
    let f := 1 / a in
    let s := sub rayStart v0 in
    let u := f * dot s h in
    if (u <? 0) || (1 <? u) then false
    else
      let q := cross s edge1 in
      let v := f * dot rayDir q in
      if (v <? 0) || (1 <? u + v) then false
      else
        let t := f * dot edge2 q in
        if (epsilon <? t) && (t <? rayLength) then true
        else false.


Definition awayLength : float := 2.

(** A right triangle with legs of 1/2000, and a point one unit above
    its interior; the coordinates are the doubles nearest to 1/2000 and
    1/8000. *)
Definition tiny0 : Vec3D := new 0 0 0.
Definition tiny1 : Vec3D := new 0 0 0x1.0624dd2f1a9fcp-11.
Definition tiny2 : Vec3D := new 0x1.0624dd2f1a9fcp-11 0 0.
Definition aboveTiny : Vec3D :=
  new 0x1.0624dd2f1a9fcp-13 1 0x1.0624dd2f1a9fcp-13.
Definition down : Vec3D := new 0 (-1) 0.
End Double.

(** ** A concrete host and concrete scenes

    The translations are a family of host matrices: the matrix that
    moves every point by [m], its inverse moves it back. *)

Definition translations : Host :=
  {| Mat4D := Vec3D;
     Mat4D_multiply := fun m v => Vec3D.add v m;
     Mat4D_inverse := fun m => Vec3D.multiply m (-1) |}.

Definition identityMatrix : @Mat4D translations := Vec3D.new 0 0 0.

(** A triangle and the same triangle with the opposite winding: two
    polygons on the same three vertices, facing opposite ways. *)
Definition foldedCore : Core :=
  Core.make 3
    (fun i => match i with
              | O => Vec3D.new 0 0 0
              | S O => Vec3D.new 1 0 0
              | _ => Vec3D.new 0 0 1
              end)
    2
    (fun _ => 3%nat)
    (fun p c => match p with O => c | _ => (2 - c)%nat end)
    (fun p => match p with
              | O => Vec3D.new 0 (-1) 0
              | _ => Vec3D.new 0 1 0
              end)
    ∅.

(** One triangle in the plane [y = 0], facing up. *)
Definition triangleCore : Core :=
  Core.make 3
    (fun i => match i with
              | O => Vec3D.new 0 0 0
              | S O => Vec3D.new 0 0 1
              | _ => Vec3D.new 1 0 0
              end)
    1
    (fun _ => 3%nat)
    (fun _ c => c)
    (fun _ => Vec3D.new 0 1 0)
    ∅.

(** A group with two meshes under it, the tool set to its defaults
    with the group selected, and the same tool with nothing selected. *)
Definition meshNode (name : string) (core : Core) : @Obj.t translations :=
  Obj.make NGONFAMILY (Some core) (Some core) identityMatrix name [].

Definition twoMeshes : @Obj.t translations :=
  Obj.make OTHERFAMILY None None identityMatrix "group"
    [meshNode "first" triangleCore; meshNode "second" foldedCore].

Definition twoMeshTool : @Tool translations :=
  {| document := {| root := twoMeshes; selection := Some [] |};
     sampleRaysParam := 8;
     maxDistanceParam := 1;
     biasParam := 1 / 100;
     intensityParam := 1;
     invertParam := false |}.

Definition idleTool : @Tool translations :=
  {| document := {| root := twoMeshes; selection := None |};
     sampleRaysParam := 8;
     maxDistanceParam := 1;
     biasParam := 1 / 100;
     intensityParam := 1;
     invertParam := false |}.

(** A random source: sixteen draws of 0, then draws of 1/2. *)
Definition startWorld : World :=
  {| rng := {| draws := fun k => if Nat.ltb k 16 then 0 else 1 / 2;
               position := 0 |};
     trace := [] |}.

(** A vertical ray from above the triangle of [triangleCore], a
    sample set of one direction, and three vertices on a line. *)
Definition rayAbove : Vec3D := Vec3D.new (1 / 4) 1 (1 / 4).
Definition downwards : Vec3D := Vec3D.new 0 (-1) 0.
Definition oneSample : list Vec3D := [Vec3D.new 0 1 0].
Definition onLine1 : Vec3D := Vec3D.new 1 0 0.

Definition firstOccluder : @Mesh translations :=
  {| mesh_object := meshNode "first" triangleCore;
     mesh_core := triangleCore;
     mesh_matrix := identityMatrix |}.

(** Further scenes: the second occluder of the group, a core made of
    one edge, a core of two coplanar triangles around vertex 0, and a
    tool whose selection holds no mesh. *)
Definition secondOccluder : @Mesh translations :=
  {| mesh_object := meshNode "second" foldedCore;
     mesh_core := foldedCore;
     mesh_matrix := identityMatrix |}.

Definition edgeCore : Core :=
  Core.make 2
    (fun i => match i with
              | O => Vec3D.new 0 0 0
              | _ => Vec3D.new 1 0 0
              end)
    1
    (fun _ => 2%nat)
    (fun _ c => c)
    (fun _ => Vec3D.new 0 1 0)
    ∅.

Definition edgeOccluder : @Mesh translations :=
  {| mesh_object := meshNode "edge" edgeCore;
     mesh_core := edgeCore;
     mesh_matrix := identityMatrix |}.

Definition coplanarCore : Core :=
  Core.make 4
    (fun i => match i with
              | O => Vec3D.new 0 0 0
              | S O => Vec3D.new 0 0 1
              | S (S O) => Vec3D.new 1 0 1
              | _ => Vec3D.new 1 0 0
              end)
    2
    (fun _ => 3%nat)
    (fun p c => match p, c with
                | O, _ => c
                | _, O => O
                | _, _ => S c
                end)
    (fun _ => Vec3D.new 0 1 0)
    ∅.

Definition emptyGroup : @Obj.t translations :=
  Obj.make OTHERFAMILY None None identityMatrix "empty" [].

Definition emptyTool : @Tool translations :=
  {| document := {| root := emptyGroup; selection := Some [] |};
     sampleRaysParam := 8;
     maxDistanceParam := 1;
     biasParam := 1 / 100;
     intensityParam := 1;
     invertParam := false |}.


(** A triangle with legs of one two-thousandth, in the plane [y = 0],
    and a vertical ray through its interior. *)
Definition small0 : Vec3D := Vec3D.new 0 0 0.
Definition small1 : Vec3D := Vec3D.new 0 0 (1 / 2000).
Definition small2 : Vec3D := Vec3D.new (1 / 2000) 0 0.
Definition aboveSmall : Vec3D := Vec3D.new (1 / 8000) 1 (1 / 8000).







(** A roof over the triangle of [triangleCore]: one triangle in the
    plane [y = 1], facing down; and a sample set of two directions,
    the pole of the hemisphere and a direction on its rim. *)
Definition roofCore : Core :=
  Core.make 3
    (fun i => match i with
              | O => Vec3D.new (-1) 1 (-1)
              | S O => Vec3D.new (-1) 1 3
              | _ => Vec3D.new 3 1 (-1)
              end)
    1
    (fun _ => 3%nat)
    (fun _ c => c)
    (fun _ => Vec3D.new 0 (-1) 0)
    ∅.

Definition roofOccluder : @Mesh translations :=
  {| mesh_object := meshNode "roof" roofCore;
     mesh_core := roofCore;
     mesh_matrix := identityMatrix |}.

Definition twoSamples : list Vec3D := [Vec3D.new 0 1 0; Vec3D.new 1 0 0].

(** ** Facts about comparisons *)

Lemma Rltb_true (a b : R) : Rltb a b = true <-> a < b.
Proof. unfold Rltb. destruct (Rlt_dec a b); split; intros; try easy. Qed.

Lemma Rltb_false (a b : R) : Rltb a b = false <-> b <= a.
Proof.
  unfold Rltb. destruct (Rlt_dec a b); split; intros; try easy; lra.
Qed.

Lemma Rgtb_true (a b : R) : Rgtb a b = true <-> b < a.
Proof. apply Rltb_true. Qed.

Lemma Rgtb_false (a b : R) : Rgtb a b = false <-> a <= b.
Proof. apply Rltb_false. Qed.

Lemma Reqb_true (a b : R) : Reqb a b = true <-> a = b.
Proof. unfold Reqb. destruct (Req_dec_T a b); split; intros; easy. Qed.

Lemma Reqb_false (a b : R) : Reqb a b = false <-> a <> b.
Proof. unfold Reqb. destruct (Req_dec_T a b); split; intros; easy. Qed.

(** ** The intersection test *)

(** C1, as the script has it: [rayTriangleIntersect] answers true
    exactly when the
    determinant [a] is at least [epsilon] in absolute value, the
    barycentric coordinate [u] lies in [0, 1], [v] is not negative with
    [u + v <= 1], and the hit parameter [t] lies strictly between
    [epsilon] and the length of the ray. *)
Theorem rayTriangleIntersect_true_iff
    (rayStart rayDir : Vec3D) (rayLength : R) (v0 v1 v2 : Vec3D) :
  rayTriangleIntersect rayStart rayDir rayLength v0 v1 v2 = true <->
  epsilon <= Rabs (mt_a rayDir v0 v1 v2)
  /\ 0 <= mt_u rayStart rayDir v0 v1 v2 <= 1
  /\ 0 <= mt_v rayStart rayDir v0 v1 v2
  /\ mt_u rayStart rayDir v0 v1 v2 + mt_v rayStart rayDir v0 v1 v2 <= 1
  /\ epsilon < mt_t rayStart rayDir v0 v1 v2 < rayLength.
Proof.
  unfold rayTriangleIntersect, mt_u, mt_v, mt_t, mt_a.
  set (a := Vec3D.dot _ _).
  set (u := _ * Vec3D.dot (Vec3D.sub rayStart v0) _).
  set (v := _ * Vec3D.dot rayDir _).
  set (t := _ * Vec3D.dot (Vec3D.sub v2 v0) _).
  assert (Habs : epsilon <= Rabs a <-> ~ (- epsilon < a < epsilon)).
  { unfold Rabs. destruct (Rcase_abs a); lra. }
  destruct (Rgtb a (- epsilon)) eqn:Ea1, (Rltb a epsilon) eqn:Ea2; simpl;
    try (apply Rgtb_true in Ea1); try (apply Rgtb_false in Ea1);
    try (apply Rltb_true in Ea2); try (apply Rltb_false in Ea2);
    [ split; [discriminate | intros [H _]; apply Habs in H; lra] | | | ].
  all: assert (Ha : epsilon <= Rabs a) by (apply Habs; lra).
  all: destruct (Rltb u 0) eqn:Eu1, (Rgtb u 1) eqn:Eu2; simpl;
    try (apply Rltb_true in Eu1); try (apply Rltb_false in Eu1);
    try (apply Rgtb_true in Eu2); try (apply Rgtb_false in Eu2);
    try (split; [discriminate | intros (_ & H & _); lra]).
  all: destruct (Rltb v 0) eqn:Ev1, (Rgtb (u + v) 1) eqn:Ev2; simpl;
    try (apply Rltb_true in Ev1); try (apply Rltb_false in Ev1);
    try (apply Rgtb_true in Ev2); try (apply Rgtb_false in Ev2);
    try (split; [discriminate | intros (_ & _ & H1 & H2 & _); lra]).
  all: destruct (Rgtb t epsilon) eqn:Et1, (Rltb t rayLength) eqn:Et2; simpl;
    try (apply Rgtb_true in Et1); try (apply Rgtb_false in Et1);
    try (apply Rltb_true in Et2); try (apply Rltb_false in Et2);
    try (split; [discriminate | intros (_ & _ & _ & _ & H); lra]).
  all: split; [intros _ | reflexivity]; repeat split; lra.
Qed.

(** ** The hemisphere sampler *)

Lemma hemisphereLoop_run (n : nat) (acc : list Vec3D) (w : World) :
  hemisphereLoop n acc w
  = (acc ++ map (drawnDirection w) (seq 0 n), advance (2 * n) w).
Proof.
  revert acc w. induction n as [|n IH]; intros acc w.
  - simpl. rewrite app_nil_r. destruct w as [[d p] tr]. reflexivity.
  - cbn [hemisphereLoop]. unfold mbind, M_bind, Math_random. cbn [rng draws position trace].
    rewrite IH. f_equal.
    + rewrite <- app_assoc. f_equal. cbn [seq map app]. f_equal.
      * unfold drawnDirection, hemisphereDirection.
        replace (position (rng w) + 2 * 0)%nat with (position (rng w)) by lia.
        replace (position (rng w) + 1)%nat with (S (position (rng w))) by lia.
        reflexivity.
      * rewrite <- seq_shift, map_map. apply map_ext. intros i.
        unfold drawnDirection. cbn [rng draws position].
        replace (S (S (position (rng w))) + 2 * i)%nat
          with (position (rng w) + 2 * S i)%nat by lia.
        reflexivity.
    + unfold advance. cbn [rng draws position trace]. do 2 f_equal. lia.
Qed.

Lemma hemisphereDirection_unit (u v : R) :
  Vec3D.norm (hemisphereDirection u v) = 1.
Proof.
  unfold Vec3D.norm, Vec3D.dot, hemisphereDirection. cbn [Vec3D.x Vec3D.y Vec3D.z].
  pose proof (sin2_cos2 (acos (sqrt v))) as Hp.
  pose proof (sin2_cos2 (2 * PI * u)) as Ht.
  unfold Rsqr in Hp, Ht.
  replace (_ + _ + _) with 1; [apply sqrt_1|].
  set (sp := sin (acos (sqrt v))) in *. set (cp := cos (acos (sqrt v))) in *.
  set (st := sin (2 * PI * u)) in *. set (ct := cos (2 * PI * u)) in *.
  replace (sp * ct * (sp * ct) + cp * cp + sp * st * (sp * st))
    with (sp * sp * (st * st + ct * ct) + cp * cp) by ring.
  rewrite Ht. lra.
Qed.

Lemma hemisphereDirection_up (u v : R) :
  0 <= v < 1 -> 0 <= Vec3D.y (hemisphereDirection u v).
Proof.
  intros [Hv0 Hv1]. unfold hemisphereDirection. cbn [Vec3D.y].
  assert (0 <= sqrt v) by apply sqrt_pos.
  assert (sqrt v < 1).
  { rewrite <- sqrt_1. apply sqrt_lt_1; lra. }
  rewrite cos_acos; lra.
Qed.

Lemma hemisphereDirection_y (u v : R) :
  0 <= v < 1 -> Vec3D.y (hemisphereDirection u v) = sqrt v.
Proof.
  intros [Hv0 Hv1]. unfold hemisphereDirection. cbn [Vec3D.y].
  assert (0 <= sqrt v) by apply sqrt_pos.
  assert (sqrt v < 1) by (rewrite <- sqrt_1; apply sqrt_lt_1; lra).
  apply cos_acos. lra.
Qed.

(** C2: [generateHemisphereSamples] returns exactly [count] directions;
    the [i]-th one is built from the [i]-th pair of draws as
    [(sin phi cos theta, cos phi, sin phi sin theta)], and with the
    draws in [0, 1) it has unit length and a [y] that is not negative. *)
Theorem generateHemisphereSamples_directions (count : nat) (w : World) :
  (forall k, 0 <= draws (rng w) k < 1) ->
  length (fst (generateHemisphereSamples count w)) = count
  /\ forall i, (i < count)%nat ->
       exists d,
         nth_error (fst (generateHemisphereSamples count w)) i = Some d
         /\ d = hemisphereDirection
                  (draws (rng w) (position (rng w) + 2 * i))
                  (draws (rng w) (position (rng w) + 2 * i + 1))
         /\ Vec3D.norm d = 1
         /\ 0 <= Vec3D.y d.
Proof.
  intros Hdraws. unfold generateHemisphereSamples.
  rewrite hemisphereLoop_run. cbn [fst app]. split.
  - rewrite length_map, length_seq. reflexivity.
  - intros i Hi. exists (drawnDirection w i). split; [|split; [|split]].
    + rewrite nth_error_map, nth_error_seq.
      destruct (Nat.ltb_spec i count); [reflexivity | lia].
    + reflexivity.
    + apply hemisphereDirection_unit.
    + apply hemisphereDirection_up, Hdraws.
Qed.

(** ** The normal estimator *)

Lemma Vec3D_eq (a b : Vec3D) :
  Vec3D.x a = Vec3D.x b -> Vec3D.y a = Vec3D.y b -> Vec3D.z a = Vec3D.z b ->
  a = b.
Proof. destruct a, b. simpl. intros -> -> ->. reflexivity. Qed.

Lemma norm_zero_vector (a : Vec3D) :
  Vec3D.norm a = 0 -> a = Vec3D.new 0 0 0.
Proof.
  unfold Vec3D.norm, Vec3D.dot. intros H.
  apply sqrt_eq_0 in H; [|nra].
  apply Vec3D_eq; cbn [Vec3D.x Vec3D.y Vec3D.z]; nra.
Qed.

Lemma norm_of_zero : Vec3D.norm (Vec3D.new 0 0 0) = 0.
Proof.
  unfold Vec3D.norm, Vec3D.dot. cbn [Vec3D.x Vec3D.y Vec3D.z].
  replace (0 * 0 + 0 * 0 + 0 * 0) with 0 by ring. apply sqrt_0.
Qed.


Section NormalEstimator.
Context {host : Host}.

Lemma accumulate_from (core : Core) (v : nat) (ps : list nat)
    (acc : Vec3D) (k : nat) :
  fold_left
    (fun '(normal, faceCount) p =>
       if usesVertex core p v
       then (Vec3D.add normal (Core.normal core p), S faceCount)
       else (normal, faceCount))
    ps (acc, k)
  = (fold_left Vec3D.add
       (map (Core.normal core) (List.filter (fun p => usesVertex core p v) ps))
       acc,
     (k + length (List.filter (fun p => usesVertex core p v) ps))%nat).
Proof.
  revert acc k. induction ps as [|p ps IH]; intros acc k.
  - simpl. rewrite Nat.add_0_r. reflexivity.
  - cbn [fold_left List.filter]. destruct (usesVertex core p v).
    + rewrite IH. cbn [map fold_left length].
      rewrite Nat.add_succ_comm. reflexivity.
    + apply IH.
Qed.

Lemma accumulateNormals_incident (core : Core) (v : nat) :
  accumulateNormals core v
  = (accumulatedNormal core v, length (incidentPolygons core v)).
Proof. unfold accumulateNormals. rewrite accumulate_from. reflexivity. Qed.

Lemma calculateVertexNormal_isolated (core : Core) (v : nat)
    (matrix : Mat4D) :
  incidentPolygons core v = [] ->
  calculateVertexNormal core v matrix = Vec3D.new 0 1 0.
Proof.
  intros E. unfold calculateVertexNormal.
  rewrite accumulateNormals_incident, E. reflexivity.
Qed.

Lemma calculateVertexNormal_incident (core : Core) (v : nat)
    (matrix : Mat4D) :
  incidentPolygons core v <> [] ->
  calculateVertexNormal core v matrix
  = if Rgtb (Vec3D.norm (averagedWorldNormal core v matrix)) 0
    then Vec3D.multiply (averagedWorldNormal core v matrix)
           (1 / Vec3D.norm (averagedWorldNormal core v matrix))
    else averagedWorldNormal core v matrix.
Proof.
  intros Hne. unfold calculateVertexNormal.
  rewrite accumulateNormals_incident.
  destruct (incidentPolygons core v) eqn:E; [contradiction|].
  unfold averagedWorldNormal. rewrite E. reflexivity.
Qed.

Lemma calculateVertexNormal_zero_length (core : Core) (v : nat)
    (matrix : Mat4D) :
  incidentPolygons core v <> [] ->
  Vec3D.norm (averagedWorldNormal core v matrix) = 0 ->
  calculateVertexNormal core v matrix = Vec3D.new 0 0 0.
Proof.
  intros Hne Hz. rewrite calculateVertexNormal_incident by assumption.
  destruct (Rgtb _ 0) eqn:G.
  - apply Rgtb_true in G. lra.
  - apply norm_zero_vector, Hz.
Qed.

Lemma calculateVertexNormal_normalized (core : Core) (v : nat)
    (matrix : Mat4D) :
  incidentPolygons core v <> [] ->
  Vec3D.norm (averagedWorldNormal core v matrix) <> 0 ->
  calculateVertexNormal core v matrix
  = Vec3D.multiply (averagedWorldNormal core v matrix)
      (1 / Vec3D.norm (averagedWorldNormal core v matrix)).
Proof.
  intros Hne Hnz. rewrite calculateVertexNormal_incident by assumption.
  destruct (Rgtb _ 0) eqn:G; [reflexivity|].
  apply Rgtb_false in G.
  pose proof (sqrt_pos (Vec3D.dot (averagedWorldNormal core v matrix)
                          (averagedWorldNormal core v matrix))) as Hp.
  unfold Vec3D.norm in *. lra.
Qed.

(** C3, as the script has it: [calculateVertexNormal] returns the
    world-up vector (0,1,0) when no polygon references the vertex;
    when polygons do and the averaged, world-transformed normal has
    zero length it returns that vector as it is, the zero vector;
    otherwise it returns the averaged normal scaled to unit length. *)
Theorem calculateVertexNormal_cases (core : Core) (v : nat)
    (matrix : Mat4D) :
  (incidentPolygons core v = [] ->
     calculateVertexNormal core v matrix = Vec3D.new 0 1 0)
  /\ (incidentPolygons core v <> [] ->
      Vec3D.norm (averagedWorldNormal core v matrix) = 0 ->
      calculateVertexNormal core v matrix = Vec3D.new 0 0 0)
  /\ (incidentPolygons core v <> [] ->
      Vec3D.norm (averagedWorldNormal core v matrix) <> 0 ->
      calculateVertexNormal core v matrix
      = Vec3D.multiply (averagedWorldNormal core v matrix)
          (1 / Vec3D.norm (averagedWorldNormal core v matrix))).
Proof.
  split; [|split].
  - apply calculateVertexNormal_isolated.
  - apply calculateVertexNormal_zero_length.
  - apply calculateVertexNormal_normalized.
Qed.
End NormalEstimator.

(** The normals of the concrete scenes. *)

Lemma foldedCore_incident : incidentPolygons foldedCore 0 = [0%nat; 1%nat].
Proof. reflexivity. Qed.

Lemma foldedCore_averaged :
  averagedWorldNormal (host := translations) foldedCore 0 identityMatrix
  = Vec3D.new 0 0 0.
Proof.
  unfold averagedWorldNormal. rewrite foldedCore_incident.
  unfold accumulatedNormal. rewrite foldedCore_incident.
  apply Vec3D_eq; simpl; field.
Qed.

Lemma foldedCore_averaged_norm :
  Vec3D.norm
    (averagedWorldNormal (host := translations) foldedCore 0 identityMatrix)
  = 0.
Proof.
  rewrite foldedCore_averaged. unfold Vec3D.norm, Vec3D.dot. simpl.
  replace (0 * 0 + 0 * 0 + 0 * 0) with 0 by ring. apply sqrt_0.
Qed.

Lemma triangleCore_incident : incidentPolygons triangleCore 0 = [0%nat].
Proof. reflexivity. Qed.

Lemma triangleCore_averaged :
  averagedWorldNormal (host := translations) triangleCore 0 identityMatrix
  = Vec3D.new 0 1 0.
Proof.
  unfold averagedWorldNormal. rewrite triangleCore_incident.
  unfold accumulatedNormal. rewrite triangleCore_incident.
  apply Vec3D_eq; simpl; field.
Qed.

Lemma triangleCore_averaged_norm :
  Vec3D.norm
    (averagedWorldNormal (host := translations) triangleCore 0 identityMatrix)
  = 1.
Proof.
  rewrite triangleCore_averaged. unfold Vec3D.norm, Vec3D.dot. simpl.
  replace (0 * 0 + 1 * 1 + 0 * 0) with 1 by ring. apply sqrt_1.
Qed.

(** C3, the sentence of the specification fails: on the folded triangle the two
    face normals at vertex 0 cancel, the averaged normal has zero
    length, and the script returns the zero vector, not (0,1,0). *)
Lemma calculateVertexNormal_zero_length_not_up :
  incidentPolygons foldedCore 0 <> []
  /\ Vec3D.norm
       (averagedWorldNormal (host := translations) foldedCore 0 identityMatrix)
     = 0
  /\ calculateVertexNormal (host := translations) foldedCore 0 identityMatrix
     <> Vec3D.new 0 1 0.
Proof.
  split; [|split].
  - rewrite foldedCore_incident. discriminate.
  - apply foldedCore_averaged_norm.
  - rewrite calculateVertexNormal_zero_length.
    + intros H. apply (f_equal Vec3D.y) in H. simpl in H. lra.
    + rewrite foldedCore_incident. discriminate.
    + apply foldedCore_averaged_norm.
Qed.

Lemma calculateVertexNormal_cases_witness :
  (incidentPolygons triangleCore 7 = [] /\
   calculateVertexNormal (host := translations) triangleCore 7 identityMatrix
   = Vec3D.new 0 1 0)
  /\ (incidentPolygons foldedCore 0 <> [] /\
      calculateVertexNormal (host := translations) foldedCore 0 identityMatrix
      = Vec3D.new 0 0 0)
  /\ (incidentPolygons triangleCore 0 <> [] /\
      calculateVertexNormal (host := translations) triangleCore 0
        identityMatrix
      = Vec3D.multiply
          (averagedWorldNormal (host := translations) triangleCore 0
             identityMatrix)
          (1 / Vec3D.norm
                 (averagedWorldNormal (host := translations) triangleCore 0
                    identityMatrix))).
Proof.
  split; [|split].
  - split; [reflexivity|].
    apply (proj1 (calculateVertexNormal_cases (host := translations)
                    triangleCore 7 identityMatrix)).
    reflexivity.
  - split; [rewrite foldedCore_incident; discriminate|].
    apply (proj1 (proj2 (calculateVertexNormal_cases (host := translations)
                           foldedCore 0 identityMatrix))).
    + rewrite foldedCore_incident. discriminate.
    + apply foldedCore_averaged_norm.
  - split; [rewrite triangleCore_incident; discriminate|].
    apply (proj2 (proj2 (calculateVertexNormal_cases (host := translations)
                           triangleCore 0 identityMatrix))).
    + rewrite triangleCore_incident. discriminate.
    + rewrite triangleCore_averaged_norm. lra.
Defined.

(** ** The power step *)

Lemma Math_pow_one (x : R) : 0 <= x -> Math_pow x 1 = x.
Proof.
  intros Hx. unfold Math_pow.
  destruct (Reqb 1 0) eqn:E1; [apply Reqb_true in E1; lra|].
  destruct (Rltb 0 x) eqn:E2.
  - apply Rltb_true in E2. apply Rpower_1, E2.
  - apply Rltb_false in E2. lra.
Qed.

Lemma Math_pow_half_two : Math_pow (1 / 2) 2 = 1 / 4.
Proof.
  unfold Math_pow.
  destruct (Reqb 2 0) eqn:E1; [apply Reqb_true in E1; lra|].
  destruct (Rltb 0 (1 / 2)) eqn:E2; [|apply Rltb_false in E2; lra].
  replace (Rpower (1 / 2) 2) with (Rpower (1 / 2) (INR 2))
    by (f_equal; simpl; lra).
  rewrite Rpower_pow by lra. simpl. lra.
Qed.

Lemma Math_pow_unit_interval (x y : R) :
  0 <= x <= 1 -> 0 < y -> 0 <= Math_pow x y <= 1.
Proof.
  intros [Hx0 Hx1] Hy. unfold Math_pow.
  destruct (Reqb y 0) eqn:E1; [apply Reqb_true in E1; lra|].
  destruct (Rltb 0 x) eqn:E2; [|lra].
  apply Rltb_true in E2. unfold Rpower.
  pose proof (exp_pos (y * ln x)) as Hpos.
  split; [lra|].
  destruct (Rle_lt_or_eq_dec x 1 Hx1) as [Hlt | ->].
  - pose proof (ln_increasing x 1 E2 Hlt) as Hln. rewrite ln_1 in Hln.
    assert (Hneg : y * ln x < 0) by nra.
    pose proof (exp_increasing _ _ Hneg) as He. rewrite exp_0 in He. lra.
  - rewrite ln_1, Rmult_0_r, exp_0. lra.
Qed.

(** ** The occlusion of a vertex *)

Lemma count_fold {A : Type} (f : A -> bool) (l : list A) (k : nat) :
  fold_left (fun occluded a => if f a then S occluded else occluded) l k
  = (k + length (List.filter f l))%nat.
Proof.
  revert k. induction l as [|a l IH]; intros k.
  - simpl. rewrite Nat.add_0_r. reflexivity.
  - cbn [fold_left List.filter]. rewrite IH. destruct (f a).
    + cbn [length]. rewrite Nat.add_succ_comm. reflexivity.
    + reflexivity.
Qed.

Lemma fold_left_pointwise {A B : Type} (f g : A -> B -> A) (l : list B)
    (a : A) :
  (forall a b, f a b = g a b) -> fold_left f l a = fold_left g l a.
Proof.
  intros Hfg. revert a. induction l as [|b l IH]; intros a; simpl.
  - reflexivity.
  - rewrite Hfg. apply IH.
Qed.

Lemma filter_length_le {A : Type} (f : A -> bool) (l : list A) :
  (length (List.filter f l) <= length l)%nat.
Proof.
  induction l as [|a l IH]; simpl; [lia|]. destruct (f a); simpl; lia.
Qed.

Section Occlusion.
Context {host : Host}.

Lemma calculateOcclusion_count (worldPos normal : Vec3D)
    (sampleDirections : list Vec3D) (allMeshes : list Mesh)
    (maxDistance bias : R) :
  calculateOcclusion worldPos normal sampleDirections allMeshes maxDistance
    bias
  = 1 - INR (occludedCount worldPos normal sampleDirections allMeshes
               maxDistance bias)
        / INR (length sampleDirections).
Proof.
  unfold calculateOcclusion, occludedCount.
  destruct (tangentBasis normal) as [tangent bitangent]. cbn [fst snd].
  do 2 f_equal. f_equal.
  rewrite <- (Nat.add_0_l (length _)), <- count_fold.
  apply fold_left_pointwise. intros occluded sampleDir.
  destruct (sampleRay _ _ _ _ _ _ _). reflexivity.
Qed.

Lemma calculateOcclusion_unit_interval (worldPos normal : Vec3D)
    (sampleDirections : list Vec3D) (allMeshes : list Mesh)
    (maxDistance bias : R) :
  sampleDirections <> [] ->
  0 <= calculateOcclusion worldPos normal sampleDirections allMeshes
         maxDistance bias <= 1.
Proof.
  intros Hne. rewrite calculateOcclusion_count. unfold occludedCount.
  set (k := length (List.filter _ _)).
  assert (Hk : (k <= length sampleDirections)%nat)
    by apply filter_length_le.
  assert (Hn : (0 < length sampleDirections)%nat).
  { destruct sampleDirections; [contradiction | simpl; lia]. }
  apply le_INR in Hk. apply lt_0_INR in Hn.
  pose proof (pos_INR k) as Hk0.
  assert (0 <= INR k / INR (length sampleDirections) <= 1).
  { split.
    - apply Rmult_le_pos; [lra | left; apply Rinv_0_lt_compat, Hn].
    - apply (Rmult_le_reg_r (INR (length sampleDirections))); [lra|].
      unfold Rdiv. rewrite Rmult_assoc, Rinv_l by lra. lra. }
  lra.
Qed.

End Occlusion.

(** ** The writes of a vertex *)

Lemma withUV_uvCoord (core : Core) : Core.withUV core (Core.uvCoord core) = core.
Proof. destruct core. reflexivity. Qed.

Lemma writeCorners_miss (core : Core) (v : nat) (value : Vec4D)
    (p : nat) (cs : list nat) (uv : gmap (nat * nat) Vec4D) (p' c' : nat) :
  ~ (p' = p /\ In c' cs /\ Core.vertexIndex core p c' = v) ->
  writeCorners core v value p cs uv !! (p', c') = uv !! (p', c').
Proof.
  unfold writeCorners. revert uv.
  induction cs as [|c cs IH]; intros uv Hmiss; [reflexivity|].
  cbn [fold_left]. rewrite IH.
  - destruct (Nat.eqb_spec (Core.vertexIndex core p c) v) as [Hv|Hv];
      [|reflexivity].
    apply lookup_insert_ne. intros [= -> ->].
    apply Hmiss. repeat split; [left; reflexivity | assumption].
  - intros (Hp & Hin & Hv). apply Hmiss.
    repeat split; [assumption | right; assumption | assumption].
Qed.

Lemma writeCorners_hit (core : Core) (v : nat) (value : Vec4D)
    (p : nat) (cs : list nat) (uv : gmap (nat * nat) Vec4D) (c' : nat) :
  In c' cs -> Core.vertexIndex core p c' = v ->
  writeCorners core v value p cs uv !! (p, c') = Some value.
Proof.
  revert uv. induction cs as [|c cs IH]; intros uv Hin Hv; [destruct Hin|].
  destruct (in_dec Nat.eq_dec c' cs) as [Hlater | Hlast].
  - unfold writeCorners. cbn [fold_left]. apply IH; assumption.
  - destruct Hin as [-> | Hin]; [|contradiction].
    unfold writeCorners. cbn [fold_left].
    fold (writeCorners core v value p cs
            (if Nat.eqb (Core.vertexIndex core p c') v
             then <[(p, c') := value]> uv else uv)).
    rewrite writeCorners_miss by (intros (_ & Hin & _); contradiction).
    rewrite (proj2 (Nat.eqb_eq _ _) Hv). apply lookup_insert_eq.
Qed.

Lemma writePolygons_miss (core : Core) (v : nat) (value : Vec4D)
    (ps : list nat) (uv : gmap (nat * nat) Vec4D) (p' c' : nat) :
  ~ (In p' ps /\ (c' < Core.polygonSize core p')%nat
     /\ Core.vertexIndex core p' c' = v) ->
  writePolygons core v value ps uv !! (p', c') = uv !! (p', c').
Proof.
  unfold writePolygons. revert uv.
  induction ps as [|p ps IH]; intros uv Hmiss; [reflexivity|].
  cbn [fold_left]. rewrite IH.
  - apply writeCorners_miss. intros (-> & Hin & Hv). apply Hmiss.
    repeat split; [left; reflexivity | | assumption].
    apply in_seq in Hin. lia.
  - intros (Hin & Hc & Hv). apply Hmiss.
    repeat split; [right; assumption | assumption | assumption].
Qed.

Lemma writePolygons_hit (core : Core) (v : nat) (value : Vec4D)
    (ps : list nat) (uv : gmap (nat * nat) Vec4D) (p' c' : nat) :
  In p' ps -> (c' < Core.polygonSize core p')%nat ->
  Core.vertexIndex core p' c' = v ->
  writePolygons core v value ps uv !! (p', c') = Some value.
Proof.
  revert uv. induction ps as [|p ps IH]; intros uv Hin Hc Hv;
    [destruct Hin|].
  unfold writePolygons. cbn [fold_left].
  fold (writePolygons core v value ps
          (writeCorners core v value p (seq 0 (Core.polygonSize core p)) uv)).
  destruct (in_dec Nat.eq_dec p' ps) as [Hlater | Hlast].
  - apply IH; assumption.
  - destruct Hin as [-> | Hin]; [|contradiction].
    rewrite writePolygons_miss by (intros (Hin & _); contradiction).
    apply writeCorners_hit; [|assumption].
    apply in_seq. lia.
Qed.

Section VertexWrites.
Context {host : Host}.

Lemma setVertexColor_corners (core : Core) (v : nat) (value : Vec4D)
    (p : nat) (cs : list nat) (uv : gmap (nat * nat) Vec4D) :
  fold_left
    (fun core c =>
       if Nat.eqb (Core.vertexIndex core p c) v
       then Core.setUVCoord core p c value
       else core)
    cs (Core.withUV core uv)
  = Core.withUV core (writeCorners core v value p cs uv).
Proof.
  unfold writeCorners. revert uv.
  induction cs as [|c cs IH]; intros uv; [reflexivity|].
  cbn [fold_left]. rewrite <- IH. f_equal.
  cbn [Core.withUV Core.vertexIndex].
  destruct (Nat.eqb _ v); reflexivity.
Qed.

Lemma setVertexColor_polygons (core : Core) (v : nat) (color : Vec4D)
    (ps : list nat) (uv : gmap (nat * nat) Vec4D) :
  fold_left
    (fun core p =>
       fold_left
         (fun core c =>
            if Nat.eqb (Core.vertexIndex core p c) v
            then Core.setUVCoord core p c
                   (Vec4D.new (Vec4D.x color) 0 0 0)
            else core)
         (seq 0 (Core.polygonSize core p)) core)
    ps (Core.withUV core uv)
  = Core.withUV core
      (writePolygons core v (Vec4D.new (Vec4D.x color) 0 0 0) ps uv).
Proof.
  unfold writePolygons. revert uv.
  induction ps as [|p ps IH]; intros uv; [reflexivity|].
  cbn [fold_left]. rewrite <- IH. f_equal.
  rewrite <- setVertexColor_corners. reflexivity.
Qed.

Lemma setVertexColor_store (core : Core) (v : nat) (color : Vec4D)
    (uv : gmap (nat * nat) Vec4D) :
  setVertexColor (Core.withUV core uv) v color
  = Core.withUV core
      (writePolygons core v (Vec4D.new (Vec4D.x color) 0 0 0)
         (seq 0 (Core.polygonCount core)) uv).
Proof.
  unfold setVertexColor. rewrite <- setVertexColor_polygons. reflexivity.
Qed.

Lemma bakeVertex_store (meshMatrix : Mat4D) (allMeshes : list Mesh)
    (sampleDirections : list Vec3D) (maxDistance bias intensity : R)
    (invert : bool) (core : Core) (uv : gmap (nat * nat) Vec4D) (v : nat) :
  bakeVertex meshMatrix allMeshes sampleDirections maxDistance bias
    intensity invert (Core.withUV core uv) v
  = Core.withUV core
      (writePolygons core v
         (Vec4D.new
            (vertexOcclusion meshMatrix core allMeshes sampleDirections
               maxDistance bias intensity invert v) 0 0 0)
         (seq 0 (Core.polygonCount core)) uv).
Proof. unfold bakeVertex. rewrite setVertexColor_store. reflexivity. Qed.

Lemma bakeVertex_hit (meshMatrix : Mat4D) (allMeshes : list Mesh)
    (sampleDirections : list Vec3D) (maxDistance bias intensity : R)
    (invert : bool) (core : Core) (v p c : nat) :
  (p < Core.polygonCount core)%nat -> (c < Core.polygonSize core p)%nat ->
  Core.vertexIndex core p c = v ->
  Core.uvCoord
    (bakeVertex meshMatrix allMeshes sampleDirections maxDistance bias
       intensity invert core v) !! (p, c)
  = Some (Vec4D.new
            (vertexOcclusion meshMatrix core allMeshes sampleDirections
               maxDistance bias intensity invert v) 0 0 0).
Proof.
  intros Hp Hc Hv. rewrite <- (withUV_uvCoord core) at 1.
  rewrite bakeVertex_store. cbn [Core.withUV Core.uvCoord].
  apply writePolygons_hit; [apply in_seq; lia | assumption | assumption].
Qed.

Lemma bakeVertex_miss (meshMatrix : Mat4D) (allMeshes : list Mesh)
    (sampleDirections : list Vec3D) (maxDistance bias intensity : R)
    (invert : bool) (core : Core) (v p c : nat) :
  ~ ((p < Core.polygonCount core)%nat /\ (c < Core.polygonSize core p)%nat
     /\ Core.vertexIndex core p c = v) ->
  Core.uvCoord
    (bakeVertex meshMatrix allMeshes sampleDirections maxDistance bias
       intensity invert core v) !! (p, c)
  = Core.uvCoord core !! (p, c).
Proof.
  intros Hmiss. rewrite <- (withUV_uvCoord core) at 1.
  rewrite bakeVertex_store. cbn [Core.withUV Core.uvCoord].
  apply writePolygons_miss. intros (Hp & Hc & Hv). apply Hmiss.
  apply in_seq in Hp. repeat split; [lia | exact Hc | exact Hv].
Qed.

Lemma vertexOcclusion_bounds (meshMatrix : Mat4D) (allMeshes : list Mesh)
    (sampleDirections : list Vec3D) (maxDistance bias intensity : R)
    (invert : bool) (core : Core) (v : nat) :
  0 < intensity -> sampleDirections <> [] ->
  0 <= vertexOcclusion meshMatrix core allMeshes sampleDirections
         maxDistance bias intensity invert v <= 1.
Proof.
  intros Hi Hne. unfold vertexOcclusion, applyIntensity.
  pose proof (Math_pow_unit_interval _ intensity
                (calculateOcclusion_unit_interval
                   (Mat4D_multiply meshMatrix (Core.vertex core v))
                   (calculateVertexNormal core v meshMatrix)
                   sampleDirections allMeshes maxDistance bias Hne) Hi).
  destruct invert; lra.
Qed.
End VertexWrites.

(** ** Degenerate geometry and the empty scene *)


Lemma rayTriangleIntersect_parallel (rayStart rayDir : Vec3D) (rayLength : R)
    (v0 v1 v2 : Vec3D) :
  Rabs (mt_a rayDir v0 v1 v2) < epsilon ->
  rayTriangleIntersect rayStart rayDir rayLength v0 v1 v2 = false.
Proof.
  intros H. apply Rabs_def2 in H. destruct H as [Hlt Hgt].
  unfold rayTriangleIntersect. fold (mt_a rayDir v0 v1 v2).
  rewrite (proj2 (Rgtb_true _ _) Hgt), (proj2 (Rltb_true _ _) Hlt).
  reflexivity.
Qed.

Section Degenerate.
Context {host : Host}.

Lemma rayIntersectsAnyMesh_nil (rayStart rayEnd : Vec3D) :
  rayIntersectsAnyMesh rayStart rayEnd [] = false.
Proof. unfold rayIntersectsAnyMesh. destruct (Reqb _ 0); reflexivity. Qed.


(** C10: with no occluder every ray query answers false, and the
    accessibility of a sample set that is not empty is exactly 1. *)
Theorem calculateOcclusion_no_occluders :
  (forall rayStart rayEnd, rayIntersectsAnyMesh rayStart rayEnd [] = false)
  /\ (forall worldPos normal sampleDirections maxDistance bias,
      sampleDirections <> [] ->
      calculateOcclusion worldPos normal sampleDirections [] maxDistance
        bias = 1).
Proof.
  split; [apply rayIntersectsAnyMesh_nil|].
  intros worldPos normal sampleDirections maxDistance bias Hne.
  rewrite calculateOcclusion_count. unfold occludedCount.
  assert (E : forall l : list Vec3D,
             List.filter
               (fun sampleDir =>
                  rayIntersectsAnyMesh
                    (fst (sampleRay worldPos normal
                            (fst (tangentBasis normal))
                            (snd (tangentBasis normal)) maxDistance bias
                            sampleDir))
                    (snd (sampleRay worldPos normal
                            (fst (tangentBasis normal))
                            (snd (tangentBasis normal)) maxDistance bias
                            sampleDir))
                    []) l = []).
  { induction l as [|d l IH]; [reflexivity|].
    cbn [List.filter]. rewrite rayIntersectsAnyMesh_nil. exact IH. }
  rewrite E. cbn [length INR]. unfold Rdiv. ring.
Qed.


End Degenerate.

(** ** The bake of a mesh *)

Lemma advance_advance (a b : nat) (w : World) :
  advance a (advance b w) = advance (a + b) w.
Proof.
  unfold advance. cbn [rng draws position trace]. do 2 f_equal. lia.
Qed.

Lemma advance_zero (w : World) : rng (advance 0 w) = rng w.
Proof. destruct w as [[d p] tr]. reflexivity. Qed.

Section MeshBake.
Context {host : Host}.

Lemma bakeVertices_store (meshMatrix : Mat4D) (allMeshes : list Mesh)
    (sampleDirections : list Vec3D) (maxDistance bias intensity : R)
    (invert : bool) (core : Core) (vs : list nat)
    (uv : gmap (nat * nat) Vec4D) :
  fold_left
    (bakeVertex meshMatrix allMeshes sampleDirections maxDistance bias
       intensity invert)
    vs (Core.withUV core uv)
  = Core.withUV core
      (writeVertices meshMatrix core allMeshes sampleDirections maxDistance
         bias intensity invert vs uv).
Proof.
  unfold writeVertices. revert uv.
  induction vs as [|v vs IH]; intros uv; [reflexivity|].
  cbn [fold_left]. rewrite bakeVertex_store. apply IH.
Qed.

Lemma bakeVertices_core (meshMatrix : Mat4D) (allMeshes : list Mesh)
    (sampleDirections : list Vec3D) (maxDistance bias intensity : R)
    (invert : bool) (core : Core) (vs : list nat) :
  fold_left
    (bakeVertex meshMatrix allMeshes sampleDirections maxDistance bias
       intensity invert)
    vs core
  = Core.withUV core
      (writeVertices meshMatrix core allMeshes sampleDirections maxDistance
         bias intensity invert vs (Core.uvCoord core)).
Proof.
  rewrite <- bakeVertices_store, withUV_uvCoord. reflexivity.
Qed.

Lemma writeVertices_miss (meshMatrix : Mat4D) (allMeshes : list Mesh)
    (sampleDirections : list Vec3D) (maxDistance bias intensity : R)
    (invert : bool) (core : Core) (vs : list nat)
    (uv : gmap (nat * nat) Vec4D) (p c : nat) :
  ~ In (Core.vertexIndex core p c) vs ->
  writeVertices meshMatrix core allMeshes sampleDirections maxDistance bias
    intensity invert vs uv !! (p, c)
  = uv !! (p, c).
Proof.
  unfold writeVertices. revert uv.
  induction vs as [|v vs IH]; intros uv Hnot; [reflexivity|].
  cbn [fold_left]. rewrite IH by (intros H; apply Hnot; right; exact H).
  apply writePolygons_miss. intros (_ & _ & H).
  apply Hnot. left. symmetry. exact H.
Qed.

Lemma writeVertices_hit (meshMatrix : Mat4D) (allMeshes : list Mesh)
    (sampleDirections : list Vec3D) (maxDistance bias intensity : R)
    (invert : bool) (core : Core) (vs : list nat)
    (uv : gmap (nat * nat) Vec4D) (p c : nat) :
  (p < Core.polygonCount core)%nat -> (c < Core.polygonSize core p)%nat ->
  In (Core.vertexIndex core p c) vs ->
  writeVertices meshMatrix core allMeshes sampleDirections maxDistance bias
    intensity invert vs uv !! (p, c)
  = Some (Vec4D.new
            (vertexOcclusion meshMatrix core allMeshes sampleDirections
               maxDistance bias intensity invert (Core.vertexIndex core p c))
            0 0 0).
Proof.
  intros Hp Hc. revert uv.
  induction vs as [|v vs IH]; intros uv Hin; [destruct Hin|].
  change (writeVertices meshMatrix core allMeshes sampleDirections
            maxDistance bias intensity invert (v :: vs) uv)
    with (writeVertices meshMatrix core allMeshes sampleDirections
            maxDistance bias intensity invert vs
            (writePolygons core v
               (Vec4D.new
                  (vertexOcclusion meshMatrix core allMeshes
                     sampleDirections maxDistance bias intensity invert v)
                  0 0 0)
               (seq 0 (Core.polygonCount core)) uv)).
  destruct (in_dec Nat.eq_dec (Core.vertexIndex core p c) vs)
    as [Hlater | Hlast].
  - apply IH. exact Hlater.
  - destruct Hin as [-> | Hin]; [|contradiction].
    rewrite writeVertices_miss by exact Hlast.
    apply writePolygons_hit; [apply in_seq; lia | exact Hc | reflexivity].
Qed.

Lemma bakeMeshAO_run (meshObj : Obj) (core : Core) (allMeshes : list Mesh)
    (sampleRays : nat) (maxDistance bias intensity : R) (invert : bool)
    (w : World) :
  bakeMeshAO meshObj core allMeshes sampleRays maxDistance bias intensity
    invert w
  = (fold_left
       (bakeVertex (Obj.obj2WorldMatrix meshObj) allMeshes
          (fst (generateHemisphereSamples sampleRays w)) maxDistance bias
          intensity invert)
       (seq 0 (Core.vertexCount core)) core,
     advance (2 * sampleRays) w).
Proof.
  unfold bakeMeshAO, mbind, M_bind, generateHemisphereSamples.
  rewrite hemisphereLoop_run. reflexivity.
Qed.

Lemma bakeMeshAO_corner (meshObj : Obj) (core : Core)
    (allMeshes : list Mesh) (sampleRays : nat)
    (maxDistance bias intensity : R) (invert : bool) (w : World)
    (p c : nat) :
  (p < Core.polygonCount core)%nat -> (c < Core.polygonSize core p)%nat ->
  (Core.vertexIndex core p c < Core.vertexCount core)%nat ->
  Core.uvCoord
    (fst (bakeMeshAO meshObj core allMeshes sampleRays maxDistance bias
            intensity invert w)) !! (p, c)
  = Some (Vec4D.new
            (vertexOcclusion (Obj.obj2WorldMatrix meshObj) core allMeshes
               (fst (generateHemisphereSamples sampleRays w)) maxDistance
               bias intensity invert (Core.vertexIndex core p c))
            0 0 0).
Proof.
  intros Hp Hc Hv. rewrite bakeMeshAO_run. cbn [fst].
  rewrite bakeVertices_core. cbn [Core.withUV Core.uvCoord].
  apply writeVertices_hit; [exact Hp | exact Hc |].
  apply in_seq. lia.
Qed.

(** C6: with a positive intensity exponent, and a sample count that is
    positive, the scalar computed for a vertex lies in [0, 1], and so
    does the first component of what a bake of the mesh leaves on each
    of its corners. *)
Theorem written_scalar_unit_interval :
  (forall meshMatrix allMeshes sampleDirections maxDistance bias intensity
          invert core v,
      0 < intensity -> sampleDirections <> [] ->
      0 <= vertexOcclusion meshMatrix core allMeshes sampleDirections
             maxDistance bias intensity invert v <= 1)
  /\ (forall meshObj core allMeshes sampleRays maxDistance bias intensity
             invert w p c,
      0 < intensity -> (0 < sampleRays)%nat ->
      (p < Core.polygonCount core)%nat ->
      (c < Core.polygonSize core p)%nat ->
      (Core.vertexIndex core p c < Core.vertexCount core)%nat ->
      exists s,
        Core.uvCoord
          (fst (bakeMeshAO meshObj core allMeshes sampleRays maxDistance
                  bias intensity invert w)) !! (p, c)
        = Some (Vec4D.new s 0 0 0)
        /\ 0 <= s <= 1).
Proof.
  split.
  - intros. apply vertexOcclusion_bounds; assumption.
  - intros meshObj core allMeshes sampleRays maxDistance bias intensity
      invert w p c Hi Hn Hp Hc Hv.
    eexists. split; [apply bakeMeshAO_corner; assumption|].
    apply vertexOcclusion_bounds; [exact Hi|].
    unfold generateHemisphereSamples. rewrite hemisphereLoop_run.
    cbn [fst app]. destruct sampleRays as [|n]; [lia|].
    cbn [seq map]. discriminate.
Qed.
End MeshBake.

(** ** The walk over the object tree *)

Lemma Obj_tree_ind {host : Host} (P : Obj -> Prop) :
  (forall obj, Forall P (Obj.children obj) -> P obj) -> forall obj, P obj.
Proof.
  intros P_node. fix IH 1. intros obj. apply P_node.
  destruct obj as [f co mc mat nm cs]. cbn [Obj.children].
  induction cs as [|c cs IHcs]; constructor; [apply IH | exact IHcs].
Qed.

Lemma rng_advance_congr (n : nat) (w1 w2 : World) :
  rng w1 = rng w2 -> rng (advance n w1) = rng (advance n w2).
Proof. unfold advance. cbn [rng]. intros ->. reflexivity. Qed.

Lemma rng_emit (e : Event) (w : World) : rng (snd (emit e w)) = rng w.
Proof. reflexivity. Qed.

Section Walk.
Context {host : Host}.

Lemma forChildren_cons (body : Obj -> nat -> M (Obj * nat)) (c : Obj)
    (cs : list Obj) (count : nat) (w : World) :
  forChildren body (c :: cs) count w
  = (fst (fst (body c count w))
       :: fst (fst (forChildren body cs (snd (fst (body c count w)))
                      (snd (body c count w)))),
     snd (fst (forChildren body cs (snd (fst (body c count w)))
                 (snd (body c count w)))),
     snd (forChildren body cs (snd (fst (body c count w)))
            (snd (body c count w)))).
Proof.
  cbn [forChildren]. unfold mbind, M_bind.
  destruct (body c count w) as [[c' n1] w1]. cbn [fst snd].
  destruct (forChildren body cs n1 w1) as [[cs' n2] w2]. reflexivity.
Qed.

Lemma processMeshesRecursively_node (obj : Obj) (allMeshes : list Mesh)
    (sampleRays : nat) (maxDistance bias intensity : R) (invert : bool)
    (count : nat) (w : World) :
  processMeshesRecursively obj allMeshes sampleRays maxDistance bias
    intensity invert count w
  = let self :=
      processSelf obj allMeshes sampleRays maxDistance bias intensity
        invert count w in
    let rest :=
      forChildren
        (fun c count =>
           processMeshesRecursively c allMeshes sampleRays maxDistance bias
             intensity invert count)
        (Obj.children obj) (snd (fst self)) (snd self) in
    (Obj.withCoreChildren obj (fst (fst self)) (fst (fst rest)),
     snd (fst rest), snd rest).
Proof.
  destruct obj as [f co mc mat nm cs].
  cbn [processMeshesRecursively]. unfold mbind at 1 2, M_bind at 1 2.
  destruct (processSelf _ _ _ _ _ _ _ _ _) as [[core' n1] w1].
  cbn [fst snd Obj.children].
  destruct (forChildren _ cs n1 w1) as [[cs' n2] w2]. reflexivity.
Qed.

Lemma processSelf_random (obj : Obj) (allMeshes : list Mesh)
    (sampleRays : nat) (maxDistance bias intensity : R) (invert : bool)
    (count : nat) (w : World) :
  snd (fst (processSelf obj allMeshes sampleRays maxDistance bias intensity
              invert count w))
  = (count + bakedSelf obj)%nat
  /\ rng (snd (processSelf obj allMeshes sampleRays maxDistance bias
                 intensity invert count w))
     = rng (advance (2 * sampleRays * bakedSelf obj) w).
Proof.
  unfold processSelf, bakedSelf.
  destruct (Family_eqb (Obj.family obj) NGONFAMILY);
    [destruct (Obj.core obj) as [core|];
     [destruct (Nat.ltb 0 (Core.vertexCount core))|]|].
  - unfold mbind, M_bind. cbn [emit print mret M_ret fst snd].
    rewrite bakeMeshAO_run. unfold mret, M_ret. cbn [fst snd rng].
    split; [lia|]. unfold advance. cbn [rng draws position].
    f_equal. lia.
  - cbn [mret M_ret fst snd]. rewrite Nat.mul_0_r, advance_zero.
    split; [lia | reflexivity].
  - cbn [mret M_ret fst snd]. rewrite Nat.mul_0_r, advance_zero.
    split; [lia | reflexivity].
  - cbn [mret M_ret fst snd]. rewrite Nat.mul_0_r, advance_zero.
    split; [lia | reflexivity].
Qed.

Lemma forChildren_random (k : nat) (body : Obj -> nat -> M (Obj * nat))
    (cs : list Obj) :
  Forall
    (fun c =>
       forall count w,
         snd (fst (body c count w)) = (count + bakedMeshes c)%nat
         /\ rng (snd (body c count w))
            = rng (advance (k * bakedMeshes c) w))
    cs ->
  forall count w,
    snd (fst (forChildren body cs count w))
    = (count + list_sum (map bakedMeshes cs))%nat
    /\ rng (snd (forChildren body cs count w))
       = rng (advance (k * list_sum (map bakedMeshes cs)) w).
Proof.
  induction 1 as [|c cs Hc _ IH]; intros count w.
  - unfold forChildren, mret, M_ret. cbn [fst snd].
    change (list_sum (map bakedMeshes [])) with 0%nat.
    rewrite Nat.mul_0_r, advance_zero. split; [lia | reflexivity].
  - rewrite forChildren_cons. cbn [fst snd].
    change (list_sum (map bakedMeshes (c :: cs)))
      with (bakedMeshes c + list_sum (map bakedMeshes cs))%nat.
    destruct (Hc count w) as [Hn Hr].
    destruct (IH (snd (fst (body c count w))) (snd (body c count w)))
      as [Hn' Hr'].
    rewrite Hn', Hr', Hn. split; [lia|].
    rewrite (rng_advance_congr _ _ _ Hr), advance_advance.
    f_equal. f_equal. lia.
Qed.

Lemma processMeshesRecursively_random (allMeshes : list Mesh)
    (sampleRays : nat) (maxDistance bias intensity : R) (invert : bool)
    (obj : Obj) :
  forall count w,
    snd (fst (processMeshesRecursively obj allMeshes sampleRays
                maxDistance bias intensity invert count w))
    = (count + bakedMeshes obj)%nat
    /\ rng (snd (processMeshesRecursively obj allMeshes sampleRays
                   maxDistance bias intensity invert count w))
       = rng (advance (2 * sampleRays * bakedMeshes obj) w).
Proof.
  induction obj as [obj IH] using Obj_tree_ind. intros count w.
  rewrite processMeshesRecursively_node. cbn zeta. cbn [fst snd].
  destruct (processSelf_random obj allMeshes sampleRays maxDistance bias
              intensity invert count w) as [Hn Hr].
  destruct (forChildren_random (2 * sampleRays)
              (fun c count =>
                 processMeshesRecursively c allMeshes sampleRays
                   maxDistance bias intensity invert count)
              (Obj.children obj) IH
              (snd (fst (processSelf obj allMeshes sampleRays maxDistance
                           bias intensity invert count w)))
              (snd (processSelf obj allMeshes sampleRays maxDistance bias
                      intensity invert count w))) as [Hn' Hr'].
  rewrite Hn', Hr', Hn.
  replace (bakedMeshes obj)
    with (bakedSelf obj + list_sum (map bakedMeshes (Obj.children obj)))%nat
    by (destruct obj; reflexivity).
  split; [lia|].
  rewrite (rng_advance_congr _ _ _ Hr), advance_advance.
  f_equal. f_equal. lia.
Qed.

Lemma bakeAmbientOcclusion_random (tool : Tool) (selectedObj : Obj)
    (w : World) :
  selectedObject (document tool) = Some selectedObj ->
  rng (snd (bakeAmbientOcclusion tool w))
  = rng (advance (2 * sampleRaysParam tool * bakedMeshes selectedObj) w).
Proof.
  intros Hsel. unfold bakeAmbientOcclusion. rewrite Hsel.
  unfold mbind, M_bind. cbn [print emit fst snd].
  match goal with
  | |- context [processMeshesRecursively ?o ?m ?n ?d ?b ?i ?v ?c ?w0] =>
      destruct (processMeshesRecursively_random m n d b i v o c w0)
        as [_ Hr];
      destruct (processMeshesRecursively o m n d b i v c w0)
        as [[sel' n'] w'] eqn:E
  end.
  cbn [fst snd rng mret M_ret] in *. rewrite Hr. reflexivity.
Qed.

(** C4, as the script has it: one call of [bakeMeshAO] generates the
    sample set once, with [2 * sampleRays] draws, and the scalar on
    every corner of the mesh is computed from that one set; a bake
    generates one set for every mesh it processes. *)
Theorem bakeMeshAO_one_sample_set :
  (forall meshObj core allMeshes sampleRays maxDistance bias intensity
          invert w,
      snd (bakeMeshAO meshObj core allMeshes sampleRays maxDistance bias
             intensity invert w)
      = advance (2 * sampleRays) w
      /\ forall p c,
           (p < Core.polygonCount core)%nat ->
           (c < Core.polygonSize core p)%nat ->
           (Core.vertexIndex core p c < Core.vertexCount core)%nat ->
           Core.uvCoord
             (fst (bakeMeshAO meshObj core allMeshes sampleRays maxDistance
                     bias intensity invert w)) !! (p, c)
           = Some (Vec4D.new
                     (vertexOcclusion (Obj.obj2WorldMatrix meshObj) core
                        allMeshes
                        (fst (generateHemisphereSamples sampleRays w))
                        maxDistance bias intensity invert
                        (Core.vertexIndex core p c))
                     0 0 0))
  /\ (forall tool selectedObj w,
      selectedObject (document tool) = Some selectedObj ->
      rng (snd (bakeAmbientOcclusion tool w))
      = rng (advance
               (2 * sampleRaysParam tool * bakedMeshes selectedObj) w)).
Proof.
  split.
  - intros. split.
    + rewrite bakeMeshAO_run. reflexivity.
    + intros p c. apply bakeMeshAO_corner.
  - apply bakeAmbientOcclusion_random.
Qed.

(** C9: with no object selected the bake shows the error box and
    returns: the document is the one it was given, no random draw is
    made, and the error box is the only host call. *)
Theorem bakeAmbientOcclusion_no_selection (tool : Tool) (w : World) :
  selectedObject (document tool) = None ->
  bakeAmbientOcclusion tool w
  = (document tool,
     {| rng := rng w;
        trace := trace w
                 ++ [MessageBox "Error" "Please select an object first."] |}).
Proof.
  intros Hsel. unfold bakeAmbientOcclusion. rewrite Hsel. reflexivity.
Qed.
End Walk.

(** ** The properties on the concrete scenes *)

Lemma startWorld_draws (k : nat) : 0 <= draws (rng startWorld) k < 1.
Proof. cbn [startWorld rng draws]. destruct (Nat.ltb k 16); lra. Qed.

Lemma rayAbove_determinant :
  mt_a downwards (Core.vertex triangleCore 0) (Core.vertex triangleCore 1)
    (Core.vertex triangleCore 2) = 1.
Proof.
  unfold mt_a, Vec3D.dot, Vec3D.cross, Vec3D.sub, downwards.
  cbn [triangleCore Core.vertex Vec3D.x Vec3D.y Vec3D.z]. ring.
Qed.

Lemma rayTriangleIntersect_true_iff_witness :
  rayTriangleIntersect rayAbove downwards 2 (Core.vertex triangleCore 0)
    (Core.vertex triangleCore 1) (Core.vertex triangleCore 2) = true.
Proof.
  apply (proj2 (rayTriangleIntersect_true_iff rayAbove downwards 2
                  (Core.vertex triangleCore 0) (Core.vertex triangleCore 1)
                  (Core.vertex triangleCore 2))).
  unfold mt_u, mt_v, mt_t. rewrite rayAbove_determinant.
  unfold Vec3D.dot, Vec3D.cross, Vec3D.sub, rayAbove, downwards, epsilon.
  cbn [triangleCore Core.vertex Vec3D.x Vec3D.y Vec3D.z].
  rewrite Rabs_R1. repeat split; lra.
Defined.

Lemma generateHemisphereSamples_directions_witness :
  (forall k, 0 <= draws (rng startWorld) k < 1)
  /\ length (fst (generateHemisphereSamples 8 startWorld)) = 8%nat
  /\ forall i, (i < 8)%nat ->
       exists d,
         nth_error (fst (generateHemisphereSamples 8 startWorld)) i = Some d
         /\ d = hemisphereDirection
                  (draws (rng startWorld) (position (rng startWorld) + 2 * i))
                  (draws (rng startWorld)
                     (position (rng startWorld) + 2 * i + 1))
         /\ Vec3D.norm d = 1
         /\ 0 <= Vec3D.y d.
Proof.
  split; [exact startWorld_draws|].
  exact (generateHemisphereSamples_directions 8 startWorld startWorld_draws).
Defined.

(** C4, the sentence of the specification fails: a bake of the group with two
    meshes, 8 rays each, makes 32 draws, two generations of 16, and
    the set generated for the second mesh is not the set of the
    first. *)
Lemma bake_two_meshes_generates_two_sets :
  selectedObject (document twoMeshTool) = Some twoMeshes
  /\ position (rng (snd (bakeAmbientOcclusion twoMeshTool startWorld)))
     = 32%nat
  /\ position (rng (advance (2 * sampleRaysParam twoMeshTool) startWorld))
     = 16%nat
  /\ fst (generateHemisphereSamples 8 startWorld)
     <> fst (generateHemisphereSamples 8 (advance 16 startWorld)).
Proof.
  split; [reflexivity|]. split; [|split; [reflexivity|]].
  - rewrite (bakeAmbientOcclusion_random twoMeshTool twoMeshes startWorld)
      by reflexivity.
    reflexivity.
  - unfold generateHemisphereSamples. rewrite !hemisphereLoop_run.
    cbn [fst app seq map]. intros H.
    apply (f_equal (fun l => match l with
                             | d :: _ => Vec3D.y d
                             | [] => 0
                             end)) in H.
    unfold drawnDirection in H.
    cbn [startWorld advance rng draws position Nat.add Nat.mul Nat.ltb
         Nat.leb] in H.
    rewrite !hemisphereDirection_y in H by lra.
    rewrite sqrt_0 in H.
    pose proof (sqrt_lt_R0 (1 / 2)) as Hpos. lra.
Qed.

Lemma bakeMeshAO_one_sample_set_witness :
  (0 < Core.polygonCount triangleCore)%nat
  /\ (0 < Core.polygonSize triangleCore 0)%nat
  /\ (Core.vertexIndex triangleCore 0 0 < Core.vertexCount triangleCore)%nat
  /\ Core.uvCoord
       (fst (bakeMeshAO (meshNode "first" triangleCore) triangleCore
               [firstOccluder] 8 1 (1 / 100) 1 false startWorld)) !! (0%nat, 0%nat)
     = Some (Vec4D.new
               (vertexOcclusion identityMatrix triangleCore [firstOccluder]
                  (fst (generateHemisphereSamples 8 startWorld)) 1 (1 / 100)
                  1 false 0)
               0 0 0)
  /\ selectedObject (document twoMeshTool) = Some twoMeshes
  /\ rng (snd (bakeAmbientOcclusion twoMeshTool startWorld))
     = rng (advance (2 * 8 * bakedMeshes twoMeshes) startWorld).
Proof.
  assert (H1 : (0 < Core.polygonCount triangleCore)%nat) by (simpl; lia).
  assert (H2 : (0 < Core.polygonSize triangleCore 0)%nat) by (simpl; lia).
  assert (H3 : (Core.vertexIndex triangleCore 0 0
                < Core.vertexCount triangleCore)%nat) by (simpl; lia).
  assert (H4 : selectedObject (document twoMeshTool) = Some twoMeshes)
    by reflexivity.
  repeat (split; [assumption|]). split.
  - exact (proj2 (proj1 (bakeMeshAO_one_sample_set (host := translations))
                    (meshNode "first" triangleCore) triangleCore
                    [firstOccluder] 8%nat 1 (1 / 100) 1 false startWorld)
             0%nat 0%nat H1 H2 H3).
  - split; [exact H4|].
    exact (proj2 (bakeMeshAO_one_sample_set (host := translations))
             twoMeshTool twoMeshes startWorld H4).
Defined.

Lemma written_scalar_unit_interval_witness :
  0 < 1 /\ oneSample <> []
  /\ 0 <= vertexOcclusion (host := translations) identityMatrix triangleCore
            [firstOccluder] oneSample 1 (1 / 100) 1 true 0 <= 1
  /\ (0 < 8)%nat
  /\ exists s,
       Core.uvCoord
         (fst (bakeMeshAO (meshNode "first" triangleCore) triangleCore
                 [firstOccluder] 8 1 (1 / 100) 1 true startWorld))
         !! (0%nat, 0%nat)
       = Some (Vec4D.new s 0 0 0)
       /\ 0 <= s <= 1.
Proof.
  assert (H1 : 0 < 1) by lra.
  assert (H2 : oneSample <> []) by discriminate.
  assert (H3 : (0 < 8)%nat) by lia.
  assert (H4 : (0 < Core.polygonCount triangleCore)%nat) by (simpl; lia).
  assert (H5 : (0 < Core.polygonSize triangleCore 0)%nat) by (simpl; lia).
  assert (H6 : (Core.vertexIndex triangleCore 0 0
                < Core.vertexCount triangleCore)%nat) by (simpl; lia).
  split; [exact H1|]. split; [exact H2|]. split.
  - exact (proj1 (written_scalar_unit_interval (host := translations))
             identityMatrix [firstOccluder] oneSample 1 (1 / 100) 1 true
             triangleCore 0%nat H1 H2).
  - split; [exact H3|].
    exact (proj2 (written_scalar_unit_interval (host := translations))
             (meshNode "first" triangleCore) triangleCore [firstOccluder]
             8%nat 1 (1 / 100) 1 true startWorld 0%nat 0%nat H1 H3 H4 H5 H6).
Defined.







Lemma bakeAmbientOcclusion_no_selection_witness :
  selectedObject (document idleTool) = None
  /\ bakeAmbientOcclusion idleTool startWorld
     = (document idleTool,
        {| rng := rng startWorld;
           trace := trace startWorld
                    ++ [MessageBox "Error"
                          "Please select an object first."] |}).
Proof.
  assert (H : selectedObject (document idleTool) = None) by reflexivity.
  split; [exact H|].
  exact (bakeAmbientOcclusion_no_selection idleTool startWorld H).
Defined.

Lemma calculateOcclusion_no_occluders_witness :
  oneSample <> []
  /\ calculateOcclusion (host := translations) rayAbove (Vec3D.new 0 1 0)
       oneSample [] 1 (1 / 100) = 1.
Proof.
  assert (H : oneSample <> []) by discriminate.
  split; [exact H|].
  exact (proj2 (calculateOcclusion_no_occluders (host := translations))
           rayAbove (Vec3D.new 0 1 0) oneSample 1 (1 / 100) H).
Defined.

(** ** The geometry of the intersection test *)

Lemma rayTriangleIntersect_guards (rayStart rayDir : Vec3D) (rayLength : R)
    (v0 v1 v2 : Vec3D) :
  rayTriangleIntersect rayStart rayDir rayLength v0 v1 v2
  = negb (Rgtb (mt_a rayDir v0 v1 v2) (- epsilon)
          && Rltb (mt_a rayDir v0 v1 v2) epsilon)
    && negb (Rltb (mt_u rayStart rayDir v0 v1 v2) 0
             || Rgtb (mt_u rayStart rayDir v0 v1 v2) 1)
    && negb (Rltb (mt_v rayStart rayDir v0 v1 v2) 0
             || Rgtb (mt_u rayStart rayDir v0 v1 v2
                      + mt_v rayStart rayDir v0 v1 v2) 1)
    && (Rgtb (mt_t rayStart rayDir v0 v1 v2) epsilon
        && Rltb (mt_t rayStart rayDir v0 v1 v2) rayLength).
Proof.
  unfold rayTriangleIntersect, mt_u, mt_v, mt_t, mt_a.
  destruct (Rgtb _ (- epsilon) && Rltb _ epsilon); [reflexivity|].
  destruct (Rltb _ 0 || Rgtb _ 1); [reflexivity|].
  destruct (Rltb _ 0 || Rgtb _ 1); [reflexivity|].
  destruct (Rgtb _ epsilon && Rltb _ rayLength); reflexivity.
Qed.

Lemma rayTriangleIntersect_conditions (rayStart rayDir : Vec3D)
    (rayLength : R) (v0 v1 v2 : Vec3D) :
  rayTriangleIntersect rayStart rayDir rayLength v0 v1 v2 = true <->
  ~ (- epsilon < mt_a rayDir v0 v1 v2 < epsilon)
  /\ 0 <= mt_u rayStart rayDir v0 v1 v2
  /\ 0 <= mt_v rayStart rayDir v0 v1 v2
  /\ mt_u rayStart rayDir v0 v1 v2 + mt_v rayStart rayDir v0 v1 v2 <= 1
  /\ epsilon < mt_t rayStart rayDir v0 v1 v2 < rayLength.
Proof.
  rewrite rayTriangleIntersect_guards.
  rewrite !andb_true_iff, !negb_true_iff, !andb_false_iff, !orb_false_iff.
  rewrite !Rgtb_true, !Rltb_true, !Rgtb_false, !Rltb_false.
  split.
  - intros (((Ha & Hu) & Hv) & Ht). repeat split; lra.
  - intros (Ha & Hu & Hv & Huv & Ht).
    repeat split; lra.
Qed.

Lemma determinant_nonzero (a : R) : ~ (- epsilon < a < epsilon) -> a <> 0.
Proof. unfold epsilon. intros H E. apply H. lra. Qed.

(** The solution of the test is the solution of the vector equation:
    with a determinant that is not zero, the point of the ray at [t]
    is the point of the triangle at [(u, v)]. *)
Lemma cramer_point (rayStart rayDir v0 v1 v2 : Vec3D) :
  mt_a rayDir v0 v1 v2 <> 0 ->
  pointOnRay rayStart rayDir (mt_t rayStart rayDir v0 v1 v2)
  = pointInTriangle v0 v1 v2 (mt_u rayStart rayDir v0 v1 v2)
      (mt_v rayStart rayDir v0 v1 v2).
Proof.
  intros Ha. unfold pointOnRay, pointInTriangle, mt_t, mt_u, mt_v.
  destruct rayStart as [sx sy sz], rayDir as [dx dy dz], v0 as [x0 y0 z0],
    v1 as [x1 y1 z1], v2 as [x2 y2 z2].
  unfold mt_a, Vec3D.dot, Vec3D.cross, Vec3D.sub, Vec3D.add, Vec3D.multiply
    in *.
  cbn [Vec3D.x Vec3D.y Vec3D.z] in *.
  apply Vec3D_eq; cbn [Vec3D.x Vec3D.y Vec3D.z]; field;
    intros E; apply Ha; rewrite <- E; ring.
Qed.

(** Conversely the vector equation has no other solution. *)
Lemma cramer_unique (rayStart rayDir v0 v1 v2 : Vec3D) (u v t : R) :
  mt_a rayDir v0 v1 v2 <> 0 ->
  pointOnRay rayStart rayDir t = pointInTriangle v0 v1 v2 u v ->
  mt_u rayStart rayDir v0 v1 v2 = u
  /\ mt_v rayStart rayDir v0 v1 v2 = v
  /\ mt_t rayStart rayDir v0 v1 v2 = t.
Proof.
  intros Ha H. unfold pointOnRay, pointInTriangle in H.
  pose proof (f_equal Vec3D.x H) as Hx.
  pose proof (f_equal Vec3D.y H) as Hy.
  pose proof (f_equal Vec3D.z H) as Hz.
  clear H. unfold mt_t, mt_u, mt_v.
  destruct rayStart as [sx sy sz], rayDir as [dx dy dz], v0 as [x0 y0 z0],
    v1 as [x1 y1 z1], v2 as [x2 y2 z2].
  unfold mt_a, Vec3D.dot, Vec3D.cross, Vec3D.sub, Vec3D.add, Vec3D.multiply
    in *.
  cbn [Vec3D.x Vec3D.y Vec3D.z] in *.
  assert (Ex : sx = x0 + ((x1 - x0) * u + (x2 - x0) * v) - dx * t) by lra.
  assert (Ey : sy = y0 + ((y1 - y0) * u + (y2 - y0) * v) - dy * t) by lra.
  assert (Ez : sz = z0 + ((z1 - z0) * u + (z2 - z0) * v) - dz * t) by lra.
  clear Hx Hy Hz. subst sx sy sz.
  repeat split; field; intros E; apply Ha; rewrite <- E; ring.
Qed.

(** X1: what the numbers of the test are.  The answer of
    [rayTriangleIntersect] is the conjunction of its four guards on
    [a], [u], [v] and [t].  Over the reals, when [a] is not zero, the
    numbers [u], [v] and [t] solve the equation of the ray and the
    triangle, [rayStart + t * rayDir = v0 + u * edge1 + v * edge2],
    and they are its only solution. *)
Theorem rayTriangleIntersect_solves_equation (rayStart rayDir : Vec3D)
    (rayLength : R) (v0 v1 v2 : Vec3D) :
  rayTriangleIntersect rayStart rayDir rayLength v0 v1 v2
  = negb (Rgtb (mt_a rayDir v0 v1 v2) (- epsilon)
          && Rltb (mt_a rayDir v0 v1 v2) epsilon)
    && negb (Rltb (mt_u rayStart rayDir v0 v1 v2) 0
             || Rgtb (mt_u rayStart rayDir v0 v1 v2) 1)
    && negb (Rltb (mt_v rayStart rayDir v0 v1 v2) 0
             || Rgtb (mt_u rayStart rayDir v0 v1 v2
                      + mt_v rayStart rayDir v0 v1 v2) 1)
    && (Rgtb (mt_t rayStart rayDir v0 v1 v2) epsilon
        && Rltb (mt_t rayStart rayDir v0 v1 v2) rayLength)
  /\ (mt_a rayDir v0 v1 v2 <> 0 ->
      pointOnRay rayStart rayDir (mt_t rayStart rayDir v0 v1 v2)
      = pointInTriangle v0 v1 v2 (mt_u rayStart rayDir v0 v1 v2)
          (mt_v rayStart rayDir v0 v1 v2))
  /\ (forall u v t,
      mt_a rayDir v0 v1 v2 <> 0 ->
      pointOnRay rayStart rayDir t = pointInTriangle v0 v1 v2 u v ->
      mt_u rayStart rayDir v0 v1 v2 = u
      /\ mt_v rayStart rayDir v0 v1 v2 = v
      /\ mt_t rayStart rayDir v0 v1 v2 = t).
Proof.
  split; [apply rayTriangleIntersect_guards|].
  split; [apply cramer_point|].
  intros u v t. apply cramer_unique.
Qed.

(** X4: the guard band at the far end.  A ray whose length is at most
    [epsilon] is never answered true: no [t] is above [epsilon] and
    below such a length. *)
Theorem rayTriangleIntersect_guard_band (rayStart rayDir : Vec3D)
    (rayLength : R) (v0 v1 v2 : Vec3D) :
  rayLength <= epsilon ->
  rayTriangleIntersect rayStart rayDir rayLength v0 v1 v2 = false.
Proof.
  intros Hlen. rewrite rayTriangleIntersect_guards.
  destruct (Rgtb (mt_t rayStart rayDir v0 v1 v2) epsilon) eqn:E1;
    [|cbn [andb]; apply andb_false_r].
  apply Rgtb_true in E1.
  assert (E2 : Rltb (mt_t rayStart rayDir v0 v1 v2) rayLength = false)
    by (apply Rltb_false; lra).
  rewrite E2. cbn [andb]. apply andb_false_r.
Qed.

(** ** The query against the occluders *)

Lemma existsb_Permutation {A : Type} (f : A -> bool) (l l' : list A) :
  Permutation l l' -> existsb f l = existsb f l'.
Proof.
  induction 1 as [|x l l' _ IH|x y l|l l' l'' _ IH1 _ IH2]; cbn [existsb].
  - reflexivity.
  - rewrite IH. reflexivity.
  - destruct (f x), (f y); reflexivity.
  - rewrite IH1. exact IH2.
Qed.

Lemma filter_length_mono {A : Type} (f g : A -> bool) (l : list A) :
  (forall a, f a = true -> g a = true) ->
  (length (List.filter f l) <= length (List.filter g l))%nat.
Proof.
  intros Hfg. induction l as [|a l IH]; cbn [List.filter]; [lia|].
  destruct (f a) eqn:Ef.
  - rewrite (Hfg a Ef). cbn [length]. lia.
  - destruct (g a); cbn [length]; lia.
Qed.

Section Query.
Context {host : Host}.

Lemma meshHit_true_iff (rayStart rayEnd : Vec3D) (mesh : Mesh) :
  meshHit rayStart rayEnd mesh = true <->
  localLength rayStart rayEnd mesh <> 0
  /\ exists p t,
       (p < Core.polygonCount (mesh_core mesh))%nat
       /\ (t + 2 < Core.polygonSize (mesh_core mesh) p)%nat
       /\ rayTriangleIntersect (localStart rayStart mesh)
            (localDirection rayStart rayEnd mesh)
            (localLength rayStart rayEnd mesh)
            (fanVertex (mesh_core mesh) p 0)
            (fanVertex (mesh_core mesh) p (t + 1))
            (fanVertex (mesh_core mesh) p (t + 2)) = true.
Proof.
  unfold meshHit. fold (localLength rayStart rayEnd mesh).
  fold (localStart rayStart mesh). fold (localDirection rayStart rayEnd mesh).
  destruct (Reqb (localLength rayStart rayEnd mesh) 0) eqn:E.
  - apply Reqb_true in E. split; [discriminate | intros [H _]; contradiction].
  - apply Reqb_false in E. rewrite existsb_exists. split.
    + intros (p & Hp & Hit). split; [exact E|].
      unfold polygonHit in Hit. apply existsb_exists in Hit.
      destruct Hit as (t & Ht & Hit). apply in_seq in Hp, Ht.
      exists p, t. repeat split; [lia | lia | exact Hit].
    + intros (_ & p & t & Hp & Ht & Hit). exists p.
      split; [apply in_seq; lia|].
      unfold polygonHit. apply existsb_exists. exists t.
      split; [apply in_seq; lia | exact Hit].
Qed.

Lemma rayIntersectsAnyMesh_exists (rayStart rayEnd : Vec3D)
    (meshes : list Mesh) :
  rayIntersectsAnyMesh rayStart rayEnd meshes = true <->
  Vec3D.norm (Vec3D.sub rayEnd rayStart) <> 0
  /\ exists mesh, In mesh meshes /\ meshHit rayStart rayEnd mesh = true.
Proof.
  unfold rayIntersectsAnyMesh.
  destruct (Reqb (Vec3D.norm (Vec3D.sub rayEnd rayStart)) 0) eqn:E.
  - apply Reqb_true in E. split; [discriminate | intros [H _]; contradiction].
  - apply Reqb_false in E. rewrite existsb_exists. tauto.
Qed.

(** X6: what the brute-force query decides.  [rayIntersectsAnyMesh]
    answers true exactly when the segment has a length that is not
    zero and there are an occluder, in whose local space the segment
    has a length that is not zero, a polygon [p] of it and a triangle
    [(0, t+1, t+2)] of the fan of [p], with [t + 2] below the corner
    count, that the local ray hits. *)
Theorem rayIntersectsAnyMesh_true_iff (rayStart rayEnd : Vec3D)
    (meshes : list Mesh) :
  rayIntersectsAnyMesh rayStart rayEnd meshes = true <->
  Vec3D.norm (Vec3D.sub rayEnd rayStart) <> 0
  /\ exists mesh p t,
       In mesh meshes
       /\ localLength rayStart rayEnd mesh <> 0
       /\ (p < Core.polygonCount (mesh_core mesh))%nat
       /\ (t + 2 < Core.polygonSize (mesh_core mesh) p)%nat
       /\ rayTriangleIntersect (localStart rayStart mesh)
            (localDirection rayStart rayEnd mesh)
            (localLength rayStart rayEnd mesh)
            (fanVertex (mesh_core mesh) p 0)
            (fanVertex (mesh_core mesh) p (t + 1))
            (fanVertex (mesh_core mesh) p (t + 2)) = true.
Proof.
  rewrite rayIntersectsAnyMesh_exists. split.
  - intros (Hlen & mesh & Hin & Hit). split; [exact Hlen|].
    apply meshHit_true_iff in Hit. destruct Hit as (Hl & p & t & Hp & Ht & Hit).
    exists mesh, p, t. repeat split; assumption.
  - intros (Hlen & mesh & p & t & Hin & Hl & Hp & Ht & Hit).
    split; [exact Hlen|]. exists mesh. split; [exact Hin|].
    apply meshHit_true_iff. split; [exact Hl|]. exists p, t.
    repeat split; assumption.
Qed.

Lemma rayIntersectsAnyMesh_app (rayStart rayEnd : Vec3D)
    (meshes more : list Mesh) :
  rayIntersectsAnyMesh rayStart rayEnd (meshes ++ more)
  = rayIntersectsAnyMesh rayStart rayEnd meshes
    || rayIntersectsAnyMesh rayStart rayEnd more.
Proof.
  unfold rayIntersectsAnyMesh. destruct (Reqb _ 0); [reflexivity|].
  apply existsb_app.
Qed.

Lemma rayIntersectsAnyMesh_incl (rayStart rayEnd : Vec3D)
    (meshes meshes' : list Mesh) :
  (forall mesh, In mesh meshes -> In mesh meshes') ->
  rayIntersectsAnyMesh rayStart rayEnd meshes = true ->
  rayIntersectsAnyMesh rayStart rayEnd meshes' = true.
Proof.
  intros Hincl H. apply rayIntersectsAnyMesh_exists in H.
  destruct H as (Hlen & mesh & Hin & Hit).
  apply rayIntersectsAnyMesh_exists. split; [exact Hlen|].
  exists mesh. split; [apply Hincl, Hin | exact Hit].
Qed.

(** X7: the occluders are a set to the query.  The answer over two
    lists put together is the disjunction of the answers, and the
    answer does not depend on the order of the list. *)
Theorem rayIntersectsAnyMesh_unordered (rayStart rayEnd : Vec3D) :
  (forall meshes more,
      rayIntersectsAnyMesh rayStart rayEnd (meshes ++ more)
      = rayIntersectsAnyMesh rayStart rayEnd meshes
        || rayIntersectsAnyMesh rayStart rayEnd more)
  /\ (forall meshes meshes',
      Permutation meshes meshes' ->
      rayIntersectsAnyMesh rayStart rayEnd meshes
      = rayIntersectsAnyMesh rayStart rayEnd meshes').
Proof.
  split; [apply rayIntersectsAnyMesh_app|].
  intros meshes meshes' Hperm. unfold rayIntersectsAnyMesh.
  destruct (Reqb _ 0); [reflexivity|].
  apply existsb_Permutation, Hperm.
Qed.

(** X8: a polygon with fewer than three corners has no triangle in its
    fan, and an occluder made of such polygons only (or of none) is
    never hit. *)
Theorem meshHit_no_triangles (rayStart rayEnd : Vec3D) (mesh : Mesh) :
  (forall p, (p < Core.polygonCount (mesh_core mesh))%nat ->
             (Core.polygonSize (mesh_core mesh) p < 3)%nat) ->
  meshHit rayStart rayEnd mesh = false.
Proof.
  intros Hsmall.
  destruct (meshHit rayStart rayEnd mesh) eqn:E; [|reflexivity].
  apply meshHit_true_iff in E. destruct E as (_ & p & t & Hp & Ht & _).
  specialize (Hsmall p Hp). lia.
Qed.

Lemma occludedCount_incl (worldPos normal : Vec3D)
    (sampleDirections : list Vec3D) (meshes meshes' : list Mesh)
    (maxDistance bias : R) :
  (forall mesh, In mesh meshes -> In mesh meshes') ->
  (occludedCount worldPos normal sampleDirections meshes maxDistance bias
   <= occludedCount worldPos normal sampleDirections meshes' maxDistance bias)%nat.
Proof.
  intros Hincl. unfold occludedCount. apply filter_length_mono.
  intros sampleDir. apply rayIntersectsAnyMesh_incl, Hincl.
Qed.

(** X9: more occluders never brighten a vertex.  If every occluder of
    one list is in another, the accessibility computed against the
    larger list is at most the one computed against the smaller (for a
    sample set that is not empty). *)
Theorem calculateOcclusion_antitone (worldPos normal : Vec3D)
    (sampleDirections : list Vec3D) (meshes meshes' : list Mesh)
    (maxDistance bias : R) :
  sampleDirections <> [] ->
  (forall mesh, In mesh meshes -> In mesh meshes') ->
  calculateOcclusion worldPos normal sampleDirections meshes' maxDistance bias
  <= calculateOcclusion worldPos normal sampleDirections meshes maxDistance
       bias.
Proof.
  intros Hne Hincl. rewrite !calculateOcclusion_count.
  pose proof (occludedCount_incl worldPos normal sampleDirections meshes
                meshes' maxDistance bias Hincl) as Hk.
  apply le_INR in Hk.
  assert (Hn : 0 < INR (length sampleDirections)).
  { apply lt_0_INR. destruct sampleDirections; [contradiction | simpl; lia]. }
  assert (Hinv : 0 < / INR (length sampleDirections))
    by apply Rinv_0_lt_compat, Hn.
  unfold Rdiv. nra.
Qed.
End Query.

(** ** The tangent frame and the sample rays *)

Lemma dot_cross_l (a b : Vec3D) : Vec3D.dot a (Vec3D.cross a b) = 0.
Proof.
  unfold Vec3D.dot, Vec3D.cross. cbn [Vec3D.x Vec3D.y Vec3D.z]. ring.
Qed.

Lemma dot_cross_r (a b : Vec3D) : Vec3D.dot b (Vec3D.cross a b) = 0.
Proof.
  unfold Vec3D.dot, Vec3D.cross. cbn [Vec3D.x Vec3D.y Vec3D.z]. ring.
Qed.

Lemma dot_multiply_r (a b : Vec3D) (k : R) :
  Vec3D.dot a (Vec3D.multiply b k) = k * Vec3D.dot a b.
Proof.
  unfold Vec3D.dot, Vec3D.multiply. cbn [Vec3D.x Vec3D.y Vec3D.z]. ring.
Qed.

Lemma dot_multiply_l (a b : Vec3D) (k : R) :
  Vec3D.dot (Vec3D.multiply a k) b = k * Vec3D.dot a b.
Proof.
  unfold Vec3D.dot, Vec3D.multiply. cbn [Vec3D.x Vec3D.y Vec3D.z]. ring.
Qed.

Lemma dot_comm (a b : Vec3D) : Vec3D.dot a b = Vec3D.dot b a.
Proof. unfold Vec3D.dot. ring. Qed.

Lemma dot_self_nonneg (a : Vec3D) : 0 <= Vec3D.dot a a.
Proof. unfold Vec3D.dot. nra. Qed.

Lemma cross_lagrange (a b : Vec3D) :
  Vec3D.dot (Vec3D.cross a b) (Vec3D.cross a b)
  = Vec3D.dot a a * Vec3D.dot b b - Vec3D.dot a b * Vec3D.dot a b.
Proof.
  unfold Vec3D.dot, Vec3D.cross. cbn [Vec3D.x Vec3D.y Vec3D.z]. ring.
Qed.

Lemma norm_one_dot (a : Vec3D) : Vec3D.norm a = 1 <-> Vec3D.dot a a = 1.
Proof.
  unfold Vec3D.norm. split; intros H.
  - apply sqrt_inj; [apply dot_self_nonneg | lra | rewrite sqrt_1; exact H].
  - rewrite H. apply sqrt_1.
Qed.

Lemma norm_multiply (a : Vec3D) (k : R) :
  0 <= k -> Vec3D.norm (Vec3D.multiply a k) = k * Vec3D.norm a.
Proof.
  intros Hk. unfold Vec3D.norm.
  rewrite dot_multiply_l, dot_multiply_r, <- Rmult_assoc.
  rewrite sqrt_mult; [|nra|apply dot_self_nonneg].
  fold (Rsqr k). rewrite sqrt_Rsqr by exact Hk. reflexivity.
Qed.

Lemma normalize_unit (a : Vec3D) :
  0 < Vec3D.dot a a ->
  0 < Vec3D.norm a
  /\ Vec3D.norm (Vec3D.multiply a (1 / Vec3D.norm a)) = 1.
Proof.
  intros Hpos.
  assert (Hn : 0 < Vec3D.norm a) by (apply sqrt_lt_R0, Hpos).
  split; [exact Hn|].
  rewrite norm_multiply.
  - field. lra.
  - apply Rlt_le. unfold Rdiv. rewrite Rmult_1_l. apply Rinv_0_lt_compat, Hn.
Qed.

Section Frame.
Context {host : Host}.

Lemma tangentBasis_unit_normal (normal : Vec3D) :
  Vec3D.norm normal = 1 ->
  Vec3D.norm (fst (tangentBasis normal)) = 1
  /\ Vec3D.norm (snd (tangentBasis normal)) = 1
  /\ Vec3D.dot (fst (tangentBasis normal)) normal = 0
  /\ Vec3D.dot (snd (tangentBasis normal)) normal = 0
  /\ Vec3D.dot (fst (tangentBasis normal)) (snd (tangentBasis normal)) = 0.
Proof.
  intros Hn. apply norm_one_dot in Hn. unfold tangentBasis.
  set (up := if Rgtb _ upThreshold then Vec3D.new 1 0 0
             else Vec3D.new 0 1 0).
  assert (Hraw : 0 < Vec3D.dot (Vec3D.cross normal up)
                           (Vec3D.cross normal up)).
  { assert (Hc : 0 < upThreshold < 1) by (unfold upThreshold; lra).
    subst up. destruct (Rgtb _ upThreshold) eqn:E.
    - apply Rgtb_true in E. revert E Hn.
      destruct normal as [nx ny nz].
      unfold Vec3D.dot, Vec3D.cross. cbn [Vec3D.x Vec3D.y Vec3D.z].
      unfold Rabs. destruct (Rcase_abs _); intros; nra.
    - apply Rgtb_false in E. revert E Hn.
      destruct normal as [nx ny nz].
      unfold Vec3D.dot, Vec3D.cross. cbn [Vec3D.x Vec3D.y Vec3D.z].
      unfold Rabs. destruct (Rcase_abs _); intros; nra. }
  destruct (normalize_unit _ Hraw) as [Hlen Hunit].
  rewrite (proj2 (Rgtb_true _ _) Hlen). cbn [fst snd].
  set (tangent := Vec3D.multiply (Vec3D.cross normal up) _) in *.
  assert (Hnt : Vec3D.dot normal tangent = 0).
  { subst tangent. rewrite dot_multiply_r, dot_cross_l. ring. }
  split; [exact Hunit|]. split.
  - apply norm_one_dot. rewrite cross_lagrange, Hn, Hnt.
    apply norm_one_dot in Hunit. rewrite Hunit. ring.
  - split; [rewrite dot_comm; exact Hnt|]. split.
    + rewrite dot_comm. apply dot_cross_l.
    + apply dot_cross_r.
Qed.

(** X11: around a normal of unit length the tangent frame is
    orthonormal: the tangent and the bitangent have unit length and the
    three vectors are orthogonal to one another.  The cross product
    with the reference axis is never zero there, so the guard on its
    length is not reached. *)
Theorem tangentBasis_orthonormal (normal : Vec3D) :
  Vec3D.norm normal = 1 ->
  Vec3D.norm (fst (tangentBasis normal)) = 1
  /\ Vec3D.norm (snd (tangentBasis normal)) = 1
  /\ Vec3D.dot (fst (tangentBasis normal)) normal = 0
  /\ Vec3D.dot (snd (tangentBasis normal)) normal = 0
  /\ Vec3D.dot (fst (tangentBasis normal)) (snd (tangentBasis normal)) = 0.
Proof. apply tangentBasis_unit_normal. Qed.

Lemma sampleRay_direction (worldPos normal tangent bitangent : Vec3D)
    (maxDistance bias : R) (sampleDir : Vec3D) :
  Vec3D.dot tangent tangent = 1 -> Vec3D.dot normal normal = 1 ->
  Vec3D.dot bitangent bitangent = 1 ->
  Vec3D.dot tangent normal = 0 -> Vec3D.dot bitangent normal = 0 ->
  Vec3D.dot tangent bitangent = 0 ->
  let ray := sampleRay worldPos normal tangent bitangent maxDistance bias
               sampleDir in
  Vec3D.dot (Vec3D.sub (snd ray) (fst ray)) (Vec3D.sub (snd ray) (fst ray))
  = maxDistance * maxDistance * Vec3D.dot sampleDir sampleDir
  /\ Vec3D.dot (Vec3D.sub (snd ray) (fst ray)) normal
     = maxDistance * Vec3D.y sampleDir.
Proof.
  destruct worldPos as [px py pz], normal as [nx ny nz],
    tangent as [tx ty tz], bitangent as [bx b_y bz], sampleDir as [sx sy sz].
  unfold sampleRay, Vec3D.dot, Vec3D.sub, Vec3D.add, Vec3D.multiply.
  cbn [fst snd Vec3D.x Vec3D.y Vec3D.z].
  intros Htt Hnn Hbb Htn Hbn Htb. split.
  - replace ((px + nx * bias + (tx * sx + nx * sy + bx * sz) * maxDistance
              - (px + nx * bias))
             * (px + nx * bias + (tx * sx + nx * sy + bx * sz) * maxDistance
                - (px + nx * bias))
             + (py + ny * bias + (ty * sx + ny * sy + b_y * sz) * maxDistance
                - (py + ny * bias))
               * (py + ny * bias + (ty * sx + ny * sy + b_y * sz) * maxDistance
                  - (py + ny * bias))
             + (pz + nz * bias + (tz * sx + nz * sy + bz * sz) * maxDistance
                - (pz + nz * bias))
               * (pz + nz * bias + (tz * sx + nz * sy + bz * sz) * maxDistance
                  - (pz + nz * bias)))
      with (maxDistance * maxDistance
            * (sx * sx * (tx * tx + ty * ty + tz * tz)
               + sy * sy * (nx * nx + ny * ny + nz * nz)
               + sz * sz * (bx * bx + b_y * b_y + bz * bz)
               + 2 * sx * sy * (tx * nx + ty * ny + tz * nz)
               + 2 * sy * sz * (bx * nx + b_y * ny + bz * nz)
               + 2 * sx * sz * (tx * bx + ty * b_y + tz * bz)))
      by ring.
    rewrite Htt, Hnn, Hbb, Htn, Hbn, Htb. ring.
  - replace ((px + nx * bias + (tx * sx + nx * sy + bx * sz) * maxDistance
              - (px + nx * bias)) * nx
             + (py + ny * bias + (ty * sx + ny * sy + b_y * sz) * maxDistance
                - (py + ny * bias)) * ny
             + (pz + nz * bias + (tz * sx + nz * sy + bz * sz) * maxDistance
                - (pz + nz * bias)) * nz)
      with (maxDistance
            * (sx * (tx * nx + ty * ny + tz * nz)
               + sy * (nx * nx + ny * ny + nz * nz)
               + sz * (bx * nx + b_y * ny + bz * nz)))
      by ring.
    rewrite Htn, Hnn, Hbn. ring.
Qed.

(** X12: the sample rays around a unit normal.  For a sample direction
    of unit length and a distance that is not negative, the segment
    starts at the vertex moved by [bias] along the normal, has exactly
    the length [maxDistance], and its component along the normal is
    [maxDistance] times the [y] of the sample: a sample of the upper
    hemisphere never points below the surface. *)
Theorem sampleRay_unit_normal (worldPos normal : Vec3D)
    (maxDistance bias : R) (sampleDir : Vec3D) :
  Vec3D.norm normal = 1 -> Vec3D.norm sampleDir = 1 -> 0 <= maxDistance ->
  let ray := sampleRay worldPos normal (fst (tangentBasis normal))
               (snd (tangentBasis normal)) maxDistance bias sampleDir in
  fst ray = Vec3D.add worldPos (Vec3D.multiply normal bias)
  /\ Vec3D.norm (Vec3D.sub (snd ray) (fst ray)) = maxDistance
  /\ Vec3D.dot (Vec3D.sub (snd ray) (fst ray)) normal
     = maxDistance * Vec3D.y sampleDir.
Proof.
  intros Hn Hs Hd.
  destruct (tangentBasis_unit_normal normal Hn) as (Ht & Hb & Htn & Hbn & Htb).
  apply norm_one_dot in Hn, Hs, Ht, Hb.
  destruct (sampleRay_direction worldPos normal (fst (tangentBasis normal))
              (snd (tangentBasis normal)) maxDistance bias sampleDir
              Ht Hn Hb Htn Hbn Htb) as [Hlen Hdot].
  cbn zeta. split; [reflexivity|]. split; [|exact Hdot].
  unfold Vec3D.norm. rewrite Hlen, Hs, Rmult_1_r.
  fold (Rsqr maxDistance). apply sqrt_Rsqr, Hd.
Qed.

Lemma cross_zero_l (a : Vec3D) :
  Vec3D.cross (Vec3D.new 0 0 0) a = Vec3D.new 0 0 0.
Proof.
  apply Vec3D_eq; cbn [Vec3D.cross Vec3D.x Vec3D.y Vec3D.z]; ring.
Qed.

Lemma tangentBasis_zero :
  tangentBasis (Vec3D.new 0 0 0) = (Vec3D.new 0 0 0, Vec3D.new 0 0 0).
Proof.
  unfold tangentBasis. rewrite !cross_zero_l, norm_of_zero.
  assert (E : Rgtb 0 0 = false) by (apply Rgtb_false; lra).
  rewrite E. reflexivity.
Qed.

Lemma sampleRay_zero_normal (worldPos : Vec3D) (maxDistance bias : R)
    (sampleDir : Vec3D) :
  Vec3D.sub
    (snd (sampleRay worldPos (Vec3D.new 0 0 0) (Vec3D.new 0 0 0)
            (Vec3D.new 0 0 0) maxDistance bias sampleDir))
    (fst (sampleRay worldPos (Vec3D.new 0 0 0) (Vec3D.new 0 0 0)
            (Vec3D.new 0 0 0) maxDistance bias sampleDir))
  = Vec3D.new 0 0 0.
Proof.
  unfold sampleRay. cbn [fst snd].
  apply Vec3D_eq;
    cbn [Vec3D.sub Vec3D.add Vec3D.multiply Vec3D.x Vec3D.y Vec3D.z]; ring.
Qed.

Lemma calculateOcclusion_zero_normal (worldPos : Vec3D)
    (sampleDirections : list Vec3D) (allMeshes : list Mesh)
    (maxDistance bias : R) :
  calculateOcclusion worldPos (Vec3D.new 0 0 0) sampleDirections allMeshes
    maxDistance bias = 1.
Proof.
  rewrite calculateOcclusion_count. unfold occludedCount.
  rewrite tangentBasis_zero. cbn [fst snd].
  assert (E : forall l : list Vec3D,
             List.filter
               (fun sampleDir =>
                  rayIntersectsAnyMesh
                    (fst (sampleRay worldPos (Vec3D.new 0 0 0)
                            (Vec3D.new 0 0 0) (Vec3D.new 0 0 0) maxDistance
                            bias sampleDir))
                    (snd (sampleRay worldPos (Vec3D.new 0 0 0)
                            (Vec3D.new 0 0 0) (Vec3D.new 0 0 0) maxDistance
                            bias sampleDir))
                    allMeshes) l = []).
  { induction l as [|d l IH]; [reflexivity|].
    cbn [List.filter]. unfold rayIntersectsAnyMesh at 1.
    rewrite sampleRay_zero_normal, norm_of_zero.
    assert (Ez : Reqb 0 0 = true) by (apply Reqb_true; reflexivity).
    rewrite Ez. exact IH. }
  rewrite E. cbn [length INR]. unfold Rdiv. ring.
Qed.

(** X10: a vertex whose face normals cancel is never shadowed.  With
    the zero vector for a normal every sample segment has zero length,
    no query is answered true, and the accessibility is 1 whatever the
    occluders; this is the accessibility of a vertex whose averaged
    normal has zero length (for a sample set that is not empty). *)
Theorem calculateOcclusion_cancelled_normal (core : Core) (v : nat)
    (matrix : Mat4D) (worldPos : Vec3D) (sampleDirections : list Vec3D)
    (allMeshes : list Mesh) (maxDistance bias : R) :
  sampleDirections <> [] ->
  incidentPolygons core v <> [] ->
  Vec3D.norm (averagedWorldNormal core v matrix) = 0 ->
  calculateOcclusion worldPos (calculateVertexNormal core v matrix)
    sampleDirections allMeshes maxDistance bias = 1.
Proof.
  intros _ Hinc Hzero.
  rewrite calculateVertexNormal_zero_length by assumption.
  apply calculateOcclusion_zero_normal.
Qed.
End Frame.

(** ** More on the normal estimator *)

Lemma norm_up : Vec3D.norm (Vec3D.new 0 1 0) = 1.
Proof.
  apply norm_one_dot. unfold Vec3D.dot. cbn [Vec3D.x Vec3D.y Vec3D.z]. ring.
Qed.

Lemma norm_nonzero_dot (a : Vec3D) : Vec3D.norm a <> 0 -> 0 < Vec3D.dot a a.
Proof.
  intros H. pose proof (dot_self_nonneg a) as Hd.
  destruct (Rle_lt_or_eq_dec _ _ Hd) as [Hlt | Heq]; [exact Hlt|].
  exfalso. apply H. unfold Vec3D.norm. rewrite <- Heq. apply sqrt_0.
Qed.

Lemma sum_equal_normals (core : Core) (n : Vec3D) (ps : list nat)
    (acc : Vec3D) :
  (forall p, In p ps -> Core.normal core p = n) ->
  fold_left Vec3D.add (map (Core.normal core) ps) acc
  = Vec3D.add acc (Vec3D.multiply n (INR (length ps))).
Proof.
  revert acc. induction ps as [|p ps IH]; intros acc Hall.
  - cbn [map fold_left length INR].
    apply Vec3D_eq;
      cbn [Vec3D.add Vec3D.multiply Vec3D.x Vec3D.y Vec3D.z]; ring.
  - cbn [map fold_left]. rewrite IH by (intros q Hq; apply Hall; right; exact Hq).
    rewrite (Hall p) by (left; reflexivity).
    change (length (p :: ps)) with (S (length ps)). rewrite S_INR.
    apply Vec3D_eq;
      cbn [Vec3D.add Vec3D.multiply Vec3D.x Vec3D.y Vec3D.z]; ring.
Qed.

Section NormalShape.
Context {host : Host}.

(** X13: the estimated normal has unit length, with one exception.  The
    result of [calculateVertexNormal] has length 1 when no polygon
    uses the vertex and when the averaged normal is not zero; in the
    remaining case it is the zero vector.  So it always has length 1
    or is the zero vector. *)
Theorem calculateVertexNormal_unit_or_zero (core : Core) (v : nat)
    (matrix : Mat4D) :
  (incidentPolygons core v = []
   \/ Vec3D.norm (averagedWorldNormal core v matrix) <> 0 ->
   Vec3D.norm (calculateVertexNormal core v matrix) = 1)
  /\ (Vec3D.norm (calculateVertexNormal core v matrix) = 1
      \/ calculateVertexNormal core v matrix = Vec3D.new 0 0 0).
Proof.
  assert (Hunit : incidentPolygons core v = []
                  \/ Vec3D.norm (averagedWorldNormal core v matrix) <> 0 ->
                  Vec3D.norm (calculateVertexNormal core v matrix) = 1).
  { intros [Hiso | Hnz].
    - rewrite calculateVertexNormal_isolated by exact Hiso. apply norm_up.
    - destruct (incidentPolygons core v) eqn:E.
      + rewrite calculateVertexNormal_isolated by exact E. apply norm_up.
      + rewrite calculateVertexNormal_normalized;
          [|rewrite E; discriminate | exact Hnz].
        apply normalize_unit, norm_nonzero_dot, Hnz. }
  split; [exact Hunit|].
  destruct (incidentPolygons core v) eqn:E.
  - left. apply Hunit. left. reflexivity.
  - destruct (Req_dec_T (Vec3D.norm (averagedWorldNormal core v matrix)) 0)
      as [Hz | Hnz].
    + right. apply calculateVertexNormal_zero_length;
        [rewrite E; discriminate | exact Hz].
    + left. apply Hunit. right. exact Hnz.
Qed.

(** X14: the number of faces does not matter when they agree.  If every
    polygon that uses the vertex has the same face normal [n], the
    result is the one for [n] alone: [n] taken to world space as a
    vector, scaled to unit length unless it is zero. *)
Theorem calculateVertexNormal_equal_normals (core : Core) (v : nat)
    (matrix : Mat4D) (n : Vec3D) :
  incidentPolygons core v <> [] ->
  (forall p, In p (incidentPolygons core v) -> Core.normal core p = n) ->
  let world :=
    Vec3D.sub (Mat4D_multiply matrix n)
              (Mat4D_multiply matrix (Vec3D.new 0 0 0)) in
  calculateVertexNormal core v matrix
  = if Rgtb (Vec3D.norm world) 0
    then Vec3D.multiply world (1 / Vec3D.norm world)
    else world.
Proof.
  intros Hne Hall. cbn zeta.
  rewrite calculateVertexNormal_incident by exact Hne.
  assert (E : averagedWorldNormal core v matrix
              = Vec3D.sub (Mat4D_multiply matrix n)
                          (Mat4D_multiply matrix (Vec3D.new 0 0 0))).
  { unfold averagedWorldNormal, accumulatedNormal.
    rewrite (sum_equal_normals core n _ _ Hall).
    assert (Hk : INR (length (incidentPolygons core v)) <> 0).
    { apply not_0_INR. destruct (incidentPolygons core v);
        [contradiction | discriminate]. }
    replace (Vec3D.multiply
               (Vec3D.add (Vec3D.new 0 0 0)
                  (Vec3D.multiply n (INR (length (incidentPolygons core v)))))
               (1 / INR (length (incidentPolygons core v))))
      with n; [reflexivity|].
    apply Vec3D_eq;
      cbn [Vec3D.add Vec3D.multiply Vec3D.x Vec3D.y Vec3D.z]; field; exact Hk. }
  rewrite E. reflexivity.
Qed.
End NormalShape.

(** ** More on the hemisphere sampler *)

Lemma map_seq_offset {A : Type} (f : nat -> A) (a b : nat) :
  map f (seq a b) = map (fun i => f (a + i)%nat) (seq 0 b).
Proof.
  revert a. induction b as [|b IH]; intros a; [reflexivity|].
  cbn [seq map]. rewrite Nat.add_0_r. f_equal.
  rewrite IH, <- (seq_shift b 0), map_map. apply map_ext.
  intros i. f_equal. lia.
Qed.

Lemma drawnDirection_advance (a : nat) (w : World) (i : nat) :
  drawnDirection (advance (2 * a) w) i = drawnDirection w (a + i).
Proof.
  unfold drawnDirection, advance. cbn [rng draws position].
  replace (2 * a + position (rng w) + 2 * i)%nat
    with (position (rng w) + 2 * (a + i))%nat by lia.
  reflexivity.
Qed.

(** X15: what the sampler does to the random source, and how two calls
    compose.  A call for [count] directions makes [2 * count] draws and
    touches nothing else; a call for [a + b] directions returns what a
    call for [a] followed by a call for [b] return, in that order. *)
Theorem generateHemisphereSamples_compose :
  (forall count w,
      snd (generateHemisphereSamples count w) = advance (2 * count) w)
  /\ (forall a b w,
      fst (generateHemisphereSamples (a + b) w)
      = fst (generateHemisphereSamples a w)
        ++ fst (generateHemisphereSamples b
                  (snd (generateHemisphereSamples a w)))).
Proof.
  unfold generateHemisphereSamples. split.
  - intros count w. rewrite hemisphereLoop_run. reflexivity.
  - intros a b w. rewrite !hemisphereLoop_run. cbn [fst snd app].
    rewrite seq_app, map_app. f_equal. cbn [Nat.add].
    rewrite map_seq_offset. apply map_ext.
    intros i. symmetry. apply drawnDirection_advance.
Qed.

Lemma hemisphereDirection_disc (u v : R) :
  0 <= v < 1 ->
  Vec3D.x (hemisphereDirection u v) * Vec3D.x (hemisphereDirection u v)
  + Vec3D.z (hemisphereDirection u v) * Vec3D.z (hemisphereDirection u v)
  = 1 - v.
Proof.
  intros Hv.
  pose proof (hemisphereDirection_unit u v) as Hn. apply norm_one_dot in Hn.
  pose proof (hemisphereDirection_y u v Hv) as Hy.
  unfold Vec3D.dot in Hn. rewrite Hy in Hn.
  rewrite sqrt_sqrt in Hn by lra. lra.
Qed.

(** X16: the height of a sample is the square root of its second draw.
    With the draws in [0, 1), the [i]-th direction has
    [y = sqrt v], so [0 <= y < 1], and [x^2 + z^2 = 1 - v], where [v]
    is the second draw of its pair: the samples are denser towards the
    pole, the pole itself is never returned, and [v = 0] gives a
    direction in the tangent plane. *)
Theorem generateHemisphereSamples_height (count : nat) (w : World)
    (i : nat) (d : Vec3D) :
  (forall k, 0 <= draws (rng w) k < 1) ->
  nth_error (fst (generateHemisphereSamples count w)) i = Some d ->
  let v := draws (rng w) (position (rng w) + 2 * i + 1) in
  Vec3D.y d = sqrt v
  /\ 0 <= Vec3D.y d < 1
  /\ Vec3D.x d * Vec3D.x d + Vec3D.z d * Vec3D.z d = 1 - v.
Proof.
  intros Hdraws Hnth. cbn zeta.
  unfold generateHemisphereSamples in Hnth.
  rewrite hemisphereLoop_run in Hnth. cbn [fst app] in Hnth.
  rewrite nth_error_map, nth_error_seq in Hnth.
  destruct (Nat.ltb i count); [|discriminate].
  cbn [option_map Nat.add] in Hnth. injection Hnth as <-.
  unfold drawnDirection.
  pose proof (Hdraws (position (rng w) + 2 * i + 1)%nat) as Hv.
  rewrite hemisphereDirection_y by exact Hv.
  split; [reflexivity|]. split.
  - split; [apply sqrt_pos|].
    rewrite <- sqrt_1. apply sqrt_lt_1; lra.
  - apply hemisphereDirection_disc, Hv.
Qed.

(** ** More on the writes of a vertex and of a mesh *)

Lemma writePolygons_lookup (core : Core) (v : nat) (value : Vec4D)
    (n : nat) (uv : gmap (nat * nat) Vec4D) (p c : nat) :
  writePolygons core v value (seq 0 n) uv !! (p, c)
  = if Nat.ltb p n && Nat.ltb c (Core.polygonSize core p)
       && Nat.eqb (Core.vertexIndex core p c) v
    then Some value else uv !! (p, c).
Proof.
  destruct (Nat.ltb_spec p n) as [Hp | Hp];
    [destruct (Nat.ltb_spec c (Core.polygonSize core p)) as [Hc | Hc];
     [destruct (Nat.eqb_spec (Core.vertexIndex core p c) v) as [Hv | Hv]|]|];
    cbn [andb].
  - apply writePolygons_hit; [apply in_seq; lia | exact Hc | exact Hv].
  - apply writePolygons_miss. intros (_ & _ & H). contradiction.
  - apply writePolygons_miss. intros (_ & H & _). lia.
  - apply writePolygons_miss. intros (H & _). apply in_seq in H. lia.
Qed.

Lemma withUV_withUV (core : Core) (uv uv' : gmap (nat * nat) Vec4D) :
  Core.withUV (Core.withUV core uv) uv' = Core.withUV core uv'.
Proof. reflexivity. Qed.

Section WriteAlgebra.
Context {host : Host}.

Lemma setVertexColor_core (core : Core) (v : nat) (color : Vec4D) :
  setVertexColor core v color
  = Core.withUV core
      (writePolygons core v (Vec4D.new (Vec4D.x color) 0 0 0)
         (seq 0 (Core.polygonCount core)) (Core.uvCoord core)).
Proof.
  rewrite <- setVertexColor_store, withUV_uvCoord. reflexivity.
Qed.

(** X17: [setVertexColor] changes the attribute store and nothing else,
    and writing the same colour for the same vertex again changes
    nothing: putting the old store back gives the core it started
    from, and the write is idempotent. *)
Theorem setVertexColor_idempotent (core : Core) (v : nat) (color : Vec4D) :
  Core.withUV (setVertexColor core v color) (Core.uvCoord core) = core
  /\ setVertexColor (setVertexColor core v color) v color
     = setVertexColor core v color.
Proof.
  split.
  - rewrite setVertexColor_core, withUV_withUV. apply withUV_uvCoord.
  - rewrite (setVertexColor_core core). rewrite setVertexColor_store.
    f_equal. apply map_eq. intros [p c].
    rewrite !writePolygons_lookup.
    destruct (_ && _ && _); reflexivity.
Qed.

(** X18: the writes of two different vertices do not meet: no corner
    is written by both, and the two writes give the same core in
    either order. *)
Theorem setVertexColor_commute (core : Core) (v1 v2 : nat)
    (color1 color2 : Vec4D) :
  v1 <> v2 ->
  setVertexColor (setVertexColor core v1 color1) v2 color2
  = setVertexColor (setVertexColor core v2 color2) v1 color1.
Proof.
  intros Hne.
  rewrite (setVertexColor_core core v1), (setVertexColor_core core v2).
  rewrite !setVertexColor_store. f_equal. apply map_eq. intros [p c].
  rewrite !writePolygons_lookup.
  destruct (Nat.eqb_spec (Core.vertexIndex core p c) v1) as [H1 | H1],
    (Nat.eqb_spec (Core.vertexIndex core p c) v2) as [H2 | H2];
    [exfalso; apply Hne; rewrite <- H1, <- H2; reflexivity | | |];
    rewrite ?andb_true_r, ?andb_false_r; try destruct (_ && _);
    reflexivity.
Qed.

Lemma writeVertices_outside (meshMatrix : Mat4D) (allMeshes : list Mesh)
    (sampleDirections : list Vec3D) (maxDistance bias intensity : R)
    (invert : bool) (core : Core) (vs : list nat)
    (uv : gmap (nat * nat) Vec4D) (p c : nat) :
  ~ ((p < Core.polygonCount core)%nat /\ (c < Core.polygonSize core p)%nat) ->
  writeVertices meshMatrix core allMeshes sampleDirections maxDistance bias
    intensity invert vs uv !! (p, c)
  = uv !! (p, c).
Proof.
  unfold writeVertices. revert uv.
  induction vs as [|v vs IH]; intros uv Hout; [reflexivity|].
  cbn [fold_left]. rewrite IH by exact Hout.
  apply writePolygons_miss. intros (Hp & Hc & _). apply Hout.
  apply in_seq in Hp. split; [lia | exact Hc].
Qed.

Lemma writeVertices_lookup (meshMatrix : Mat4D) (allMeshes : list Mesh)
    (sampleDirections : list Vec3D) (maxDistance bias intensity : R)
    (invert : bool) (core : Core) (n : nat)
    (uv : gmap (nat * nat) Vec4D) (p c : nat) :
  writeVertices meshMatrix core allMeshes sampleDirections maxDistance bias
    intensity invert (seq 0 n) uv !! (p, c)
  = if Nat.ltb p (Core.polygonCount core)
       && Nat.ltb c (Core.polygonSize core p)
       && Nat.ltb (Core.vertexIndex core p c) n
    then Some (Vec4D.new
                 (vertexOcclusion meshMatrix core allMeshes sampleDirections
                    maxDistance bias intensity invert
                    (Core.vertexIndex core p c)) 0 0 0)
    else uv !! (p, c).
Proof.
  destruct (Nat.ltb_spec p (Core.polygonCount core)) as [Hp | Hp];
    [destruct (Nat.ltb_spec c (Core.polygonSize core p)) as [Hc | Hc];
     [destruct (Nat.ltb_spec (Core.vertexIndex core p c) n) as [Hv | Hv]|]|];
    cbn [andb].
  - apply writeVertices_hit; [exact Hp | exact Hc | apply in_seq; lia].
  - apply writeVertices_miss. intros H. apply in_seq in H. lia.
  - apply writeVertices_outside. intros [_ H]. lia.
  - apply writeVertices_outside. intros [H _]. lia.
Qed.

Lemma bakeMeshAO_core (meshObj : Obj) (core : Core) (allMeshes : list Mesh)
    (sampleRays : nat) (maxDistance bias intensity : R) (invert : bool)
    (w : World) :
  fst (bakeMeshAO meshObj core allMeshes sampleRays maxDistance bias
         intensity invert w)
  = Core.withUV core
      (writeVertices (Obj.obj2WorldMatrix meshObj) core allMeshes
         (fst (generateHemisphereSamples sampleRays w)) maxDistance bias
         intensity invert (seq 0 (Core.vertexCount core))
         (Core.uvCoord core)).
Proof. rewrite bakeMeshAO_run. cbn [fst]. apply bakeVertices_core. Qed.

(** X19: what a bake of a mesh leaves alone.  The geometry of the core
    is untouched: putting the old attribute store back gives the core
    it started from.  In the store, every key that is not a corner of
    a polygon of the mesh, and every corner whose vertex index is not
    below the vertex count, keeps the value, or the absence of a
    value, it had. *)
Theorem bakeMeshAO_frame (meshObj : Obj) (core : Core)
    (allMeshes : list Mesh) (sampleRays : nat)
    (maxDistance bias intensity : R) (invert : bool) (w : World) :
  Core.withUV
    (fst (bakeMeshAO meshObj core allMeshes sampleRays maxDistance bias
            intensity invert w))
    (Core.uvCoord core) = core
  /\ forall p c,
       ~ ((p < Core.polygonCount core)%nat
          /\ (c < Core.polygonSize core p)%nat
          /\ (Core.vertexIndex core p c < Core.vertexCount core)%nat) ->
       Core.uvCoord
         (fst (bakeMeshAO meshObj core allMeshes sampleRays maxDistance bias
                 intensity invert w)) !! (p, c)
       = Core.uvCoord core !! (p, c).
Proof.
  rewrite bakeMeshAO_core. split.
  - rewrite withUV_withUV. apply withUV_uvCoord.
  - intros p c Hout. cbn [Core.withUV Core.uvCoord].
    rewrite writeVertices_lookup.
    destruct (Nat.ltb_spec p (Core.polygonCount core)) as [Hp | Hp];
      [|reflexivity].
    destruct (Nat.ltb_spec c (Core.polygonSize core p)) as [Hc | Hc];
      [|reflexivity].
    destruct (Nat.ltb_spec (Core.vertexIndex core p c)
                (Core.vertexCount core)) as [Hv | Hv]; [|reflexivity].
    exfalso. apply Hout. repeat split; assumption.
Qed.

(** X20: a bake overwrites.  What a bake leaves on the corners of the
    mesh does not depend on what the store held before: baking the
    result of a bake again, with the same draws, gives the same core
    as the first bake. *)
Theorem bakeMeshAO_again (meshObj : Obj) (core : Core)
    (allMeshes : list Mesh) (sampleRays : nat)
    (maxDistance bias intensity : R) (invert : bool) (w : World) :
  fst (bakeMeshAO meshObj
         (fst (bakeMeshAO meshObj core allMeshes sampleRays maxDistance bias
                 intensity invert w))
         allMeshes sampleRays maxDistance bias intensity invert w)
  = fst (bakeMeshAO meshObj core allMeshes sampleRays maxDistance bias
           intensity invert w).
Proof.
  rewrite (bakeMeshAO_core meshObj core). rewrite bakeMeshAO_run. cbn [fst].
  rewrite bakeVertices_store. f_equal. apply map_eq. intros [p c].
  rewrite !writeVertices_lookup.
  destruct (_ && _ && _); reflexivity.
Qed.
End WriteAlgebra.

(** ** More on the walk over the object tree *)

Lemma map_insert_same {A B : Type} (f : A -> B) (l : list A) (i : nat)
    (x y : A) :
  nth_error l i = Some x -> f y = f x -> map f (<[i := y]> l) = map f l.
Proof.
  revert i. induction l as [|a l IH]; intros [|i] Hnth Hf; try discriminate.
  - cbn in Hnth. injection Hnth as ->. cbn. rewrite Hf. reflexivity.
  - cbn in Hnth. cbn. f_equal. apply (IH i); assumption.
Qed.

Lemma insert_same {A : Type} (l : list A) (i : nat) (x : A) :
  nth_error l i = Some x -> <[i := x]> l = l.
Proof.
  revert i. induction l as [|a l IH]; intros [|i] Hnth; try discriminate.
  - cbn in Hnth. injection Hnth as ->. reflexivity.
  - cbn in Hnth. cbn. f_equal. apply (IH i), Hnth.
Qed.

Section WalkEffects.
Context {host : Host}.

Lemma withCoreChildren_same (obj : Obj) :
  Obj.withCoreChildren obj (Obj.core obj) (Obj.children obj) = obj.
Proof. destruct obj. reflexivity. Qed.

Lemma bakeMeshAO_trace (meshObj : Obj) (core : Core) (allMeshes : list Mesh)
    (sampleRays : nat) (maxDistance bias intensity : R) (invert : bool)
    (w : World) :
  trace (snd (bakeMeshAO meshObj core allMeshes sampleRays maxDistance bias
                intensity invert w)) = trace w.
Proof. rewrite bakeMeshAO_run. reflexivity. Qed.

Lemma processSelf_trace (obj : Obj) (allMeshes : list Mesh)
    (sampleRays : nat) (maxDistance bias intensity : R) (invert : bool)
    (count : nat) (w : World) :
  trace (snd (processSelf obj allMeshes sampleRays maxDistance bias intensity
                invert count w))
  = trace w ++ bakeTraceSelf obj.
Proof.
  unfold processSelf, bakeTraceSelf.
  destruct (Family_eqb (Obj.family obj) NGONFAMILY);
    [destruct (Obj.core obj) as [core|];
     [destruct (Nat.ltb 0 (Core.vertexCount core))|]|].
  - unfold mbind, M_bind. cbn [emit print mret M_ret fst snd].
    rewrite bakeMeshAO_run. unfold mret, M_ret. cbn [fst snd trace advance].
    rewrite <- !app_assoc. reflexivity.
  - cbn [mret M_ret snd]. rewrite app_nil_r. reflexivity.
  - cbn [mret M_ret snd]. rewrite app_nil_r. reflexivity.
  - cbn [mret M_ret snd]. rewrite app_nil_r. reflexivity.
Qed.

Lemma forChildren_trace (body : Obj -> nat -> M (Obj * nat))
    (cs : list Obj) :
  Forall
    (fun c => forall count w,
       trace (snd (body c count w)) = trace w ++ bakeTrace c)
    cs ->
  forall count w,
    trace (snd (forChildren body cs count w))
    = trace w ++ concat (map bakeTrace cs).
Proof.
  induction 1 as [|c cs Hc _ IH]; intros count w.
  - unfold forChildren, mret, M_ret. cbn [snd map concat].
    rewrite app_nil_r. reflexivity.
  - rewrite forChildren_cons. cbn [snd map concat].
    rewrite IH, Hc, app_assoc. reflexivity.
Qed.

Lemma processMeshesRecursively_trace (allMeshes : list Mesh)
    (sampleRays : nat) (maxDistance bias intensity : R) (invert : bool)
    (obj : Obj) :
  forall count w,
    trace (snd (processMeshesRecursively obj allMeshes sampleRays
                  maxDistance bias intensity invert count w))
    = trace w ++ bakeTrace obj.
Proof.
  induction obj as [obj IH] using Obj_tree_ind. intros count w.
  rewrite processMeshesRecursively_node. cbn zeta. cbn [snd].
  rewrite (forChildren_trace
             (fun c count =>
                processMeshesRecursively c allMeshes sampleRays maxDistance
                  bias intensity invert count)
             (Obj.children obj) IH).
  rewrite processSelf_trace, <- app_assoc.
  destruct obj; reflexivity.
Qed.

(** X21: the host calls of a bake.  A walk returns the count it was
    given plus the number of meshes it baked, and calls the host, for
    each baked mesh in the order of the walk, to record the geometry
    for undo, then, after the mesh is written, to update it and to
    print its name.  A bake with a selection prints its three opening
    lines, makes these calls, redraws, and prints the number of baked
    meshes. *)
Theorem bakeAmbientOcclusion_host_calls :
  (forall obj allMeshes sampleRays maxDistance bias intensity invert count w,
      snd (fst (processMeshesRecursively obj allMeshes sampleRays maxDistance
                  bias intensity invert count w))
      = (count + bakedMeshes obj)%nat
      /\ trace (snd (processMeshesRecursively obj allMeshes sampleRays
                       maxDistance bias intensity invert count w))
         = trace w ++ bakeTrace obj)
  /\ (forall tool selectedObj w,
      selectedObject (document tool) = Some selectedObj ->
      trace (snd (bakeAmbientOcclusion tool w))
      = trace w
        ++ [Print [Lit "Starting Ambient Occlusion baking..."];
            Print [Lit "Sample Rays: "; Int (sampleRaysParam tool)];
            Print [Lit "Max Distance: "; Num (maxDistanceParam tool)]]
        ++ bakeTrace selectedObj
        ++ [RedrawAll;
            Print [Lit "Ambient Occlusion baking complete. Processed ";
                   Int (bakedMeshes selectedObj); Lit " meshes."]]).
Proof.
  split.
  - intros. split.
    + apply processMeshesRecursively_random.
    + apply processMeshesRecursively_trace.
  - intros tool selectedObj w Hsel. unfold bakeAmbientOcclusion.
    rewrite Hsel. unfold mbind, M_bind. cbn [print emit fst snd].
    match goal with
    | |- context [processMeshesRecursively ?o ?m ?n ?d ?b ?i ?v ?c ?w0] =>
        pose proof (processMeshesRecursively_random m n d b i v o c w0)
          as [Hn _];
        pose proof (processMeshesRecursively_trace m n d b i v o c w0) as Ht;
        destruct (processMeshesRecursively o m n d b i v c w0)
          as [[sel' n'] w'] eqn:E
    end.
    cbn [fst snd trace rng mret M_ret] in *. unfold mret, M_ret.
    cbn [snd trace]. rewrite Ht, Hn. cbn [Nat.add].
    rewrite <- !app_assoc. reflexivity.
Qed.

Lemma processSelf_erase (obj : Obj) (allMeshes : list Mesh)
    (sampleRays : nat) (maxDistance bias intensity : R) (invert : bool)
    (count : nat) (w : World) :
  option_map (fun core => Core.withUV core ∅)
    (fst (fst (processSelf obj allMeshes sampleRays maxDistance bias
                 intensity invert count w)))
  = option_map (fun core => Core.withUV core ∅) (Obj.core obj).
Proof.
  unfold processSelf.
  destruct (Family_eqb (Obj.family obj) NGONFAMILY);
    [destruct (Obj.core obj) as [core|] eqn:Ecore;
     [destruct (Nat.ltb 0 (Core.vertexCount core))|]|]; try reflexivity.
  unfold mbind, M_bind. cbn [emit print mret M_ret fst snd].
  rewrite bakeMeshAO_run. unfold mret, M_ret. cbn [fst snd option_map].
  rewrite bakeVertices_core. reflexivity.
Qed.

Lemma forChildren_erase (body : Obj -> nat -> M (Obj * nat))
    (cs : list Obj) :
  Forall
    (fun c => forall count w,
       eraseAttributes (fst (fst (body c count w))) = eraseAttributes c)
    cs ->
  forall count w,
    map eraseAttributes (fst (fst (forChildren body cs count w)))
    = map eraseAttributes cs.
Proof.
  induction 1 as [|c cs Hc _ IH]; intros count w.
  - reflexivity.
  - rewrite forChildren_cons. cbn [fst snd map]. rewrite Hc, IH. reflexivity.
Qed.

Lemma processMeshesRecursively_erase (allMeshes : list Mesh)
    (sampleRays : nat) (maxDistance bias intensity : R) (invert : bool)
    (obj : Obj) :
  forall count w,
    eraseAttributes
      (fst (fst (processMeshesRecursively obj allMeshes sampleRays
                   maxDistance bias intensity invert count w)))
    = eraseAttributes obj.
Proof.
  induction obj as [obj IH] using Obj_tree_ind. intros count w.
  rewrite processMeshesRecursively_node. cbn zeta. cbn [fst].
  pose proof (forChildren_erase
                (fun c count =>
                   processMeshesRecursively c allMeshes sampleRays
                     maxDistance bias intensity invert count)
                (Obj.children obj) IH) as Hcs.
  pose proof (processSelf_erase obj allMeshes sampleRays maxDistance bias
                intensity invert count w) as Hself.
  destruct obj as [f co mc mat nm cs].
  cbn [eraseAttributes Obj.withCoreChildren Obj.family Obj.core Obj.modCore
       Obj.obj2WorldMatrix Obj.name Obj.children] in *.
  rewrite Hself, Hcs. reflexivity.
Qed.

Lemma replaceSubtree_erase (path : list nat) :
  forall obj old new,
    subtree obj path = Some old ->
    eraseAttributes new = eraseAttributes old ->
    eraseAttributes (replaceSubtree obj path new) = eraseAttributes obj.
Proof.
  induction path as [|i path IH]; intros obj old new Hsub Hnew.
  - cbn in Hsub. injection Hsub as ->. exact Hnew.
  - cbn [subtree replaceSubtree] in *.
    destruct (nth_error (Obj.children obj) i) as [c|] eqn:Ec; [|discriminate].
    pose proof (IH c old new Hsub Hnew) as Hc.
    destruct obj as [f co mc mat nm cs].
    cbn [eraseAttributes Obj.withCoreChildren Obj.family Obj.core Obj.modCore
         Obj.obj2WorldMatrix Obj.name Obj.children] in *.
    f_equal. apply (map_insert_same eraseAttributes cs i c); assumption.
Qed.

Lemma replaceSubtree_same (path : list nat) :
  forall obj old, subtree obj path = Some old ->
                  replaceSubtree obj path old = obj.
Proof.
  induction path as [|i path IH]; intros obj old Hsub.
  - cbn in Hsub. injection Hsub as ->. reflexivity.
  - cbn [subtree replaceSubtree] in *.
    destruct (nth_error (Obj.children obj) i) as [c|] eqn:Ec; [|discriminate].
    rewrite (IH c old Hsub), (insert_same _ _ _ Ec).
    apply withCoreChildren_same.
Qed.

(** X22: a bake writes attributes and nothing else.  After a walk the
    tree has the families, the matrices, the names, the modified cores,
    the children and the geometry of every core it had: with the
    attribute stores emptied the tree after is the tree before.  The
    same holds of the whole document after a bake, and the selection
    is the one it was. *)
Theorem bakeAmbientOcclusion_only_attributes :
  (forall obj allMeshes sampleRays maxDistance bias intensity invert count w,
      eraseAttributes
        (fst (fst (processMeshesRecursively obj allMeshes sampleRays
                     maxDistance bias intensity invert count w)))
      = eraseAttributes obj)
  /\ (forall tool w,
      eraseAttributes (root (fst (bakeAmbientOcclusion tool w)))
      = eraseAttributes (root (document tool))
      /\ selection (fst (bakeAmbientOcclusion tool w))
         = selection (document tool)).
Proof.
  split.
  - intros. apply processMeshesRecursively_erase.
  - intros tool w. unfold bakeAmbientOcclusion.
    destruct (selectedObject (document tool)) as [sel|] eqn:Hsel;
      [|split; reflexivity].
    unfold mbind, M_bind. cbn [print emit fst snd].
    match goal with
    | |- context [processMeshesRecursively ?o ?m ?n ?d ?b ?i ?v ?c ?w0] =>
        pose proof (processMeshesRecursively_erase m n d b i v o c w0) as He;
        destruct (processMeshesRecursively o m n d b i v c w0)
          as [[sel' n'] w'] eqn:E
    end.
    cbn [fst snd mret M_ret] in *. unfold mret, M_ret. cbn [fst].
    unfold withSelected, selectedObject in *.
    destruct (selection (document tool)) as [path|] eqn:Epath;
      [|discriminate].
    cbn [root selection]. split; [|reflexivity].
    apply (replaceSubtree_erase path _ sel sel' Hsel He).
Qed.

Lemma processSelf_idle (obj : Obj) (allMeshes : list Mesh)
    (sampleRays : nat) (maxDistance bias intensity : R) (invert : bool)
    (count : nat) (w : World) :
  bakedSelf obj = 0%nat ->
  processSelf obj allMeshes sampleRays maxDistance bias intensity invert
    count w = (Obj.core obj, count, w).
Proof.
  unfold processSelf, bakedSelf.
  destruct (Family_eqb (Obj.family obj) NGONFAMILY);
    [destruct (Obj.core obj) as [core|];
     [destruct (Nat.ltb 0 (Core.vertexCount core))|]|];
    intros H; try discriminate; reflexivity.
Qed.

Lemma forChildren_idle (body : Obj -> nat -> M (Obj * nat)) (cs : list Obj) :
  Forall
    (fun c => bakedMeshes c = 0%nat ->
              forall count w, body c count w = (c, count, w))
    cs ->
  list_sum (map bakedMeshes cs) = 0%nat ->
  forall count w, forChildren body cs count w = (cs, count, w).
Proof.
  induction 1 as [|c cs Hc _ IH]; intros Hsum count w.
  - reflexivity.
  - change (list_sum (map bakedMeshes (c :: cs)))
      with (bakedMeshes c + list_sum (map bakedMeshes cs))%nat in Hsum.
    rewrite forChildren_cons, Hc by lia. cbn [fst snd].
    rewrite IH by lia. reflexivity.
Qed.

Lemma processMeshesRecursively_idle (allMeshes : list Mesh)
    (sampleRays : nat) (maxDistance bias intensity : R) (invert : bool)
    (obj : Obj) :
  bakedMeshes obj = 0%nat ->
  forall count w,
    processMeshesRecursively obj allMeshes sampleRays maxDistance bias
      intensity invert count w = (obj, count, w).
Proof.
  induction obj as [obj IH] using Obj_tree_ind. intros Hzero count w.
  assert (Hsplit : (bakedSelf obj
                    + list_sum (map bakedMeshes (Obj.children obj)) = 0)%nat)
    by (destruct obj; exact Hzero).
  rewrite processMeshesRecursively_node. cbn zeta.
  rewrite processSelf_idle by lia. cbn [fst snd].
  rewrite (forChildren_idle
             (fun c count =>
                processMeshesRecursively c allMeshes sampleRays maxDistance
                  bias intensity invert count)
             (Obj.children obj) IH) by lia.
  cbn [fst snd]. rewrite withCoreChildren_same. reflexivity.
Qed.

(** X23: nothing to bake, nothing done.  On a tree without a polygon
    object that has vertices the walk returns the tree, the count and
    the state of the host as they were given; a bake with such a
    selection returns the document unchanged and makes no draw. *)
Theorem bakeAmbientOcclusion_nothing_to_bake :
  (forall obj allMeshes sampleRays maxDistance bias intensity invert count w,
      bakedMeshes obj = 0%nat ->
      processMeshesRecursively obj allMeshes sampleRays maxDistance bias
        intensity invert count w = (obj, count, w))
  /\ (forall tool selectedObj w,
      selectedObject (document tool) = Some selectedObj ->
      bakedMeshes selectedObj = 0%nat ->
      fst (bakeAmbientOcclusion tool w) = document tool
      /\ rng (snd (bakeAmbientOcclusion tool w)) = rng w).
Proof.
  split.
  - intros. apply processMeshesRecursively_idle. assumption.
  - intros tool selectedObj w Hsel Hzero. unfold bakeAmbientOcclusion.
    rewrite Hsel. unfold mbind, M_bind. cbn [print emit fst snd].
    rewrite processMeshesRecursively_idle by exact Hzero.
    unfold mret, M_ret. cbn [fst snd rng]. split; [|reflexivity].
    unfold withSelected, selectedObject in *.
    destruct (document tool) as [rt [path|]]; cbn [root selection] in *;
      [|discriminate].
    rewrite (replaceSubtree_same path rt selectedObj Hsel). reflexivity.
Qed.
End WalkEffects.

(** ** The occluder list *)

Section Occluders.
Context {host : Host}.

Lemma collectAllMeshes_node (obj : Obj) (meshArray : list Mesh) :
  collectAllMeshes obj meshArray
  = fold_left (fun meshArray c => collectAllMeshes c meshArray)
      (Obj.children obj) (meshArray ++ occluderOf obj).
Proof.
  destruct obj as [f co mc mat nm cs].
  cbn [collectAllMeshes]. unfold occluderOf.
  cbn [Obj.family Obj.modCore Obj.children Obj.obj2WorldMatrix].
  destruct (Family_eqb f NGONFAMILY);
    [destruct mc as [core|];
     [destruct (Nat.ltb 0 (Core.vertexCount core))|]|];
    rewrite ?app_nil_r; reflexivity.
Qed.

Lemma collect_children (cs : list Obj) :
  Forall
    (fun c => forall meshArray,
       collectAllMeshes c meshArray = meshArray ++ collectAllMeshes c [])
    cs ->
  forall meshArray,
    fold_left (fun meshArray c => collectAllMeshes c meshArray) cs meshArray
    = meshArray ++ concat (map (fun c => collectAllMeshes c []) cs).
Proof.
  induction 1 as [|c cs Hc _ IH]; intros meshArray.
  - cbn [fold_left map concat]. rewrite app_nil_r. reflexivity.
  - cbn [fold_left map concat]. rewrite IH, Hc, <- app_assoc. reflexivity.
Qed.

Lemma collectAllMeshes_append (obj : Obj) :
  forall meshArray,
    collectAllMeshes obj meshArray = meshArray ++ collectAllMeshes obj [].
Proof.
  induction obj as [obj IH] using Obj_tree_ind. intros meshArray.
  rewrite !collectAllMeshes_node, !(collect_children _ IH).
  cbn [app]. rewrite <- app_assoc. reflexivity.
Qed.

Lemma collectAllMeshes_preorder (obj : Obj) (meshArray : list Mesh) :
  collectAllMeshes obj meshArray
  = meshArray ++ occluderOf obj
    ++ concat (map (fun c => collectAllMeshes c []) (Obj.children obj)).
Proof.
  rewrite collectAllMeshes_node, collect_children, app_assoc; [reflexivity|].
  apply Forall_forall. intros c _. apply collectAllMeshes_append.
Qed.

(** X24: the occluder list is the tree in the order of the walk.
    [collectAllMeshes] keeps the list it is given as a prefix and adds
    the entry of the node itself, if it has one, then the entries of
    its first child and of everything under it, then those of the
    second child, and so on. *)
Theorem collectAllMeshes_walk_order (obj : Obj) (meshArray : list Mesh) :
  collectAllMeshes obj meshArray
  = meshArray ++ occluderOf obj
    ++ concat (map (fun c => collectAllMeshes c []) (Obj.children obj)).
Proof. apply collectAllMeshes_preorder. Qed.

Lemma occluderOf_entry (obj : Obj) (mesh : Mesh) :
  In mesh (occluderOf obj) -> mesh_object mesh = obj /\ occluderEntry mesh.
Proof.
  unfold occluderOf, occluderEntry.
  destruct (Family_eqb (Obj.family obj) NGONFAMILY) eqn:Ef;
    [destruct (Obj.modCore obj) as [core|] eqn:Ec;
     [destruct (Nat.ltb_spec 0 (Core.vertexCount core)) as [Hv | Hv]|]|];
    intros Hin; try destruct Hin as [<- | []]; try destruct Hin.
  cbn [mesh_object mesh_core mesh_matrix].
  repeat split; try assumption.
  destruct (Obj.family obj); [reflexivity | discriminate].
Qed.

Lemma occluderOf_present (obj : Obj) (core : Core) :
  Obj.family obj = NGONFAMILY -> Obj.modCore obj = Some core ->
  (0 < Core.vertexCount core)%nat ->
  occluderOf obj
  = [{| mesh_object := obj; mesh_core := core;
        mesh_matrix := Obj.obj2WorldMatrix obj |}].
Proof.
  intros Hf Hc Hv. unfold occluderOf. rewrite Hf, Hc.
  cbn [Family_eqb]. rewrite (proj2 (Nat.ltb_lt _ _) Hv). reflexivity.
Qed.

(** X25: every entry of the occluder list comes from a node of the
    tree.  Each entry collected from a root carries an object that is
    found in the tree under the root, at some path of child indices;
    that object is a polygon object, the core of the entry is its
    modified core and has at least one vertex, and the matrix of the
    entry is the matrix of the object. *)
Theorem collectAllMeshes_entries (obj : Obj) :
  forall mesh,
    In mesh (collectAllMeshes obj []) ->
    occluderEntry mesh
    /\ exists path, subtree obj path = Some (mesh_object mesh).
Proof.
  induction obj as [obj IH] using Obj_tree_ind. intros mesh Hin.
  rewrite collectAllMeshes_preorder in Hin. cbn [app] in Hin.
  apply in_app_or in Hin. destruct Hin as [Hself | Hchild].
  - apply occluderOf_entry in Hself. destruct Hself as [Hobj Hentry].
    split; [exact Hentry|]. exists []. cbn [subtree]. rewrite Hobj.
    reflexivity.
  - apply in_concat in Hchild. destruct Hchild as (l & Hl & Hmesh).
    apply in_map_iff in Hl. destruct Hl as (c & <- & Hc).
    rewrite List.Forall_forall in IH.
    destruct (IH c Hc mesh Hmesh) as (Hentry & path & Hpath).
    split; [exact Hentry|].
    destruct (In_nth_error _ _ Hc) as [i Hi].
    exists (i :: path). cbn [subtree]. rewrite Hi. exact Hpath.
Qed.

(** X26: every polygon object of the document whose modified core has
    vertices is an occluder.  A polygon object found in the tree under
    the root, whose modified core has at least one vertex, has its
    entry in the list collected from the root. *)
Theorem collectAllMeshes_complete (path : list nat) :
  forall rootObj obj core,
    subtree rootObj path = Some obj ->
    Obj.family obj = NGONFAMILY -> Obj.modCore obj = Some core ->
    (0 < Core.vertexCount core)%nat ->
    In {| mesh_object := obj; mesh_core := core;
          mesh_matrix := Obj.obj2WorldMatrix obj |}
       (collectAllMeshes rootObj []).
Proof.
  induction path as [|i path IH]; intros rootObj obj core Hsub Hf Hc Hv;
    rewrite collectAllMeshes_preorder; cbn [app]; apply in_or_app.
  - cbn [subtree] in Hsub. injection Hsub as ->. left.
    rewrite (occluderOf_present obj core Hf Hc Hv). left. reflexivity.
  - cbn [subtree] in Hsub.
    destruct (nth_error (Obj.children rootObj) i) as [c|] eqn:Ei;
      [|discriminate].
    right. apply in_concat. exists (collectAllMeshes c []). split.
    + apply in_map_iff. exists c. split; [reflexivity|].
      apply (nth_error_In _ _ Ei).
    + apply (IH c obj core Hsub Hf Hc Hv).
Qed.
End Occluders.

(** ** The ends of the scale and the order of the scalars *)

Lemma filter_none {A : Type} (f : A -> bool) (l : list A) :
  length (List.filter f l) = 0%nat <-> forall a, In a l -> f a = false.
Proof.
  induction l as [|a l IH]; cbn [List.filter].
  - split; [intros _ x [] | reflexivity].
  - destruct (f a) eqn:Ea; cbn [length].
    + split; [discriminate|].
      intros H. rewrite (H a (or_introl eq_refl)) in Ea. discriminate.
    + rewrite IH. split.
      * intros H x [<- | Hx]; [exact Ea | apply H, Hx].
      * intros H x Hx. apply H. right. exact Hx.
Qed.

Lemma filter_all {A : Type} (f : A -> bool) (l : list A) :
  length (List.filter f l) = length l <-> forall a, In a l -> f a = true.
Proof.
  induction l as [|a l IH]; cbn [List.filter].
  - split; [intros _ x [] | reflexivity].
  - pose proof (filter_length_le f l) as Hle.
    destruct (f a) eqn:Ea; cbn [length].
    + split.
      * intros H x [<- | Hx]; [exact Ea|].
        apply IH; [lia | exact Hx].
      * intros H. f_equal. apply IH. intros x Hx. apply H. right. exact Hx.
    + split; [lia|].
      intros H. rewrite (H a (or_introl eq_refl)) in Ea. discriminate.
Qed.

Lemma Math_pow_zero_base (y : R) : 0 < y -> Math_pow 0 y = 0.
Proof.
  intros Hy. unfold Math_pow.
  destruct (Reqb y 0) eqn:E1; [apply Reqb_true in E1; lra|].
  destruct (Rltb 0 0) eqn:E2; [apply Rltb_true in E2; lra | reflexivity].
Qed.

Lemma Math_pow_one_base (y : R) : Math_pow 1 y = 1.
Proof.
  unfold Math_pow. destruct (Reqb y 0); [reflexivity|].
  destruct (Rltb 0 1) eqn:E2; [|apply Rltb_false in E2; lra].
  unfold Rpower. rewrite ln_1, Rmult_0_r. apply exp_0.
Qed.

Lemma Math_pow_monotone (x x' y : R) :
  0 < y -> 0 <= x <= x' -> Math_pow x y <= Math_pow x' y.
Proof.
  intros Hy [Hx Hxx']. unfold Math_pow.
  destruct (Reqb y 0) eqn:E1; [apply Reqb_true in E1; lra|].
  destruct (Rltb 0 x) eqn:E2, (Rltb 0 x') eqn:E3;
    try (apply Rltb_true in E2); try (apply Rltb_false in E2);
    try (apply Rltb_true in E3); try (apply Rltb_false in E3);
    try lra.
  - apply Rle_Rpower_l; lra.
  - left. unfold Rpower. apply exp_pos.
Qed.

Lemma accessibility_ends (k n : nat) :
  (0 < n)%nat ->
  (1 - INR k / INR n = 1 <-> k = 0%nat)
  /\ (1 - INR k / INR n = 0 <-> k = n).
Proof.
  intros Hn. apply lt_0_INR in Hn.
  assert (Hinv : / INR n <> 0) by (apply Rinv_neq_0_compat; lra).
  unfold Rdiv. split; split.
  - intros H. apply INR_eq. cbn [INR].
    apply (Rmult_eq_reg_r (/ INR n)); [lra | exact Hinv].
  - intros ->. cbn [INR]. ring.
  - intros H. apply INR_eq.
    apply (Rmult_eq_reg_r (/ INR n)); [|exact Hinv].
    rewrite Rinv_r by lra. lra.
  - intros ->. rewrite Rinv_r by lra. ring.
Qed.

Section Scale.
Context {host : Host}.

(** X27: the two ends of the accessibility.  For a sample set that is
    not empty the accessibility is 1 exactly when no sample segment is
    answered true, and 0 exactly when every one is. *)
Theorem calculateOcclusion_extremes (worldPos normal : Vec3D)
    (sampleDirections : list Vec3D) (allMeshes : list Mesh)
    (maxDistance bias : R) :
  sampleDirections <> [] ->
  let blocked sampleDir :=
    rayIntersectsAnyMesh
      (fst (sampleRay worldPos normal (fst (tangentBasis normal))
              (snd (tangentBasis normal)) maxDistance bias sampleDir))
      (snd (sampleRay worldPos normal (fst (tangentBasis normal))
              (snd (tangentBasis normal)) maxDistance bias sampleDir))
      allMeshes in
  (calculateOcclusion worldPos normal sampleDirections allMeshes maxDistance
     bias = 1
   <-> forall sampleDir, In sampleDir sampleDirections ->
                         blocked sampleDir = false)
  /\ (calculateOcclusion worldPos normal sampleDirections allMeshes
        maxDistance bias = 0
      <-> forall sampleDir, In sampleDir sampleDirections ->
                            blocked sampleDir = true).
Proof.
  intros Hne. cbn zeta. rewrite calculateOcclusion_count.
  assert (Hn : (0 < length sampleDirections)%nat).
  { destruct sampleDirections; [contradiction | simpl; lia]. }
  destruct (accessibility_ends
              (occludedCount worldPos normal sampleDirections allMeshes
                 maxDistance bias)
              (length sampleDirections) Hn) as [H1 H0].
  rewrite H1, H0. unfold occludedCount.
  split; [apply filter_none | apply filter_all].
Qed.

(** X28: the power step keeps the ends and the order.  With a positive
    intensity and no inversion, an accessibility of 0 stays 0, one of 1
    stays 1, and of two accessibilities in [0, 1] the smaller stays
    the smaller; with the inversion the ends are exchanged and the
    order is reversed. *)
Theorem applyIntensity_order (intensity : R) :
  0 < intensity ->
  applyIntensity 0 intensity false = 0
  /\ applyIntensity 1 intensity false = 1
  /\ applyIntensity 0 intensity true = 1
  /\ applyIntensity 1 intensity true = 0
  /\ forall raw raw',
       0 <= raw <= raw' ->
       applyIntensity raw intensity false <= applyIntensity raw' intensity false
       /\ applyIntensity raw' intensity true <= applyIntensity raw intensity true.
Proof.
  intros Hi. unfold applyIntensity.
  rewrite Math_pow_zero_base by exact Hi. rewrite Math_pow_one_base.
  repeat split; try lra.
  - apply Math_pow_monotone; assumption.
  - pose proof (Math_pow_monotone raw raw' intensity Hi H). lra.
Qed.
End Scale.

(** ** The nodes of the tree after a walk *)

Section Nodes.
Context {host : Host}.

Lemma processSelf_core (obj : Obj) (allMeshes : list Mesh)
    (sampleRays : nat) (maxDistance bias intensity : R) (invert : bool)
    (count : nat) (w : World) :
  (bakedSelf obj = 0%nat ->
   fst (fst (processSelf obj allMeshes sampleRays maxDistance bias intensity
               invert count w)) = Obj.core obj)
  /\ (forall core,
      bakedSelf obj = 1%nat -> Obj.core obj = Some core ->
      fst (fst (processSelf obj allMeshes sampleRays maxDistance bias
                  intensity invert count w))
      = Some (fst (bakeMeshAO obj core allMeshes sampleRays maxDistance bias
                     intensity invert
                     (snd (emit (RecordGeometryForUndo (Obj.name obj)) w))))).
Proof.
  split.
  - intros H. rewrite processSelf_idle by exact H. reflexivity.
  - intros core Hb Hc. unfold processSelf, bakedSelf in *. rewrite Hc in *.
    destruct (Family_eqb (Obj.family obj) NGONFAMILY); [|discriminate].
    destruct (Nat.ltb 0 (Core.vertexCount core)); [|discriminate].
    unfold mbind, M_bind. cbn [emit print fst snd].
    destruct (bakeMeshAO _ _ _ _ _ _ _ _ _) as [core' w']. reflexivity.
Qed.

Lemma forChildren_nth (k : nat) (cost : Obj -> nat)
    (body : Obj -> nat -> M (Obj * nat)) (cs : list Obj) :
  (forall c count w,
      rng (snd (body c count w)) = rng (advance (k * cost c) w)) ->
  forall i c count w,
    nth_error cs i = Some c ->
    exists count' w',
      nth_error (fst (fst (forChildren body cs count w))) i
      = Some (fst (fst (body c count' w')))
      /\ rng w' = rng (advance (k * list_sum (map cost (firstn i cs))) w).
Proof.
  intros Hbody. induction cs as [|c0 cs IH]; intros [|i] c count w Hnth;
    try discriminate; rewrite forChildren_cons; cbn [fst nth_error] in *.
  - injection Hnth as ->. exists count, w.
    split; [reflexivity|]. cbn [firstn map list_sum].
    rewrite Nat.mul_0_r, advance_zero. reflexivity.
  - destruct (IH i c (snd (fst (body c0 count w))) (snd (body c0 count w))
                Hnth) as (count' & w' & Hn & Hr).
    exists count', w'. split; [exact Hn|].
    rewrite Hr, (rng_advance_congr _ _ _ (Hbody c0 count w)), advance_advance.
    change (list_sum (map cost (firstn (S i) (c0 :: cs))))
      with (cost c0 + list_sum (map cost (firstn i cs)))%nat.
    f_equal. f_equal. lia.
Qed.

Lemma generateHemisphereSamples_rng (n : nat) (w1 w2 : World) :
  rng w1 = rng w2 ->
  fst (generateHemisphereSamples n w1) = fst (generateHemisphereSamples n w2).
Proof.
  intros H. unfold generateHemisphereSamples. rewrite !hemisphereLoop_run.
  cbn [fst app]. apply map_ext. intros i. unfold drawnDirection.
  rewrite H. reflexivity.
Qed.

Lemma bakeMeshAO_rng (meshObj : Obj) (core : Core) (allMeshes : list Mesh)
    (sampleRays : nat) (maxDistance bias intensity : R) (invert : bool)
    (w1 w2 : World) :
  rng w1 = rng w2 ->
  fst (bakeMeshAO meshObj core allMeshes sampleRays maxDistance bias
         intensity invert w1)
  = fst (bakeMeshAO meshObj core allMeshes sampleRays maxDistance bias
           intensity invert w2).
Proof.
  intros H. rewrite !bakeMeshAO_run. cbn [fst].
  rewrite (generateHemisphereSamples_rng sampleRays w1 w2 H). reflexivity.
Qed.

Lemma processMeshesRecursively_nodes (allMeshes : list Mesh)
    (sampleRays : nat) (maxDistance bias intensity : R) (invert : bool)
    (path : list nat) :
  forall obj node count w,
    subtree obj path = Some node ->
    exists node',
      subtree
        (fst (fst (processMeshesRecursively obj allMeshes sampleRays
                     maxDistance bias intensity invert count w)))
        path = Some node'
      /\ (bakedSelf node = 0%nat -> Obj.core node' = Obj.core node)
      /\ (forall core,
          bakedSelf node = 1%nat -> Obj.core node = Some core ->
          Obj.core node'
          = Some (fst (bakeMeshAO node core allMeshes sampleRays
                         maxDistance bias intensity invert
                         (advance (2 * sampleRays * bakedBefore obj path)
                            w)))).
Proof.
  induction path as [|i path IH]; intros obj node count w Hsub.
  - cbn [subtree] in Hsub. injection Hsub as ->.
    eexists. split; [reflexivity|].
    rewrite processMeshesRecursively_node. cbn zeta.
    cbn [fst Obj.withCoreChildren Obj.core].
    destruct (processSelf_core node allMeshes sampleRays maxDistance bias
                intensity invert count w) as [Hidle Hbaked].
    split; [exact Hidle|].
    intros core Hb Hc. rewrite (Hbaked core Hb Hc). f_equal.
    apply bakeMeshAO_rng. cbn [bakedBefore].
    rewrite Nat.mul_0_r, advance_zero. reflexivity.
  - cbn [subtree] in Hsub.
    destruct (nth_error (Obj.children obj) i) as [c|] eqn:Ei; [|discriminate].
    rewrite processMeshesRecursively_node. cbn zeta. cbn [fst].
    destruct (processSelf_random obj allMeshes sampleRays maxDistance bias
                intensity invert count w) as [_ Hself].
    destruct (forChildren_nth (2 * sampleRays) bakedMeshes
                (fun c count =>
                   processMeshesRecursively c allMeshes sampleRays
                     maxDistance bias intensity invert count)
                (Obj.children obj)
                (fun c count w =>
                   proj2 (processMeshesRecursively_random allMeshes
                            sampleRays maxDistance bias intensity invert c
                            count w))
                i c
                (snd (fst (processSelf obj allMeshes sampleRays maxDistance
                             bias intensity invert count w)))
                (snd (processSelf obj allMeshes sampleRays maxDistance bias
                        intensity invert count w))
                Ei) as (count' & w' & Hn & Hr).
    destruct (IH c node count' w' Hsub) as (node' & Hsub' & Hidle & Hbaked).
    exists node'. split.
    + destruct obj as [f co mc mat nm cs].
      cbn [subtree Obj.withCoreChildren Obj.children] in *.
      rewrite Hn. exact Hsub'.
    + split; [exact Hidle|].
      intros core Hb Hc. rewrite (Hbaked core Hb Hc). f_equal.
      apply bakeMeshAO_rng.
      rewrite (rng_advance_congr _ _ _ Hr), advance_advance.
      rewrite (rng_advance_congr _ _ _ Hself), advance_advance.
      cbn [bakedBefore]. rewrite Ei. f_equal. f_equal. lia.
Qed.

(** X29: what a walk does to each node.  Every node found under the
    walked object at some path is found at the same path afterwards.
    A node that is not a polygon object with vertices keeps its core,
    attributes included.  The core of a polygon object with vertices
    is the result of [bakeMeshAO] on its old core, with the occluder
    list and the parameters the walk was given, started on the random
    source where the meshes baked before it have left it: after
    [2 * sampleRays] draws for each of the [bakedBefore] meshes that
    come earlier in the walk. *)
Theorem processMeshesRecursively_each_node (allMeshes : list Mesh)
    (sampleRays : nat) (maxDistance bias intensity : R) (invert : bool)
    (path : list nat) (obj node : Obj) (count : nat) (w : World) :
  subtree obj path = Some node ->
  exists node',
    subtree
      (fst (fst (processMeshesRecursively obj allMeshes sampleRays
                   maxDistance bias intensity invert count w)))
      path = Some node'
    /\ (bakedSelf node = 0%nat -> Obj.core node' = Obj.core node)
    /\ (forall core,
        bakedSelf node = 1%nat -> Obj.core node = Some core ->
        Obj.core node'
        = Some (fst (bakeMeshAO node core allMeshes sampleRays
                       maxDistance bias intensity invert
                       (advance (2 * sampleRays * bakedBefore obj path)
                          w)))).
Proof. apply processMeshesRecursively_nodes. Qed.
End Nodes.

(** ** The further properties on the concrete scenes *)

Lemma rayAbove_point :
  pointOnRay rayAbove downwards 1
  = pointInTriangle (Core.vertex triangleCore 0) (Core.vertex triangleCore 1)
      (Core.vertex triangleCore 2) (1 / 4) (1 / 4).
Proof.
  unfold pointOnRay, pointInTriangle, rayAbove, downwards.
  apply Vec3D_eq;
    cbn [triangleCore Core.vertex Vec3D.add Vec3D.sub Vec3D.multiply
         Vec3D.x Vec3D.y Vec3D.z]; field.
Qed.

Lemma rayAbove_determinant_nonzero :
  mt_a downwards (Core.vertex triangleCore 0) (Core.vertex triangleCore 1)
    (Core.vertex triangleCore 2) <> 0.
Proof. rewrite rayAbove_determinant. lra. Qed.

Lemma rayTriangleIntersect_solves_equation_witness :
  mt_a downwards (Core.vertex triangleCore 0) (Core.vertex triangleCore 1)
    (Core.vertex triangleCore 2) <> 0
  /\ pointOnRay rayAbove downwards
       (mt_t rayAbove downwards (Core.vertex triangleCore 0)
          (Core.vertex triangleCore 1) (Core.vertex triangleCore 2))
     = pointInTriangle (Core.vertex triangleCore 0)
         (Core.vertex triangleCore 1) (Core.vertex triangleCore 2)
         (mt_u rayAbove downwards (Core.vertex triangleCore 0)
            (Core.vertex triangleCore 1) (Core.vertex triangleCore 2))
         (mt_v rayAbove downwards (Core.vertex triangleCore 0)
            (Core.vertex triangleCore 1) (Core.vertex triangleCore 2))
  /\ pointOnRay rayAbove downwards 1
     = pointInTriangle (Core.vertex triangleCore 0)
         (Core.vertex triangleCore 1) (Core.vertex triangleCore 2)
         (1 / 4) (1 / 4)
  /\ mt_u rayAbove downwards (Core.vertex triangleCore 0)
       (Core.vertex triangleCore 1) (Core.vertex triangleCore 2) = 1 / 4
  /\ mt_v rayAbove downwards (Core.vertex triangleCore 0)
       (Core.vertex triangleCore 1) (Core.vertex triangleCore 2) = 1 / 4
  /\ mt_t rayAbove downwards (Core.vertex triangleCore 0)
       (Core.vertex triangleCore 1) (Core.vertex triangleCore 2) = 1.
Proof.
  split; [exact rayAbove_determinant_nonzero|]. split.
  - exact (proj1 (proj2 (rayTriangleIntersect_solves_equation rayAbove
                           downwards 2 (Core.vertex triangleCore 0)
                           (Core.vertex triangleCore 1)
                           (Core.vertex triangleCore 2)))
             rayAbove_determinant_nonzero).
  - split; [exact rayAbove_point|].
    exact (proj2 (proj2 (rayTriangleIntersect_solves_equation rayAbove
                           downwards 2 (Core.vertex triangleCore 0)
                           (Core.vertex triangleCore 1)
                           (Core.vertex triangleCore 2)))
             (1 / 4) (1 / 4) 1 rayAbove_determinant_nonzero rayAbove_point).
Defined.

Lemma rayTriangleIntersect_guard_band_witness :
  epsilon / 2 <= epsilon
  /\ rayTriangleIntersect rayAbove downwards (epsilon / 2)
       (Core.vertex triangleCore 0) (Core.vertex triangleCore 1)
       (Core.vertex triangleCore 2) = false.
Proof.
  assert (H2 : epsilon / 2 <= epsilon) by (unfold epsilon; lra).
  split; [exact H2|].
  exact (rayTriangleIntersect_guard_band rayAbove downwards (epsilon / 2)
           (Core.vertex triangleCore 0) (Core.vertex triangleCore 1)
           (Core.vertex triangleCore 2) H2).
Defined.

Lemma rayIntersectsAnyMesh_unordered_witness :
  Permutation [firstOccluder; secondOccluder] [secondOccluder; firstOccluder]
  /\ rayIntersectsAnyMesh rayAbove onLine1 [firstOccluder; secondOccluder]
     = rayIntersectsAnyMesh rayAbove onLine1 [secondOccluder; firstOccluder].
Proof.
  assert (H : Permutation [firstOccluder; secondOccluder]
                          [secondOccluder; firstOccluder])
    by apply perm_swap.
  split; [exact H|].
  exact (proj2 (rayIntersectsAnyMesh_unordered (host := translations)
                  rayAbove onLine1) _ _ H).
Defined.

Lemma meshHit_no_triangles_witness :
  (forall p, (p < Core.polygonCount (mesh_core edgeOccluder))%nat ->
             (Core.polygonSize (mesh_core edgeOccluder) p < 3)%nat)
  /\ meshHit rayAbove onLine1 edgeOccluder = false.
Proof.
  assert (H : forall p,
             (p < Core.polygonCount (mesh_core edgeOccluder))%nat ->
             (Core.polygonSize (mesh_core edgeOccluder) p < 3)%nat)
    by (intros p _; simpl; lia).
  split; [exact H|].
  exact (meshHit_no_triangles (host := translations) rayAbove onLine1
           edgeOccluder H).
Defined.

Lemma calculateOcclusion_antitone_witness :
  oneSample <> []
  /\ (forall mesh : @Mesh translations,
        In mesh [] -> In mesh [firstOccluder])
  /\ calculateOcclusion (host := translations) rayAbove (Vec3D.new 0 1 0)
       oneSample [firstOccluder] 1 (1 / 100)
     <= calculateOcclusion (host := translations) rayAbove (Vec3D.new 0 1 0)
          oneSample [] 1 (1 / 100).
Proof.
  assert (H1 : oneSample <> []) by discriminate.
  assert (H2 : forall mesh : @Mesh translations,
             In mesh [] -> In mesh [firstOccluder])
    by (intros mesh []).
  split; [exact H1|]. split; [exact H2|].
  exact (calculateOcclusion_antitone (host := translations) rayAbove
           (Vec3D.new 0 1 0) oneSample [] [firstOccluder] 1 (1 / 100) H1 H2).
Defined.

Lemma foldedCore_incident_some : incidentPolygons foldedCore 0 <> [].
Proof. rewrite foldedCore_incident. discriminate. Qed.

Lemma calculateOcclusion_cancelled_normal_witness :
  oneSample <> []
  /\ incidentPolygons foldedCore 0 <> []
  /\ Vec3D.norm
       (averagedWorldNormal (host := translations) foldedCore 0 identityMatrix)
     = 0
  /\ calculateOcclusion (host := translations) rayAbove
       (calculateVertexNormal foldedCore 0 identityMatrix) oneSample
       [firstOccluder] 1 (1 / 100) = 1.
Proof.
  assert (H1 : oneSample <> []) by discriminate.
  split; [exact H1|]. split; [exact foldedCore_incident_some|].
  split; [exact foldedCore_averaged_norm|].
  exact (calculateOcclusion_cancelled_normal (host := translations) foldedCore
           0%nat identityMatrix rayAbove oneSample [firstOccluder] 1 (1 / 100)
           H1 foldedCore_incident_some foldedCore_averaged_norm).
Defined.

Lemma tangentBasis_orthonormal_witness :
  Vec3D.norm (Vec3D.new 0 1 0) = 1
  /\ Vec3D.norm (fst (tangentBasis (Vec3D.new 0 1 0))) = 1
  /\ Vec3D.norm (snd (tangentBasis (Vec3D.new 0 1 0))) = 1
  /\ Vec3D.dot (fst (tangentBasis (Vec3D.new 0 1 0))) (Vec3D.new 0 1 0) = 0
  /\ Vec3D.dot (snd (tangentBasis (Vec3D.new 0 1 0))) (Vec3D.new 0 1 0) = 0
  /\ Vec3D.dot (fst (tangentBasis (Vec3D.new 0 1 0)))
               (snd (tangentBasis (Vec3D.new 0 1 0))) = 0.
Proof.
  split; [exact norm_up|].
  exact (tangentBasis_orthonormal (Vec3D.new 0 1 0) norm_up).
Defined.

Lemma sampleRay_unit_normal_witness :
  Vec3D.norm (Vec3D.new 0 1 0) = 1 /\ 0 <= 1
  /\ Vec3D.norm
       (Vec3D.sub
          (snd (sampleRay rayAbove (Vec3D.new 0 1 0)
                  (fst (tangentBasis (Vec3D.new 0 1 0)))
                  (snd (tangentBasis (Vec3D.new 0 1 0))) 1 (1 / 100)
                  (Vec3D.new 0 1 0)))
          (fst (sampleRay rayAbove (Vec3D.new 0 1 0)
                  (fst (tangentBasis (Vec3D.new 0 1 0)))
                  (snd (tangentBasis (Vec3D.new 0 1 0))) 1 (1 / 100)
                  (Vec3D.new 0 1 0))))
     = 1.
Proof.
  assert (H : 0 <= 1) by lra.
  split; [exact norm_up|]. split; [exact H|].
  exact (proj1 (proj2 (sampleRay_unit_normal rayAbove (Vec3D.new 0 1 0) 1
                         (1 / 100) (Vec3D.new 0 1 0) norm_up norm_up H))).
Defined.

Lemma calculateVertexNormal_unit_or_zero_witness :
  (incidentPolygons triangleCore 7 = []
   \/ Vec3D.norm
        (averagedWorldNormal (host := translations) triangleCore 7
           identityMatrix) <> 0)
  /\ Vec3D.norm
       (calculateVertexNormal (host := translations) triangleCore 7
          identityMatrix) = 1.
Proof.
  assert (H : incidentPolygons triangleCore 7 = []
              \/ Vec3D.norm
                   (averagedWorldNormal (host := translations) triangleCore 7
                      identityMatrix) <> 0)
    by (left; reflexivity).
  split; [exact H|].
  exact (proj1 (calculateVertexNormal_unit_or_zero (host := translations)
                  triangleCore 7%nat identityMatrix) H).
Defined.

Lemma coplanarCore_incident :
  incidentPolygons coplanarCore 0 = [0%nat; 1%nat].
Proof. reflexivity. Qed.

Lemma calculateVertexNormal_equal_normals_witness :
  incidentPolygons coplanarCore 0 <> []
  /\ (forall p, In p (incidentPolygons coplanarCore 0) ->
                Core.normal coplanarCore p = Vec3D.new 0 1 0)
  /\ calculateVertexNormal (host := translations) coplanarCore 0
       identityMatrix
     = if Rgtb
            (Vec3D.norm
               (Vec3D.sub
                  (Mat4D_multiply (Host := translations) identityMatrix
                     (Vec3D.new 0 1 0))
                  (Mat4D_multiply (Host := translations) identityMatrix
                     (Vec3D.new 0 0 0)))) 0
       then Vec3D.multiply
              (Vec3D.sub
                 (Mat4D_multiply (Host := translations) identityMatrix
                    (Vec3D.new 0 1 0))
                 (Mat4D_multiply (Host := translations) identityMatrix
                    (Vec3D.new 0 0 0)))
              (1 / Vec3D.norm
                     (Vec3D.sub
                        (Mat4D_multiply (Host := translations) identityMatrix
                           (Vec3D.new 0 1 0))
                        (Mat4D_multiply (Host := translations) identityMatrix
                           (Vec3D.new 0 0 0))))
       else Vec3D.sub
              (Mat4D_multiply (Host := translations) identityMatrix
                 (Vec3D.new 0 1 0))
              (Mat4D_multiply (Host := translations) identityMatrix
                 (Vec3D.new 0 0 0)).
Proof.
  assert (H1 : incidentPolygons coplanarCore 0 <> [])
    by (rewrite coplanarCore_incident; discriminate).
  assert (H2 : forall p, In p (incidentPolygons coplanarCore 0) ->
                         Core.normal coplanarCore p = Vec3D.new 0 1 0)
    by (intros p _; reflexivity).
  split; [exact H1|]. split; [exact H2|].
  exact (calculateVertexNormal_equal_normals (host := translations)
           coplanarCore 0%nat identityMatrix (Vec3D.new 0 1 0) H1 H2).
Defined.

Lemma startWorld_first_sample :
  nth_error (fst (generateHemisphereSamples 8 startWorld)) 0
  = Some (drawnDirection startWorld 0).
Proof.
  unfold generateHemisphereSamples. rewrite hemisphereLoop_run. reflexivity.
Qed.

Lemma generateHemisphereSamples_height_witness :
  (forall k, 0 <= draws (rng startWorld) k < 1)
  /\ nth_error (fst (generateHemisphereSamples 8 startWorld)) 0
     = Some (drawnDirection startWorld 0)
  /\ Vec3D.y (drawnDirection startWorld 0)
     = sqrt (draws (rng startWorld) (position (rng startWorld) + 2 * 0 + 1)).
Proof.
  split; [exact startWorld_draws|]. split; [exact startWorld_first_sample|].
  exact (proj1 (generateHemisphereSamples_height 8 startWorld 0
                  (drawnDirection startWorld 0) startWorld_draws
                  startWorld_first_sample)).
Defined.

Lemma setVertexColor_commute_witness :
  0%nat <> 1%nat
  /\ setVertexColor
       (setVertexColor triangleCore 0 (Vec4D.new (1 / 2) 0 0 1)) 1
       (Vec4D.new (1 / 4) 0 0 1)
     = setVertexColor
         (setVertexColor triangleCore 1 (Vec4D.new (1 / 4) 0 0 1)) 0
         (Vec4D.new (1 / 2) 0 0 1).
Proof.
  assert (H : 0%nat <> 1%nat) by discriminate.
  split; [exact H|].
  exact (setVertexColor_commute triangleCore 0 1 (Vec4D.new (1 / 2) 0 0 1)
           (Vec4D.new (1 / 4) 0 0 1) H).
Defined.

Lemma bakeMeshAO_frame_witness :
  ~ ((5 < Core.polygonCount triangleCore)%nat
     /\ (0 < Core.polygonSize triangleCore 5)%nat
     /\ (Core.vertexIndex triangleCore 5 0
         < Core.vertexCount triangleCore)%nat)
  /\ Core.uvCoord
       (fst (bakeMeshAO (meshNode "first" triangleCore) triangleCore
               [firstOccluder] 8 1 (1 / 100) 1 false startWorld))
       !! (5%nat, 0%nat)
     = Core.uvCoord triangleCore !! (5%nat, 0%nat).
Proof.
  assert (H : ~ ((5 < Core.polygonCount triangleCore)%nat
                 /\ (0 < Core.polygonSize triangleCore 5)%nat
                 /\ (Core.vertexIndex triangleCore 5 0
                     < Core.vertexCount triangleCore)%nat))
    by (intros (H & _); simpl in H; lia).
  split; [exact H|].
  exact (proj2 (bakeMeshAO_frame (host := translations)
                  (meshNode "first" triangleCore) triangleCore
                  [firstOccluder] 8 1 (1 / 100) 1 false startWorld)
           5%nat 0%nat H).
Defined.

Lemma twoMeshTool_selected :
  selectedObject (document twoMeshTool) = Some twoMeshes.
Proof. reflexivity. Qed.

Lemma bakeAmbientOcclusion_host_calls_witness :
  selectedObject (document twoMeshTool) = Some twoMeshes
  /\ trace (snd (bakeAmbientOcclusion twoMeshTool startWorld))
     = trace startWorld
       ++ [Print [Lit "Starting Ambient Occlusion baking..."];
           Print [Lit "Sample Rays: "; Int (sampleRaysParam twoMeshTool)];
           Print [Lit "Max Distance: "; Num (maxDistanceParam twoMeshTool)]]
       ++ bakeTrace twoMeshes
       ++ [RedrawAll;
           Print [Lit "Ambient Occlusion baking complete. Processed ";
                  Int (bakedMeshes twoMeshes); Lit " meshes."]].
Proof.
  split; [exact twoMeshTool_selected|].
  exact (proj2 (bakeAmbientOcclusion_host_calls (host := translations))
           twoMeshTool twoMeshes startWorld twoMeshTool_selected).
Defined.

Lemma bakeAmbientOcclusion_nothing_to_bake_witness :
  selectedObject (document emptyTool) = Some emptyGroup
  /\ bakedMeshes emptyGroup = 0%nat
  /\ fst (bakeAmbientOcclusion emptyTool startWorld) = document emptyTool
  /\ rng (snd (bakeAmbientOcclusion emptyTool startWorld)) = rng startWorld.
Proof.
  assert (H1 : selectedObject (document emptyTool) = Some emptyGroup)
    by reflexivity.
  assert (H2 : bakedMeshes emptyGroup = 0%nat) by reflexivity.
  split; [exact H1|]. split; [exact H2|].
  exact (proj2 (bakeAmbientOcclusion_nothing_to_bake (host := translations))
           emptyTool emptyGroup startWorld H1 H2).
Defined.

Lemma twoMeshes_occluders :
  collectAllMeshes twoMeshes [] = [firstOccluder; secondOccluder].
Proof. reflexivity. Qed.

Lemma collectAllMeshes_entries_witness :
  In firstOccluder (collectAllMeshes twoMeshes [])
  /\ occluderEntry firstOccluder
  /\ exists path, subtree twoMeshes path = Some (mesh_object firstOccluder).
Proof.
  assert (H : In firstOccluder (collectAllMeshes twoMeshes []))
    by (rewrite twoMeshes_occluders; left; reflexivity).
  split; [exact H|].
  exact (collectAllMeshes_entries twoMeshes firstOccluder H).
Defined.

Lemma collectAllMeshes_complete_witness :
  subtree twoMeshes [0%nat] = Some (meshNode "first" triangleCore)
  /\ Obj.family (meshNode "first" triangleCore) = NGONFAMILY
  /\ Obj.modCore (meshNode "first" triangleCore) = Some triangleCore
  /\ (0 < Core.vertexCount triangleCore)%nat
  /\ In {| mesh_object := meshNode "first" triangleCore;
           mesh_core := triangleCore;
           mesh_matrix := Obj.obj2WorldMatrix (meshNode "first" triangleCore) |}
        (collectAllMeshes twoMeshes []).
Proof.
  assert (H1 : subtree twoMeshes [0%nat]
               = Some (meshNode "first" triangleCore)) by reflexivity.
  assert (H2 : Obj.family (meshNode "first" triangleCore) = NGONFAMILY)
    by reflexivity.
  assert (H3 : Obj.modCore (meshNode "first" triangleCore)
               = Some triangleCore) by reflexivity.
  assert (H4 : (0 < Core.vertexCount triangleCore)%nat) by (simpl; lia).
  repeat (split; [assumption|]).
  exact (collectAllMeshes_complete [0%nat] twoMeshes
           (meshNode "first" triangleCore) triangleCore H1 H2 H3 H4).
Defined.

Lemma calculateOcclusion_extremes_witness :
  oneSample <> []
  /\ (calculateOcclusion (host := translations) rayAbove (Vec3D.new 0 1 0)
        oneSample [] 1 (1 / 100) = 1
      <-> forall sampleDir,
            In sampleDir oneSample ->
            rayIntersectsAnyMesh (host := translations)
              (fst (sampleRay rayAbove (Vec3D.new 0 1 0)
                      (fst (tangentBasis (Vec3D.new 0 1 0)))
                      (snd (tangentBasis (Vec3D.new 0 1 0))) 1 (1 / 100)
                      sampleDir))
              (snd (sampleRay rayAbove (Vec3D.new 0 1 0)
                      (fst (tangentBasis (Vec3D.new 0 1 0)))
                      (snd (tangentBasis (Vec3D.new 0 1 0))) 1 (1 / 100)
                      sampleDir))
              [] = false).
Proof.
  assert (H : oneSample <> []) by discriminate.
  split; [exact H|].
  exact (proj1 (calculateOcclusion_extremes (host := translations) rayAbove
                  (Vec3D.new 0 1 0) oneSample [] 1 (1 / 100) H)).
Defined.

Lemma applyIntensity_order_witness :
  0 < 2
  /\ applyIntensity 0 2 false = 0
  /\ applyIntensity 1 2 false = 1
  /\ applyIntensity 0 2 true = 1
  /\ applyIntensity 1 2 true = 0.
Proof.
  assert (H : 0 < 2) by lra.
  split; [exact H|].
  destruct (applyIntensity_order 2 H) as (H1 & H2 & H3 & H4 & _).
  repeat split; assumption.
Defined.

Lemma processMeshesRecursively_each_node_witness :
  subtree twoMeshes [1%nat] = Some (meshNode "second" foldedCore)
  /\ bakedBefore twoMeshes [1%nat] = 1%nat
  /\ bakedSelf (meshNode "second" foldedCore) = 1%nat
  /\ exists node',
       subtree
         (fst (fst (processMeshesRecursively twoMeshes
                      [firstOccluder; secondOccluder] 8 1 (1 / 100) 1 false 0
                      startWorld)))
         [1%nat] = Some node'
       /\ (bakedSelf (meshNode "second" foldedCore) = 0%nat ->
           Obj.core node' = Obj.core (meshNode "second" foldedCore))
       /\ (forall core,
           bakedSelf (meshNode "second" foldedCore) = 1%nat ->
           Obj.core (meshNode "second" foldedCore) = Some core ->
           Obj.core node'
           = Some (fst (bakeMeshAO (meshNode "second" foldedCore) core
                          [firstOccluder; secondOccluder] 8 1 (1 / 100) 1
                          false
                          (advance (2 * 8 * bakedBefore twoMeshes [1%nat])
                             startWorld)))).
Proof.
  assert (H : subtree twoMeshes [1%nat]
              = Some (meshNode "second" foldedCore)) by reflexivity.
  split; [exact H|]. split; [reflexivity|]. split; [reflexivity|].
  exact (processMeshesRecursively_each_node (host := translations)
           [firstOccluder; secondOccluder] 8 1 (1 / 100) 1 false [1%nat]
           twoMeshes (meshNode "second" foldedCore) 0%nat startWorld H).
Defined.

(** ** Double precision against the reals *)



(** ** A small triangle that the test does not see *)

Lemma small_determinant :
  mt_a downwards small0 small1 small2 = 1 / 4000000.
Proof.
  unfold mt_a, Vec3D.dot, Vec3D.cross, Vec3D.sub, downwards, small0, small1,
    small2.
  cbn [Vec3D.x Vec3D.y Vec3D.z]. field.
Qed.

(** C1, the sentence on rays through the interior fails: the right
    triangle with legs of 1/2000 is crossed at its interior point
    [u = v = 1/4] by the unit ray that comes straight down from one
    unit above it, at [t = 1], strictly between [epsilon] and the
    length 2 of the ray.  The determinant is 1/4000000, below
    [epsilon], and the answer is false, over the reals and in double
    precision. *)
Lemma interior_crossing_not_reported :
  Vec3D.norm downwards = 1
  /\ 0 < 2
  /\ pointOnRay aboveSmall downwards 1
     = pointInTriangle small0 small1 small2 (1 / 4) (1 / 4)
  /\ 0 < 1 / 4 /\ 1 / 4 + 1 / 4 < 1
  /\ epsilon < 1 < 2
  /\ rayTriangleIntersect aboveSmall downwards 2 small0 small1 small2 = false
  /\ Double.rayTriangleIntersect Double.aboveTiny Double.down
       Double.awayLength Double.tiny0 Double.tiny1 Double.tiny2 = false.
Proof.
  split.
  { unfold Vec3D.norm, downwards, Vec3D.dot. cbn [Vec3D.x Vec3D.y Vec3D.z].
    replace (0 * 0 + -1 * -1 + 0 * 0) with 1 by ring. apply sqrt_1. }
  split; [lra|]. split.
  { unfold pointOnRay, pointInTriangle, aboveSmall, downwards, small0, small1,
      small2.
    apply Vec3D_eq;
      cbn [Vec3D.add Vec3D.multiply Vec3D.sub Vec3D.x Vec3D.y Vec3D.z];
      field. }
  split; [lra|]. split; [lra|]. split; [unfold epsilon; lra|]. split.
  - apply rayTriangleIntersect_parallel. rewrite small_determinant.
    rewrite Rabs_pos_eq by lra. unfold epsilon. lra.
  - vm_compute. reflexivity.
Qed.

(** ** The scalar of a vertex and what a bake writes *)

Section Written.
Context {host : Host}.

(** C5: the raw accessibility is [1 - occludedCount / N].  The scalar
    of a vertex is the raw accessibility of that vertex taken to the
    power of the intensity, and with the inversion one minus that
    power, and it is this scalar that a bake of the mesh leaves on the
    corners of the vertex.  So with intensity 1 and no inversion the
    written value is the raw accessibility, and with intensity 2 a raw
    accessibility of 1/2 becomes 1/4, and 3/4 when inverted: the power
    comes first, the inversion second. *)
Theorem calculateOcclusion_postprocess :
  (forall worldPos normal sampleDirections allMeshes maxDistance bias,
      sampleDirections <> [] ->
      calculateOcclusion worldPos normal sampleDirections allMeshes
        maxDistance bias
      = 1 - INR (occludedCount worldPos normal sampleDirections allMeshes
                   maxDistance bias)
            / INR (length sampleDirections))
  /\ (forall meshMatrix core allMeshes sampleDirections maxDistance bias
             intensity v,
      let raw :=
        calculateOcclusion (Mat4D_multiply meshMatrix (Core.vertex core v))
          (calculateVertexNormal core v meshMatrix) sampleDirections
          allMeshes maxDistance bias in
      vertexOcclusion meshMatrix core allMeshes sampleDirections
        maxDistance bias intensity false v = Math_pow raw intensity
      /\ vertexOcclusion meshMatrix core allMeshes sampleDirections
           maxDistance bias intensity true v = 1 - Math_pow raw intensity
      /\ (sampleDirections <> [] ->
          vertexOcclusion meshMatrix core allMeshes sampleDirections
            maxDistance bias 1 false v = raw)
      /\ (raw = 1 / 2 ->
          vertexOcclusion meshMatrix core allMeshes sampleDirections
            maxDistance bias 2 false v = 1 / 4
          /\ vertexOcclusion meshMatrix core allMeshes sampleDirections
               maxDistance bias 2 true v = 3 / 4))
  /\ (forall meshObj core allMeshes sampleRays maxDistance bias intensity
             invert w p c,
      let v := Core.vertexIndex core p c in
      let raw :=
        calculateOcclusion
          (Mat4D_multiply (Obj.obj2WorldMatrix meshObj) (Core.vertex core v))
          (calculateVertexNormal core v (Obj.obj2WorldMatrix meshObj))
          (fst (generateHemisphereSamples sampleRays w)) allMeshes
          maxDistance bias in
      (p < Core.polygonCount core)%nat ->
      (c < Core.polygonSize core p)%nat ->
      (v < Core.vertexCount core)%nat ->
      Core.uvCoord
        (fst (bakeMeshAO meshObj core allMeshes sampleRays maxDistance bias
                intensity invert w)) !! (p, c)
      = Some (Vec4D.new
                (if invert then 1 - Math_pow raw intensity
                 else Math_pow raw intensity) 0 0 0))
  /\ (forall meshObj core allMeshes sampleRays maxDistance bias w p c,
      let v := Core.vertexIndex core p c in
      let raw :=
        calculateOcclusion
          (Mat4D_multiply (Obj.obj2WorldMatrix meshObj) (Core.vertex core v))
          (calculateVertexNormal core v (Obj.obj2WorldMatrix meshObj))
          (fst (generateHemisphereSamples sampleRays w)) allMeshes
          maxDistance bias in
      (0 < sampleRays)%nat ->
      (p < Core.polygonCount core)%nat ->
      (c < Core.polygonSize core p)%nat ->
      (v < Core.vertexCount core)%nat ->
      Core.uvCoord
        (fst (bakeMeshAO meshObj core allMeshes sampleRays maxDistance bias
                1 false w)) !! (p, c)
      = Some (Vec4D.new raw 0 0 0)).
Proof.
  split; [|split; [|split]].
  - intros. apply calculateOcclusion_count.
  - intros meshMatrix core allMeshes sampleDirections maxDistance bias
      intensity v raw.
    unfold vertexOcclusion, applyIntensity. fold raw.
    split; [reflexivity|]. split; [reflexivity|]. split.
    + intros Hne. apply Math_pow_one.
      apply calculateOcclusion_unit_interval, Hne.
    + intros Hraw. rewrite Hraw, Math_pow_half_two. split; lra.
  - intros meshObj core allMeshes sampleRays maxDistance bias intensity
      invert w p c v raw Hp Hc Hv.
    rewrite bakeMeshAO_corner by assumption.
    unfold vertexOcclusion, applyIntensity. fold v. fold raw.
    destruct invert; reflexivity.
  - intros meshObj core allMeshes sampleRays maxDistance bias w p c v raw
      Hn Hp Hc Hv.
    rewrite bakeMeshAO_corner by assumption.
    unfold vertexOcclusion, applyIntensity. fold v. fold raw.
    rewrite Math_pow_one; [reflexivity|].
    apply calculateOcclusion_unit_interval.
    unfold generateHemisphereSamples. rewrite hemisphereLoop_run.
    cbn [fst app]. destruct sampleRays as [|n]; [lia|].
    cbn [seq map]. discriminate.
Qed.

(** C7: for a vertex [v] one scalar [s] is computed, and the write
    puts [(s, 0, 0, 0)] on every corner [(p, c)] of the mesh whose
    vertex index is [v], and leaves every other corner, so every corner
    that does not reference [v], as it was; [setVertexColor] itself
    keeps of the colour it is given the first component only.  After
    [bakeMeshAO] every corner of the mesh whose vertex index [v] is
    below the vertex count holds [(s, 0, 0, 0)] for the one scalar [s]
    of [v], the same on all the corners that reference [v], and every
    other key of the store is as it was. *)
Theorem setVertexColor_corner_writes :
  (forall core v color p c,
      ((p < Core.polygonCount core)%nat ->
       (c < Core.polygonSize core p)%nat ->
       Core.vertexIndex core p c = v ->
       Core.uvCoord (setVertexColor core v color) !! (p, c)
       = Some (Vec4D.new (Vec4D.x color) 0 0 0))
      /\ (~ ((p < Core.polygonCount core)%nat
             /\ (c < Core.polygonSize core p)%nat
             /\ Core.vertexIndex core p c = v) ->
          Core.uvCoord (setVertexColor core v color) !! (p, c)
          = Core.uvCoord core !! (p, c)))
  /\ (forall meshMatrix allMeshes sampleDirections maxDistance bias
             intensity invert core v p c,
      ((p < Core.polygonCount core)%nat ->
       (c < Core.polygonSize core p)%nat ->
       Core.vertexIndex core p c = v ->
       Core.uvCoord
         (bakeVertex meshMatrix allMeshes sampleDirections maxDistance bias
            intensity invert core v) !! (p, c)
       = Some (Vec4D.new
                 (vertexOcclusion meshMatrix core allMeshes
                    sampleDirections maxDistance bias intensity invert v)
                 0 0 0))
      /\ (~ ((p < Core.polygonCount core)%nat
             /\ (c < Core.polygonSize core p)%nat
             /\ Core.vertexIndex core p c = v) ->
          Core.uvCoord
            (bakeVertex meshMatrix allMeshes sampleDirections maxDistance
               bias intensity invert core v) !! (p, c)
          = Core.uvCoord core !! (p, c)))
  /\ (forall meshObj core allMeshes sampleRays maxDistance bias intensity
             invert w v p c,
      let baked :=
        fst (bakeMeshAO meshObj core allMeshes sampleRays maxDistance bias
               intensity invert w) in
      ((v < Core.vertexCount core)%nat ->
       (p < Core.polygonCount core)%nat ->
       (c < Core.polygonSize core p)%nat ->
       Core.vertexIndex core p c = v ->
       Core.uvCoord baked !! (p, c)
       = Some (Vec4D.new
                 (vertexOcclusion (Obj.obj2WorldMatrix meshObj) core
                    allMeshes (fst (generateHemisphereSamples sampleRays w))
                    maxDistance bias intensity invert v)
                 0 0 0))
      /\ (~ ((p < Core.polygonCount core)%nat
             /\ (c < Core.polygonSize core p)%nat
             /\ (Core.vertexIndex core p c < Core.vertexCount core)%nat) ->
          Core.uvCoord baked !! (p, c) = Core.uvCoord core !! (p, c))).
Proof.
  split; [|split].
  - intros core v color p c. split.
    + intros Hp Hc Hv. rewrite <- (withUV_uvCoord core) at 1.
      rewrite setVertexColor_store. cbn [Core.withUV Core.uvCoord].
      apply writePolygons_hit; [apply in_seq; lia | assumption | assumption].
    + intros Hmiss. rewrite <- (withUV_uvCoord core) at 1.
      rewrite setVertexColor_store. cbn [Core.withUV Core.uvCoord].
      apply writePolygons_miss. intros (Hp & Hc & Hv). apply Hmiss.
      apply in_seq in Hp. repeat split; [lia | exact Hc | exact Hv].
  - intros. split; [apply bakeVertex_hit | apply bakeVertex_miss].
  - intros meshObj core allMeshes sampleRays maxDistance bias intensity
      invert w v p c baked. subst baked. split.
    + intros Hv Hp Hc Hpc. subst v. apply bakeMeshAO_corner; assumption.
    + intros Hout. rewrite bakeMeshAO_core. cbn [Core.withUV Core.uvCoord].
      rewrite writeVertices_lookup.
      destruct (Nat.ltb_spec p (Core.polygonCount core)) as [Hp | Hp];
        [|reflexivity].
      destruct (Nat.ltb_spec c (Core.polygonSize core p)) as [Hc | Hc];
        [|reflexivity].
      destruct (Nat.ltb_spec (Core.vertexIndex core p c)
                  (Core.vertexCount core)) as [Hv | Hv]; [|reflexivity].
      exfalso. apply Hout. repeat split; assumption.
Qed.
End Written.


(** ** A vertex under a roof: half of the sample rays are blocked *)

Lemma triangleCore_normal :
  calculateVertexNormal (host := translations) triangleCore 0 identityMatrix
  = Vec3D.new 0 1 0.
Proof.
  rewrite calculateVertexNormal_normalized.
  - rewrite triangleCore_averaged_norm, triangleCore_averaged.
    apply Vec3D_eq; cbn [Vec3D.multiply Vec3D.x Vec3D.y Vec3D.z]; field.
  - rewrite triangleCore_incident. discriminate.
  - rewrite triangleCore_averaged_norm. lra.
Qed.

Lemma tangentBasis_up :
  tangentBasis (Vec3D.new 0 1 0) = (Vec3D.new 0 0 (-1), Vec3D.new (-1) 0 0).
Proof.
  unfold tangentBasis.
  assert (Hd : Rgtb (Rabs (Vec3D.dot (Vec3D.new 0 1 0) (Vec3D.new 0 1 0)))
                 upThreshold = true).
  { apply Rgtb_true. unfold Vec3D.dot. cbn [Vec3D.x Vec3D.y Vec3D.z].
    replace (0 * 0 + 1 * 1 + 0 * 0) with 1 by ring. rewrite Rabs_R1.
    unfold upThreshold. lra. }
  rewrite Hd.
  assert (Hc : Vec3D.cross (Vec3D.new 0 1 0) (Vec3D.new 1 0 0)
               = Vec3D.new 0 0 (-1)).
  { apply Vec3D_eq; cbn [Vec3D.cross Vec3D.x Vec3D.y Vec3D.z]; ring. }
  rewrite Hc.
  assert (Hn : Vec3D.norm (Vec3D.new 0 0 (-1)) = 1).
  { apply norm_one_dot. unfold Vec3D.dot. cbn [Vec3D.x Vec3D.y Vec3D.z].
    ring. }
  rewrite Hn. rewrite (proj2 (Rgtb_true 1 0)) by lra.
  f_equal; apply Vec3D_eq;
    cbn [Vec3D.cross Vec3D.multiply Vec3D.x Vec3D.y Vec3D.z]; field.
Qed.

Lemma roof_ray_up :
  sampleRay (Vec3D.new 0 0 0) (Vec3D.new 0 1 0) (Vec3D.new 0 0 (-1))
    (Vec3D.new (-1) 0 0) 1 (1 / 100) (Vec3D.new 0 1 0)
  = (Vec3D.new 0 (1 / 100) 0, Vec3D.new 0 (101 / 100) 0).
Proof.
  unfold sampleRay. f_equal; apply Vec3D_eq;
    cbn [Vec3D.add Vec3D.multiply Vec3D.x Vec3D.y Vec3D.z]; field.
Qed.

Lemma roof_ray_rim :
  sampleRay (Vec3D.new 0 0 0) (Vec3D.new 0 1 0) (Vec3D.new 0 0 (-1))
    (Vec3D.new (-1) 0 0) 1 (1 / 100) (Vec3D.new 1 0 0)
  = (Vec3D.new 0 (1 / 100) 0, Vec3D.new 0 (1 / 100) (-1)).
Proof.
  unfold sampleRay. f_equal; apply Vec3D_eq;
    cbn [Vec3D.add Vec3D.multiply Vec3D.x Vec3D.y Vec3D.z]; field.
Qed.

Lemma roof_local_length (rayStart rayEnd : Vec3D) :
  Vec3D.dot (Vec3D.sub rayEnd rayStart) (Vec3D.sub rayEnd rayStart) = 1 ->
  localLength (host := translations) rayStart rayEnd roofOccluder = 1.
Proof.
  intros H. unfold localLength. apply norm_one_dot. rewrite <- H.
  destruct rayStart, rayEnd.
  unfold Vec3D.dot, Vec3D.sub, roofOccluder, identityMatrix.
  cbn [mesh_matrix Mat4D_inverse Mat4D_multiply translations Vec3D.add
       Vec3D.multiply Vec3D.x Vec3D.y Vec3D.z].
  ring.
Qed.

Lemma roof_local_start (rayStart : Vec3D) :
  localStart (host := translations) rayStart roofOccluder = rayStart.
Proof.
  destruct rayStart. unfold localStart, roofOccluder, identityMatrix.
  cbn [mesh_matrix Mat4D_inverse Mat4D_multiply translations].
  apply Vec3D_eq;
    cbn [Vec3D.add Vec3D.multiply Vec3D.x Vec3D.y Vec3D.z]; ring.
Qed.

Lemma roof_local_direction (rayStart rayEnd : Vec3D) :
  Vec3D.dot (Vec3D.sub rayEnd rayStart) (Vec3D.sub rayEnd rayStart) = 1 ->
  localDirection (host := translations) rayStart rayEnd roofOccluder
  = Vec3D.sub rayEnd rayStart.
Proof.
  intros H. unfold localDirection. rewrite (roof_local_length _ _ H).
  destruct rayStart, rayEnd. unfold roofOccluder, identityMatrix.
  cbn [mesh_matrix Mat4D_inverse Mat4D_multiply translations].
  apply Vec3D_eq;
    cbn [Vec3D.sub Vec3D.add Vec3D.multiply Vec3D.x Vec3D.y Vec3D.z]; field.
Qed.

Lemma roof_up_unit :
  Vec3D.dot
    (Vec3D.sub (Vec3D.new 0 (101 / 100) 0) (Vec3D.new 0 (1 / 100) 0))
    (Vec3D.sub (Vec3D.new 0 (101 / 100) 0) (Vec3D.new 0 (1 / 100) 0)) = 1.
Proof.
  unfold Vec3D.dot, Vec3D.sub. cbn [Vec3D.x Vec3D.y Vec3D.z]. field.
Qed.

Lemma roof_rim_unit :
  Vec3D.dot
    (Vec3D.sub (Vec3D.new 0 (1 / 100) (-1)) (Vec3D.new 0 (1 / 100) 0))
    (Vec3D.sub (Vec3D.new 0 (1 / 100) (-1)) (Vec3D.new 0 (1 / 100) 0)) = 1.
Proof.
  unfold Vec3D.dot, Vec3D.sub. cbn [Vec3D.x Vec3D.y Vec3D.z]. field.
Qed.

Lemma roof_blocks_up :
  rayIntersectsAnyMesh (host := translations) (Vec3D.new 0 (1 / 100) 0)
    (Vec3D.new 0 (101 / 100) 0) [roofOccluder] = true.
Proof.
  apply rayIntersectsAnyMesh_exists. split.
  - rewrite (proj2 (norm_one_dot _) roof_up_unit). lra.
  - exists roofOccluder. split; [left; reflexivity|].
    apply meshHit_true_iff. split.
    + rewrite (roof_local_length _ _ roof_up_unit). lra.
    + exists 0%nat, 0%nat. split; [simpl; lia|]. split; [simpl; lia|].
      rewrite roof_local_start, (roof_local_direction _ _ roof_up_unit),
        (roof_local_length _ _ roof_up_unit).
      apply rayTriangleIntersect_conditions.
      unfold mt_u, mt_v, mt_t, mt_a, fanVertex, Vec3D.dot, Vec3D.cross,
        Vec3D.sub, epsilon.
      cbn [roofOccluder mesh_core roofCore Core.vertex Core.vertexIndex
           Nat.add Vec3D.x Vec3D.y Vec3D.z].
      repeat split; lra.
Qed.

Lemma roof_misses_rim :
  rayIntersectsAnyMesh (host := translations) (Vec3D.new 0 (1 / 100) 0)
    (Vec3D.new 0 (1 / 100) (-1)) [roofOccluder] = false.
Proof.
  apply not_true_is_false. intros H.
  apply rayIntersectsAnyMesh_exists in H.
  destruct H as (_ & mesh & [<- | []] & Hit).
  apply meshHit_true_iff in Hit. destruct Hit as (_ & p & t & Hp & Ht & Hit).
  cbn [roofOccluder mesh_core roofCore Core.polygonCount Core.polygonSize]
    in Hp, Ht.
  assert (p = 0%nat) by lia. assert (t = 0%nat) by lia. subst p t.
  rewrite rayTriangleIntersect_parallel in Hit; [discriminate|].
  rewrite (roof_local_direction _ _ roof_rim_unit).
  unfold mt_a, fanVertex, Vec3D.dot, Vec3D.cross, Vec3D.sub, epsilon.
  cbn [roofOccluder mesh_core roofCore Core.vertex Core.vertexIndex
       Nat.add Vec3D.x Vec3D.y Vec3D.z].
  match goal with |- Rabs ?e < _ => replace e with 0 by field end.
  rewrite Rabs_R0. lra.
Qed.

Lemma under_roof_raw :
  calculateOcclusion (host := translations)
    (Mat4D_multiply identityMatrix (Core.vertex triangleCore 0))
    (calculateVertexNormal triangleCore 0 identityMatrix) twoSamples
    [roofOccluder] 1 (1 / 100)
  = 1 / 2.
Proof.
  rewrite triangleCore_normal, calculateOcclusion_count.
  unfold occludedCount. rewrite tangentBasis_up. cbn [fst snd].
  replace (Mat4D_multiply identityMatrix (Core.vertex triangleCore 0))
    with (Vec3D.new 0 0 0)
    by (apply Vec3D_eq; simpl; ring).
  unfold twoSamples. cbn [List.filter].
  rewrite roof_ray_up, roof_ray_rim. cbn [fst snd].
  rewrite roof_blocks_up, roof_misses_rim. cbn [length INR]. field.
Qed.


Lemma calculateOcclusion_postprocess_witness :
  (twoSamples <> []
   /\ calculateOcclusion (host := translations)
        (Mat4D_multiply identityMatrix (Core.vertex triangleCore 0))
        (calculateVertexNormal triangleCore 0 identityMatrix) twoSamples
        [roofOccluder] 1 (1 / 100)
      = 1 - INR (occludedCount (host := translations)
                   (Mat4D_multiply identityMatrix (Core.vertex triangleCore 0))
                   (calculateVertexNormal triangleCore 0 identityMatrix)
                   twoSamples [roofOccluder] 1 (1 / 100))
            / INR (length twoSamples))
  /\ (twoSamples <> []
      /\ vertexOcclusion (host := translations) identityMatrix triangleCore
           [roofOccluder] twoSamples 1 (1 / 100) 1 false 0
         = calculateOcclusion (host := translations)
             (Mat4D_multiply identityMatrix (Core.vertex triangleCore 0))
             (calculateVertexNormal triangleCore 0 identityMatrix)
             twoSamples [roofOccluder] 1 (1 / 100))
  /\ (calculateOcclusion (host := translations)
        (Mat4D_multiply identityMatrix (Core.vertex triangleCore 0))
        (calculateVertexNormal triangleCore 0 identityMatrix) twoSamples
        [roofOccluder] 1 (1 / 100) = 1 / 2
      /\ vertexOcclusion (host := translations) identityMatrix triangleCore
           [roofOccluder] twoSamples 1 (1 / 100) 2 false 0 = 1 / 4
      /\ vertexOcclusion (host := translations) identityMatrix triangleCore
           [roofOccluder] twoSamples 1 (1 / 100) 2 true 0 = 3 / 4)
  /\ ((0 < Core.polygonCount triangleCore)%nat
      /\ (0 < Core.polygonSize triangleCore 0)%nat
      /\ (Core.vertexIndex triangleCore 0 0
          < Core.vertexCount triangleCore)%nat
      /\ Core.uvCoord
           (fst (bakeMeshAO (meshNode "first" triangleCore) triangleCore
                   [roofOccluder] 8 1 (1 / 100) 2 true startWorld))
           !! (0%nat, 0%nat)
         = Some (Vec4D.new
                   (1 - Math_pow
                          (calculateOcclusion (host := translations)
                             (Mat4D_multiply identityMatrix
                                (Core.vertex triangleCore 0))
                             (calculateVertexNormal triangleCore 0
                                identityMatrix)
                             (fst (generateHemisphereSamples 8 startWorld))
                             [roofOccluder] 1 (1 / 100))
                          2)
                   0 0 0))
  /\ ((0 < 8)%nat
      /\ Core.uvCoord
           (fst (bakeMeshAO (meshNode "first" triangleCore) triangleCore
                   [roofOccluder] 8 1 (1 / 100) 1 false startWorld))
           !! (0%nat, 0%nat)
         = Some (Vec4D.new
                   (calculateOcclusion (host := translations)
                      (Mat4D_multiply identityMatrix
                         (Core.vertex triangleCore 0))
                      (calculateVertexNormal triangleCore 0 identityMatrix)
                      (fst (generateHemisphereSamples 8 startWorld))
                      [roofOccluder] 1 (1 / 100))
                   0 0 0)).
Proof.
  assert (H : twoSamples <> []) by discriminate.
  assert (H3 : (0 < 8)%nat) by lia.
  assert (H4 : (0 < Core.polygonCount triangleCore)%nat) by (simpl; lia).
  assert (H5 : (0 < Core.polygonSize triangleCore 0)%nat) by (simpl; lia).
  assert (H6 : (Core.vertexIndex triangleCore 0 0
                < Core.vertexCount triangleCore)%nat) by (simpl; lia).
  split; [|split; [|split; [|split]]].
  - split; [exact H|].
    exact (proj1 (calculateOcclusion_postprocess (host := translations))
             _ _ twoSamples [roofOccluder] 1 (1 / 100) H).
  - split; [exact H|].
    exact (proj1 (proj2 (proj2
                    (proj1 (proj2 (calculateOcclusion_postprocess
                                     (host := translations)))
                       identityMatrix triangleCore [roofOccluder] twoSamples
                       1 (1 / 100) 1 0%nat)))
             H).
  - split; [exact under_roof_raw|].
    exact (proj2 (proj2 (proj2
                    (proj1 (proj2 (calculateOcclusion_postprocess
                                     (host := translations)))
                       identityMatrix triangleCore [roofOccluder] twoSamples
                       1 (1 / 100) 2 0%nat)))
             under_roof_raw).
  - do 3 (split; [assumption|]).
    exact (proj1 (proj2 (proj2 (calculateOcclusion_postprocess
                                  (host := translations))))
             (meshNode "first" triangleCore) triangleCore [roofOccluder]
             8%nat 1 (1 / 100) 2 true startWorld 0%nat 0%nat H4 H5 H6).
  - split; [exact H3|].
    exact (proj2 (proj2 (proj2 (calculateOcclusion_postprocess
                                  (host := translations))))
             (meshNode "first" triangleCore) triangleCore [roofOccluder]
             8%nat 1 (1 / 100) startWorld 0%nat 0%nat H3 H4 H5 H6).
Defined.

Lemma setVertexColor_corner_writes_witness :
  ((0 < Core.polygonCount triangleCore)%nat
   /\ (0 < Core.polygonSize triangleCore 0)%nat
   /\ Core.vertexIndex triangleCore 0 0 = 0%nat
   /\ Core.uvCoord
        (setVertexColor triangleCore 0
           (Vec4D.new (1 / 2) (1 / 2) (1 / 2) 1)) !! (0%nat, 0%nat)
      = Some (Vec4D.new (1 / 2) 0 0 0))
  /\ (~ ((0 < Core.polygonCount triangleCore)%nat
         /\ (1 < Core.polygonSize triangleCore 0)%nat
         /\ Core.vertexIndex triangleCore 0 1 = 0%nat)
      /\ Core.uvCoord
           (setVertexColor triangleCore 0
              (Vec4D.new (1 / 2) (1 / 2) (1 / 2) 1)) !! (0%nat, 1%nat)
         = Core.uvCoord triangleCore !! (0%nat, 1%nat))
  /\ (Core.uvCoord
        (bakeVertex (host := translations) identityMatrix [roofOccluder]
           twoSamples 1 (1 / 100) 1 false triangleCore 0) !! (0%nat, 0%nat)
      = Some (Vec4D.new
                (vertexOcclusion (host := translations) identityMatrix
                   triangleCore [roofOccluder] twoSamples 1 (1 / 100) 1
                   false 0)
                0 0 0))
  /\ (Core.uvCoord
        (bakeVertex (host := translations) identityMatrix [roofOccluder]
           twoSamples 1 (1 / 100) 1 false triangleCore 0) !! (0%nat, 1%nat)
      = Core.uvCoord triangleCore !! (0%nat, 1%nat))
  /\ ((1 < Core.vertexCount coplanarCore)%nat
      /\ (1 < Core.polygonCount coplanarCore)%nat
      /\ (1 < Core.polygonSize coplanarCore 0)%nat
      /\ Core.vertexIndex coplanarCore 0 1 = 1%nat
      /\ Core.uvCoord
           (fst (bakeMeshAO (meshNode "floor" coplanarCore) coplanarCore
                   [roofOccluder] 8 1 (1 / 100) 2 true startWorld))
           !! (0%nat, 1%nat)
         = Some (Vec4D.new
                   (vertexOcclusion (host := translations)
                      (Obj.obj2WorldMatrix (meshNode "floor" coplanarCore))
                      coplanarCore [roofOccluder]
                      (fst (generateHemisphereSamples 8 startWorld)) 1
                      (1 / 100) 2 true 1)
                   0 0 0))
  /\ ((0 < Core.vertexCount coplanarCore)%nat
      /\ (0 < Core.polygonSize coplanarCore 0)%nat
      /\ (0 < Core.polygonSize coplanarCore 1)%nat
      /\ Core.vertexIndex coplanarCore 0 0 = 0%nat
      /\ Core.vertexIndex coplanarCore 1 0 = 0%nat
      /\ Core.uvCoord
           (fst (bakeMeshAO (meshNode "floor" coplanarCore) coplanarCore
                   [roofOccluder] 8 1 (1 / 100) 2 true startWorld))
           !! (0%nat, 0%nat)
         = Core.uvCoord
             (fst (bakeMeshAO (meshNode "floor" coplanarCore) coplanarCore
                     [roofOccluder] 8 1 (1 / 100) 2 true startWorld))
             !! (1%nat, 0%nat))
  /\ (~ ((2 < Core.polygonCount coplanarCore)%nat
         /\ (0 < Core.polygonSize coplanarCore 2)%nat
         /\ (Core.vertexIndex coplanarCore 2 0
             < Core.vertexCount coplanarCore)%nat)
      /\ Core.uvCoord
           (fst (bakeMeshAO (meshNode "floor" coplanarCore) coplanarCore
                   [roofOccluder] 8 1 (1 / 100) 2 true startWorld))
           !! (2%nat, 0%nat)
         = Core.uvCoord coplanarCore !! (2%nat, 0%nat)).
Proof.
  assert (H1 : (0 < Core.polygonCount triangleCore)%nat) by (simpl; lia).
  assert (H2 : (0 < Core.polygonSize triangleCore 0)%nat) by (simpl; lia).
  assert (H3 : Core.vertexIndex triangleCore 0 0 = 0%nat) by reflexivity.
  assert (H4 : ~ ((0 < Core.polygonCount triangleCore)%nat
                  /\ (1 < Core.polygonSize triangleCore 0)%nat
                  /\ Core.vertexIndex triangleCore 0 1 = 0%nat))
    by (intros (_ & _ & H); simpl in H; discriminate).
  assert (G0 : (0 < Core.vertexCount coplanarCore)%nat) by (simpl; lia).
  assert (G1 : (1 < Core.vertexCount coplanarCore)%nat) by (simpl; lia).
  assert (G2 : (0 < Core.polygonCount coplanarCore)%nat) by (simpl; lia).
  assert (G3 : (1 < Core.polygonCount coplanarCore)%nat) by (simpl; lia).
  assert (G4 : (0 < Core.polygonSize coplanarCore 0)%nat) by (simpl; lia).
  assert (G5 : (1 < Core.polygonSize coplanarCore 0)%nat) by (simpl; lia).
  assert (G6 : (0 < Core.polygonSize coplanarCore 1)%nat) by (simpl; lia).
  assert (G7 : Core.vertexIndex coplanarCore 0 1 = 1%nat) by reflexivity.
  assert (G8 : Core.vertexIndex coplanarCore 0 0 = 0%nat) by reflexivity.
  assert (G9 : Core.vertexIndex coplanarCore 1 0 = 0%nat) by reflexivity.
  assert (G10 : ~ ((2 < Core.polygonCount coplanarCore)%nat
                   /\ (0 < Core.polygonSize coplanarCore 2)%nat
                   /\ (Core.vertexIndex coplanarCore 2 0
                       < Core.vertexCount coplanarCore)%nat))
    by (intros (H & _); simpl in H; lia).
  split; [|split; [|split; [|split; [|split; [|split]]]]].
  - do 3 (split; [assumption|]).
    exact (proj1 (proj1 (setVertexColor_corner_writes (host := translations))
                    triangleCore 0%nat (Vec4D.new (1 / 2) (1 / 2) (1 / 2) 1)
                    0%nat 0%nat) H1 H2 H3).
  - split; [exact H4|].
    exact (proj2 (proj1 (setVertexColor_corner_writes (host := translations))
                    triangleCore 0%nat (Vec4D.new (1 / 2) (1 / 2) (1 / 2) 1)
                    0%nat 1%nat) H4).
  - exact (proj1 (proj1 (proj2 (setVertexColor_corner_writes
                                  (host := translations)))
                    identityMatrix [roofOccluder] twoSamples 1 (1 / 100) 1
                    false triangleCore 0%nat 0%nat 0%nat) H1 H2 H3).
  - exact (proj2 (proj1 (proj2 (setVertexColor_corner_writes
                                  (host := translations)))
                    identityMatrix [roofOccluder] twoSamples 1 (1 / 100) 1
                    false triangleCore 0%nat 0%nat 1%nat) H4).
  - do 4 (split; [assumption|]).
    exact (proj1 (proj2 (proj2 (setVertexColor_corner_writes
                                  (host := translations)))
                    (meshNode "floor" coplanarCore) coplanarCore
                    [roofOccluder] 8%nat 1 (1 / 100) 2 true startWorld
                    1%nat 0%nat 1%nat) G1 G2 G5 G7).
  - do 5 (split; [assumption|]).
    rewrite (proj1 (proj2 (proj2 (setVertexColor_corner_writes
                                    (host := translations)))
                      (meshNode "floor" coplanarCore) coplanarCore
                      [roofOccluder] 8%nat 1 (1 / 100) 2 true startWorld
                      0%nat 0%nat 0%nat) G0 G2 G4 G8).
    rewrite (proj1 (proj2 (proj2 (setVertexColor_corner_writes
                                    (host := translations)))
                      (meshNode "floor" coplanarCore) coplanarCore
                      [roofOccluder] 8%nat 1 (1 / 100) 2 true startWorld
                      0%nat 1%nat 0%nat) G0 G3 G6 G9).
    reflexivity.
  - split; [exact G10|].
    exact (proj2 (proj2 (proj2 (setVertexColor_corner_writes
                                  (host := translations)))
                    (meshNode "floor" coplanarCore) coplanarCore
                    [roofOccluder] 8%nat 1 (1 / 100) 2 true startWorld
                    0%nat 2%nat 0%nat) G10).
Defined.
